(** * Pachyderm auth service, pipeline master and connection pool

    A shallow embedding of
    - the auth API server ([apiServer] and its RPC methods),
    - the PPS pipeline master loop ([master]),
    - the gRPC connection pool ([Pool.Do]),
    together with the properties of the specification stated over them. *)

From Stdlib Require Import ZArith.
From stdpp Require Import base strings gmap list pretty.

Set Warnings "-clear-no-such-hyp".

(** ** Errors and results shared by the three packages *)

(** Modelled from the spec: the [authclient.Scope] enum, a totally ordered
    enum NONE < READER < WRITER < OWNER compared through its numeric
    representation. *)
Inductive Scope : Type := Scope_NONE | Scope_READER | Scope_WRITER | Scope_OWNER.

#[global] Instance Scope_eq_dec : EqDecision Scope.
Proof. solve_decision. Defined.

Definition Scope_number (s : Scope) : Z :=
  match s with
  | Scope_NONE => 0 | Scope_READER => 1 | Scope_WRITER => 2 | Scope_OWNER => 3
  end.

(** Go's [<=] and [<] on two scopes. *)
Definition Scope_leb (s t : Scope) : bool := (Scope_number s <=? Scope_number t)%Z.
Definition Scope_ltb (s t : Scope) : bool := (Scope_number s <? Scope_number t)%Z.

(** Go [error] values.  [Errorf] is an error built by [fmt.Errorf] or
    [errors.New] whose text is known; [Wrapf prefix cause] is [fmt.Errorf]
    of the format [prefix] followed by [%s], with [cause.Error()]; it is kept
    structural because the text of [cause] is produced outside these files. *)
Inductive error : Type :=
| NotActivatedError
| NotAuthorizedError (Repo : string) (Required : Scope)
| ErrNotFound
| Errorf (msg : string)
| Wrapf (prefix : string) (cause : error).

Inductive Res (A : Type) : Type :=
| Ok (x : A)
| Err (e : error).
Arguments Ok {A} x.
Arguments Err {A} e.

Definition is_Ok {A} (r : Res A) : bool :=
  match r with Ok _ => true | Err _ => false end.

(** [strings.HasSuffix]:
    [len(s) >= len(suffix) && s[len(s)-len(suffix):] == suffix]. *)
Definition HasSuffix (s suffix : string) : bool :=
  let n := String.length s in
  let k := String.length suffix in
  (k <=? n)%nat && bool_decide (String.substring (n - k) k s = suffix).

(** The double-quote character, for messages that quote a name. *)
Definition dquote : string := String (Ascii.ascii_of_nat 34) EmptyString.

Module Auth.

(** *** Data model *)

(** [enterprise.State] (enterprise.proto): NONE = 0, ACTIVE = 1, EXPIRED = 2. *)
Inductive State : Type := State_NONE | State_ACTIVE | State_EXPIRED.

#[global] Instance State_eq_dec : EqDecision State.
Proof. solve_decision. Defined.

(** Modelled from the spec: the [authclient.User] message and its type enum
    (its proto file is not part of these sources):
    [{ username, type: HUMAN | PIPELINE }];
    HUMAN is the zero value of the enum. *)
Inductive User_UserType : Type := User_HUMAN | User_PIPELINE.

#[global] Instance User_UserType_eq_dec : EqDecision User_UserType.
Proof. solve_decision. Defined.

Record User : Type := mkUser { Username : string; Type_ : User_UserType }.

#[global] Instance User_eq_dec : EqDecision User.
Proof. solve_decision. Defined.

(** Modelled from the spec: the [authclient.ACL] message, a mapping
    [username -> Scope].  A nil Go map and an empty one are both [∅]. *)
Record ACL : Type := mkACL { Entries : gmap string Scope }.

(** [acl.Entries[u]]: indexing a Go map yields the zero value (NONE) for a
    key that is not present. *)
Definition ACL_at (acl : ACL) (u : string) : Scope :=
  default Scope_NONE (Entries acl !! u).

(** [var acl authclient.ACL]: the zero ACL has no entries. *)
Definition zeroACL : ACL := mkACL ∅.

(** *** Constants of the server *)

Definition DisableAuthenticationEnvVar : string :=
  "PACHYDERM_AUTHENTICATION_DISABLED_FOR_TESTING".

Definition defaultTokenTTLSecs : Z := 14 * 24 * 60 * 60.

Definition magicUser : string := "GZD4jKDGcirJyWQt6HtK4hhRD6faOofP1mng34xNZsI".

(** [epsilon = &types.BoolValue{Value: true}] *)
Definition epsilon : bool := true.

(** *** The store *)

(** Modelled from the spec: the store holds, per collection, rows that map a
    key to a value which may carry a TTL in seconds ([None]: the row never
    expires).  The three collections of the auth server, under their
    prefixes: *)
Record Etcd : Type := mkEtcd {
  tokens_rows : gmap string (User * option Z);   (* /tokens *)
  acls_rows   : gmap string (ACL * option Z);    (* /acls   *)
  admins_rows : gmap string (bool * option Z)    (* /admins *)
}.

(** [apiServer]: the admin cache and the store behind [etcdClient]. *)
Record apiServer : Type := mkServer {
  adminCache : gset string;
  etcdClient : Etcd
}.

(** A [col.Collection] picks its rows out of the store. *)
Record Collection (V : Type) : Type := mkCollection {
  col_rows : Etcd → gmap string (V * option Z);
  col_set  : gmap string (V * option Z) → Etcd → Etcd
}.
Arguments col_rows {V} c e.
Arguments col_set {V} c rows e.

Definition tokens : Collection User :=
  mkCollection User tokens_rows
    (λ r e, mkEtcd r (acls_rows e) (admins_rows e)).
Definition acls : Collection ACL :=
  mkCollection ACL acls_rows
    (λ r e, mkEtcd (tokens_rows e) r (admins_rows e)).
Definition admins : Collection bool :=
  mkCollection bool admins_rows
    (λ r e, mkEtcd (tokens_rows e) (acls_rows e) r).

(** *** What the server reaches outside itself *)

Record Env : Type := mkEnv {
  (** [client.NewFromAddress(a.address)] failed with this error *)
  clientErr : option error;
  (** [pachClient.Enterprise.GetState] *)
  Enterprise_GetState : Res State;
  (** [pachClient.InspectRepo(repo)]: [None] is a nil error, [Some msg] an
      error whose [Error()] text is [msg] *)
  InspectRepo : string → option string;
  (** [os.Getenv] *)
  Getenv : string → string;
  (** [gclient.Users.Get] of the authenticated user, then [user.GetName()], for the
      client built from the given access token; the error carries its text *)
  github_Users_Get : string → string + string;
  (** [uuid.NewWithoutDashes()] *)
  uuid_NewWithoutDashes : string;
  (** the lowercase hex digest [%x] of [sha256.Sum256([]byte(token))] *)
  sha256_hex : string → string;
  (** whether [Delete] of an absent key reports [ErrNotFound]: the spec
      leaves it open, so it is a parameter *)
  Delete_absent_fails : bool
}.

(** What an RPC does that is visible outside the server's memory and store. *)
Inductive Level : Type := InfoLevel | DebugLevel | ErrorLevel.

Inductive Event : Type :=
| EvLogReq
| EvLogResp (lvl : Level)
| EvGetState
| EvInspectRepo (repo : string)
| EvGithub (token : string)
| EvTxnBegin
| EvTxnCommit
| EvTxnAbort.

#[global] Instance Level_eq_dec : EqDecision Level.
Proof. solve_decision. Defined.
#[global] Instance Event_eq_dec : EqDecision Event.
Proof. solve_decision. Defined.

(** *** The monad of server methods: state, errors and a trace of events *)

Definition M (A : Type) : Type := apiServer → Res A * apiServer * list Event.

Definition ret {A} (x : A) : M A := λ a, (Ok x, a, []).
Definition fail {A} (e : error) : M A := λ a, (Err e, a, []).
Definition bind {A B} (m : M A) (f : A → M B) : M B :=
  λ a, match m a with
       | (Ok x, a', ev) => let '(r, a'', ev') := f x a' in (r, a'', ev ++ ev')
       | (Err e, a', ev) => (Err e, a', ev)
       end.

Declare Scope go_scope.
Delimit Scope go_scope with go.
Notation "x ← y ; z" := (bind y (λ x, z))
  (at level 20, y at level 100, z at level 200, only parsing) : go_scope.
Notation "x ;; z" := (bind x (λ _, z))
  (at level 100, z at level 200, only parsing, right associativity) : go_scope.
Local Open Scope go_scope.

(** [x, err := m]: run [m] and hand its error to the caller as a value. *)
Definition try {A} (m : M A) : M (Res A) :=
  λ a, let '(r, a', ev) := m a in (Ok r, a', ev).

Definition emit (e : Event) : M unit := λ a, (Ok (), a, [e]).
Definition gets {A} (f : apiServer → A) : M A := λ a, (Ok (f a), a, []).
Definition modify_etcd (f : Etcd → Etcd) : M unit :=
  λ a, (Ok (), mkServer (adminCache a) (f (etcdClient a)), []).

(** [for _, x := range l { f(x) }] *)
Fixpoint forEach {A} (l : list A) (f : A → M unit) : M unit :=
  match l with
  | [] => ret ()
  | x :: l' => f x ;; forEach l' f
  end.

(** Projections of a run. *)
Definition result {A} (x : Res A * apiServer * list Event) : Res A := x.1.1.
Definition final {A} (x : Res A * apiServer * list Event) : apiServer := x.1.2.
Definition events {A} (x : Res A * apiServer * list Event) : list Event := x.2.

(** *** Store collections *)

(** Modelled from the spec: [Get(key, out)] retrieves the value and fails
    with NotFound when the row is absent. *)
Definition Get {V} (c : Collection V) (key : string) : M V :=
  λ a, match col_rows c (etcdClient a) !! key with
       | Some (v, _) => (Ok v, a, [])
       | None => (Err ErrNotFound, a, [])
       end.

(** Modelled from the spec: [Put(key, value)] writes a row without TTL. *)
Definition Put {V} (c : Collection V) (key : string) (v : V) : M unit :=
  modify_etcd (λ e, col_set c (<[key := (v, None)]> (col_rows c e)) e).

(** Modelled from the spec: [PutTTL(key, value, seconds)] writes a row that
    the store drops after the interval. *)
Definition PutTTL {V} (c : Collection V) (key : string) (v : V) (ttl : Z) : M unit :=
  modify_etcd (λ e, col_set c (<[key := (v, Some ttl)]> (col_rows c e)) e).

(** Modelled from the spec: [Delete(key)] removes the row; on an absent row
    it changes nothing, and whether it then reports NotFound is the
    parameter [absent_fails]. *)
Definition Delete {V} (absent_fails : bool) (c : Collection V) (key : string) : M unit :=
  λ a, match col_rows c (etcdClient a) !! key with
       | Some _ =>
           (Ok (), mkServer (adminCache a)
                     (col_set c (delete key (col_rows c (etcdClient a))) (etcdClient a)), [])
       | None => (if absent_fails then Err ErrNotFound else Ok (), a, [])
       end.

(** Modelled from the spec: [DeleteAll()] removes every row of the collection. *)
Definition DeleteAll {V} (c : Collection V) : M unit :=
  modify_etcd (λ e, col_set c ∅ e).

(** Modelled from the spec: [col.NewSTM(ctx, client, fn)] runs [fn] against a
    transaction view; its writes become visible atomically when [fn] returns
    nil and are dropped when it returns an error.  A retry after a commit
    conflict re-runs [fn]; without concurrent writers [fn] runs once. *)
Definition NewSTM {A} (fn : M A) : M A :=
  λ a, match fn a with
       | (Ok x, a', ev) => (Ok x, a', EvTxnBegin :: ev ++ [EvTxnCommit])
       | (Err e, _, ev) => (Err e, a, EvTxnBegin :: ev ++ [EvTxnAbort])
       end.

(** *** Requests, responses and the request context *)

(** The gRPC metadata of a request, as [getAuthenticatedUser] reads it:
    [None] when the context has no metadata, otherwise the values stored
    under [authclient.ContextTokenKey]. *)
Record Context : Type := mkContext { md_tokens : option (list string) }.

Record ActivateRequest : Type := mkActivateRequest { Admins : list string }.
Record ModifyAdminsRequest : Type :=
  mkModifyAdminsRequest { Add : list string; Remove : list string }.
Record AuthenticateRequest : Type :=
  mkAuthenticateRequest { GithubUsername : string; GithubToken : string }.
Record AuthorizeRequest : Type :=
  mkAuthorizeRequest { authz_Repo : string; authz_Scope : Scope }.
Record SetScopeRequest : Type :=
  mkSetScopeRequest { ss_Username : string; ss_Repo : string; ss_Scope : Scope }.
(** [NewACL] is a pointer: [None] is nil. *)
Record SetACLRequest : Type :=
  mkSetACLRequest { sa_Repo : string; NewACL : option ACL }.
Record RevokeAuthTokenRequest : Type := mkRevokeAuthTokenRequest { Token : string }.

Record AuthenticateResponse : Type := mkAuthenticateResponse { PachToken : string }.
Record AuthorizeResponse : Type := mkAuthorizeResponse { Authorized : bool }.
Record GetCapabilityResponse : Type := mkGetCapabilityResponse { Capability : string }.

(** The empty responses ([ActivateResponse{}], [ModifyAdminsResponse{}], ...). *)
Inductive Empty : Type := EmptyResponse.

Section Server.

Context (env : Env).

(** *** Logging *)

Definition LogReq : M unit := emit EvLogReq.

(** [LogResp]: Info on success, Debug on [NotActivatedError], Error otherwise. *)
Definition LogResp_level {A} (r : Res A) : Level :=
  match r with
  | Ok _ => InfoLevel
  | Err NotActivatedError => DebugLevel
  | Err _ => ErrorLevel
  end.

(** [defer func(start) { a.LogResp(req, resp, retErr, ...) }(time.Now())]:
    the response is logged when the method returns, whatever it returns. *)
Definition defer_LogResp {A} (body : M A) : M A :=
  λ a, let '(r, a', ev) := body a in (r, a', ev ++ [EvLogResp (LogResp_level r)]).

(** *** Helpers of the server *)

Definition getPachClient : M unit :=
  match clientErr env with
  | Some e => fail e
  | None => ret ()
  end.

Definition getEnterpriseTokenState : M State :=
  r ← try getPachClient;
  match r with
  | Err err =>
      fail (Wrapf "could not get Pachd client to determine Enterprise status: " err)
  | Ok _ =>
      emit EvGetState ;;
      match Enterprise_GetState env with
      | Err err => fail (Wrapf "could not get Enterprise status: " err)
      | Ok state => ret state
      end
  end.

Definition isActivated : M bool :=
  gets (λ a, bool_decide (0 < size (adminCache a))).

Definition isAdmin (user : string) : M bool :=
  if bool_decide (user = magicUser) then ret true
  else gets (λ a, bool_decide (user ∈ adminCache a)).

Definition hashToken (token : string) : string := sha256_hex env token.

Definition AccessTokenToUsername (token : string) : M string :=
  emit (EvGithub token) ;;
  match github_Users_Get env token with
  | inr msg => fail (Errorf ("error getting the authenticated user: " +:+ msg))
  | inl name => ret name
  end.

Definition getAuthenticatedUser (ctx : Context) : M User :=
  match md_tokens ctx with
  | None => fail (Errorf "no authentication metadata found in context")
  | Some md =>
      match md with
      | [token] =>
          r ← try (Get tokens (hashToken token));
          match r with
          | Err ErrNotFound => fail (Errorf "token not found")
          | Err err => fail (Wrapf "error getting token: " err)
          | Ok user => ret user
          end
      | _ => fail (Errorf "auth token not found in context")
      end
  end.

(** *** Activate *)

Definition Activate (ctx : Context) (req : ActivateRequest) : M Empty :=
  LogReq ;;
  defer_LogResp (
    r ← try getEnterpriseTokenState;
    match r with
    | Err err => fail (Wrapf "error confirming Pachyderm Enterprise token: " err)
    | Ok state =>
        if negb (bool_decide (state = State_ACTIVE)) then
          fail (Errorf ("Pachyderm Enterprise is not active in this " +:+
                        "cluster, and the Pachyderm auth API is an Enterprise-level feature"))
        else
          activated ← isActivated;
          if activated then fail (Errorf "already activated")
          else
            NewSTM (forEach (Admins req) (λ user, Put admins user epsilon)) ;;
            ret EmptyResponse
    end).

(** *** Deactivate *)

Definition Deactivate (ctx : Context) : M Empty :=
  LogReq ;;
  defer_LogResp (
    activated ← isActivated;
    if negb activated then fail NotActivatedError
    else
      user ← getAuthenticatedUser ctx;
      admin ← isAdmin (Username user);
      if negb admin then fail (Errorf "must be an admin to disable cluster auth")
      else
        NewSTM (DeleteAll acls ;; DeleteAll tokens ;; DeleteAll admins) ;;
        ret EmptyResponse).

(** *** ModifyAdmins *)

Definition validateModifyAdminsRequest (req : ModifyAdminsRequest) : M unit :=
  m ← gets adminCache;
  let m := foldl (λ (m : gset string) u, {[u]} ∪ m) m (Add req) in
  let m := foldl (λ (m : gset string) u, m ∖ {[u]}) m (Remove req) in
  if bool_decide (size m = 0) then
    fail (Errorf ("invalid request: cannot remove all cluster administrators " +:+
                  "while auth is active, to avoid unfixable cluster states"))
  else ret ().

Definition ModifyAdmins (ctx : Context) (req : ModifyAdminsRequest) : M Empty :=
  LogReq ;;
  defer_LogResp (
    activated ← isActivated;
    if negb activated then fail NotActivatedError
    else
      user ← getAuthenticatedUser ctx;
      admin ← isAdmin (Username user);
      if negb admin then fail (Errorf "must be an admin to modify set of cluster admins")
      else
        validateModifyAdminsRequest req ;;
        NewSTM (
          forEach (Add req) (λ user, Put admins user epsilon) ;;
          forEach (Remove req) (λ user,
            _ ← try (Delete (Delete_absent_fails env) admins user); ret ())) ;;
        ret EmptyResponse).

(** *** Authenticate *)

Definition Authenticate (ctx : Context) (req : AuthenticateRequest) : M AuthenticateResponse :=
  defer_LogResp (
    activated ← isActivated;
    if negb activated then fail NotActivatedError
    else if bool_decide (GithubUsername req = magicUser) then fail (Errorf "invalid user")
    else
      (* Determine caller's Pachyderm/GitHub username *)
      username ←
        (if bool_decide (Getenv env DisableAuthenticationEnvVar = "true") then
           ret (GithubUsername req)
         else
           username ← AccessTokenToUsername (GithubToken req);
           if bool_decide (GithubUsername req ≠ "") &&
              bool_decide (GithubUsername req ≠ username)
           then fail (Errorf ("attempted to authenticate as %!s(MISSING), but Github " +:+
                              "token did not originate from that account"))
           else ret username);
      (* If the cluster's enterprise token is expired, only admins may log in *)
      r ← try getEnterpriseTokenState;
      match r with
      | Err err => fail (Wrapf "error confirming Pachyderm Enterprise token: " err)
      | Ok state =>
          refused ←
            (if negb (bool_decide (state = State_ACTIVE)) then
               admin ← isAdmin username; ret (negb admin)
             else ret false);
          if (refused : bool) then
            fail (Errorf ("Pachyderm Enterprise is not active in this " +:+
                          "cluster (until Pachyderm Enterprise is re-activated or Pachyderm " +:+
                          "auth is deactivated, only cluster admins can perform any operations)"))
          else
            (* Generate a new Pachyderm token and return it *)
            let pachToken := uuid_NewWithoutDashes env in
            r ← try (NewSTM (PutTTL tokens (hashToken pachToken)
                               (mkUser username User_HUMAN) defaultTokenTTLSecs));
            match r with
            | Err err =>
                fail (Wrapf ("error storing auth token for user " +:+ username +:+ ": ") err)
            | Ok _ => ret (mkAuthenticateResponse pachToken)
            end
      end).

(** *** Authorize *)

Definition Authorize (ctx : Context) (req : AuthorizeRequest) : M AuthorizeResponse :=
  LogReq ;;
  defer_LogResp (
    activated ← isActivated;
    if negb activated then fail NotActivatedError
    else
      user ← getAuthenticatedUser ctx;
      (* admins are always authorized *)
      admin ← isAdmin (Username user);
      if (admin : bool) then ret (mkAuthorizeResponse true)
      else
        r ← try getEnterpriseTokenState;
        match r with
        | Err err => fail (Wrapf "error confirming Pachyderm Enterprise token: " err)
        | Ok state =>
            if negb (bool_decide (state = State_ACTIVE)) &&
               negb (bool_decide (Type_ user = User_PIPELINE))
            then fail (Errorf ("Pachyderm Enterprise is not active in this " +:+
                               "cluster (only a cluster admin can authorize)"))
            else
              r ← try (Get acls (authz_Repo req));
              match r with
              | Err ErrNotFound =>
                  (* ACL not found -- same as empty ACL *)
                  ret (mkAuthorizeResponse false)
              | Err err =>
                  fail (Wrapf ("error getting ACL for repo " +:+ authz_Repo req +:+ ": ") err)
              | Ok acl =>
                  ret (mkAuthorizeResponse
                         (Scope_leb (authz_Scope req) (ACL_at acl (Username user))))
              end
        end).

(** *** SetScope *)

Definition validateSetScopeRequest (req : SetScopeRequest) : M unit :=
  if bool_decide (ss_Username req = "") then
    fail (Errorf "invalid request: must set username")
  else if bool_decide (ss_Repo req = "") then
    fail (Errorf "invalid request: must set repo")
  else ret ().

(** The closure [func() (bool, error)] inside the transaction of [SetScope]. *)
Definition SetScope_authorized (user : User) (req : SetScopeRequest) (acl : ACL) : M bool :=
  admin ← isAdmin (Username user);
  if (admin : bool) then ret true (* admins are automatically authorized *)
  else
    (* Check if the cluster's enterprise token is expired (fail if so) *)
    r ← try getEnterpriseTokenState;
    match r with
    | Err err => fail (Wrapf "error confirming Pachyderm Enterprise token: " err)
    | Ok state =>
        if negb (bool_decide (state = State_ACTIVE)) then
          fail (Errorf ("Pachyderm Enterprise is not active in this " +:+
                        "cluster (only a cluster admin can set a scope)"))
        else if bool_decide (0 < size (Entries acl)) then
          (* Check if there is an ACL, and if the user is on it *)
          if bool_decide (ACL_at acl (Username user) = Scope_OWNER) then ret true
          else ret false
        else
          (* No ACL -- check if the repo being modified exists *)
          r ← try getPachClient;
          match r with
          | Err err =>
              fail (Wrapf ("could not check if repo " +:+ dquote +:+ ss_Repo req +:+
                           dquote +:+ " exists: ") err)
          | Ok _ =>
              emit (EvInspectRepo (ss_Repo req)) ;;
              match InspectRepo env (ss_Repo req) with
              | None => ret false (* Repo exists -- user isn't authorized *)
              | Some msg =>
                  if negb (HasSuffix msg "not found") then
                    (* Unclear if repo exists -- return error *)
                    fail (Errorf ("could not inspect " +:+ ss_Repo req +:+ ": " +:+ msg))
                  else if bool_decide (ss_Username req = Username user) &&
                          bool_decide (ss_Scope req = Scope_OWNER) then
                    (* Repo doesn't exist -- a user is creating a new Repo, and
                       making themself the owner *)
                    ret true
                  else
                    fail (Errorf ("repo " +:+ dquote +:+ ss_Repo req +:+ dquote +:+
                                  " not found"))
              end
          end
    end.

Definition SetScope (ctx : Context) (req : SetScopeRequest) : M Empty :=
  LogReq ;;
  defer_LogResp (
    activated ← isActivated;
    if negb activated then fail NotActivatedError
    else
      validateSetScopeRequest req ;;
      user ← getAuthenticatedUser ctx;
      NewSTM (
        r ← try (Get acls (ss_Repo req));
        let acl := match r with
                   | Err _ => mkACL ∅ (* acl.Entries = make(map[string]Scope) *)
                   | Ok acl => acl
                   end in
        authorized ← SetScope_authorized user req acl;
        if negb authorized then fail (NotAuthorizedError (ss_Repo req) Scope_OWNER)
        else
          (* Scope change is authorized. Make the change *)
          let acl :=
            if negb (bool_decide (ss_Scope req = Scope_NONE)) then
              mkACL (<[ss_Username req := ss_Scope req]> (Entries acl))
            else
              mkACL (delete (ss_Username req) (Entries acl)) in
          Put acls (ss_Repo req) acl) ;;
      ret EmptyResponse).

(** *** SetACL *)

Definition SetACL (ctx : Context) (req : SetACLRequest) : M Empty :=
  LogReq ;;
  defer_LogResp (
    activated ← isActivated;
    if negb activated then fail NotActivatedError
    else if bool_decide (sa_Repo req = "") then
      fail (Errorf "invalid request: must provide name of repo you want to modify")
    else
      user ← getAuthenticatedUser ctx;
      (* Check if the cluster's enterprise token is expired (fail if so) *)
      r ← try getEnterpriseTokenState;
      match r with
      | Err err => fail (Wrapf "error confirming Pachyderm Enterprise token: " err)
      | Ok state =>
          refused ←
            (if negb (bool_decide (state = State_ACTIVE)) then
               admin ← isAdmin (Username user); ret (negb admin)
             else ret false);
          if (refused : bool) then
            fail (Errorf ("Pachyderm Enterprise is not active in this " +:+
                          "cluster (only a cluster admin can perform any operations)"))
          else
            r ← try (NewSTM (
              (* Require OWNER access to modify repo ACL *)
              r ← try (Get acls (sa_Repo req));
              let acl := match r with Err _ => zeroACL | Ok acl => acl end in
              admin ← isAdmin (Username user);
              if negb admin && Scope_ltb (ACL_at acl (Username user)) Scope_OWNER then
                fail (NotAuthorizedError (sa_Repo req) Scope_OWNER)
              else
                (* Set new ACL *)
                match NewACL req with
                | None => Delete (Delete_absent_fails env) acls (sa_Repo req)
                | Some newACL =>
                    if bool_decide (size (Entries newACL) = 0) then
                      Delete (Delete_absent_fails env) acls (sa_Repo req)
                    else Put acls (sa_Repo req) newACL
                end));
            match r with
            | Err err => fail (Wrapf "could not put new ACL: " err)
            | Ok _ => ret EmptyResponse
            end
      end).

(** *** GetCapability *)

Definition GetCapability (ctx : Context) : M GetCapabilityResponse :=
  LogReq ;;
  defer_LogResp (
    (* Generate User that the capability token will point to *)
    activated ← isActivated;
    user ← (if negb activated then ret (mkUser magicUser User_HUMAN)
            else getAuthenticatedUser ctx);
    let user := mkUser (Username user) User_PIPELINE in
    let capability := uuid_NewWithoutDashes env in
    r ← try (NewSTM (
      (* Capabilities are forever; they don't expire. *)
      Put tokens (hashToken capability) user));
    match r with
    | Err err =>
        fail (Wrapf ("error storing capability for user " +:+ Username user +:+ ": ") err)
    | Ok _ => ret (mkGetCapabilityResponse capability)
    end).

(** *** RevokeAuthToken *)

Definition RevokeAuthToken (ctx : Context) (req : RevokeAuthTokenRequest) : M Empty :=
  LogReq ;;
  defer_LogResp (
    activated ← isActivated;
    if negb activated then fail NotActivatedError
    else
      (* Even though anyone can revoke anyone's auth token, we still want
         the user to be authenticated. *)
      getAuthenticatedUser ctx ;;
      NewSTM (
        r ← try (Get tokens (hashToken (Token req)));
        match r with
        | Err ErrNotFound =>
            (* it's ok to revoke a nonexistent token *)
            ret ()
        | Err err => fail err
        | Ok user =>
            if negb (bool_decide (Type_ user = User_PIPELINE)) then
              fail (Errorf "cannot revoke a non-pipeline auth token")
            else Delete (Delete_absent_fails env) tokens (hashToken (Token req))
        end) ;;
      ret EmptyResponse).

End Server.

(** *** The admin watch *)

Inductive WatchEvent : Type :=
| EventPut (username : string)
| EventDelete (username : string).

(** One turn of the loop of [watchAdmins]: a Put adds the username to the
    admin cache, a Delete removes it. *)
Definition watchAdmins_event (ev : WatchEvent) (a : apiServer) : apiServer :=
  match ev with
  | EventPut username => mkServer ({[username]} ∪ adminCache a) (etcdClient a)
  | EventDelete username => mkServer (adminCache a ∖ {[username]}) (etcdClient a)
  end.

(** [strings.TrimPrefix]: [s] without the leading [prefix], or [s] itself
    when it does not start with [prefix]. *)
Definition TrimPrefix (s prefix : string) : string :=
  if String.prefix prefix s then
    String.substring (String.length prefix) (String.length s - String.length prefix) s
  else s.

(** An event of the admins watch: its type, its key and, for an error event,
    [ev.Err] ([None] is nil). *)
Inductive AdminEvent : Type :=
| AdminPut (key : string)
| AdminDelete (key : string)
| AdminError (err : option error).

(** The [for] loop of [watchAdmins] over the events the watch channel
    delivers before it is closed; the result is what the retried function
    returns ([None] is nil) and the server it leaves. *)
Fixpoint watchAdmins_loop (fullAdminPrefix : string) (evs : list AdminEvent)
    (a : apiServer) : option error * apiServer :=
  match evs with
  | [] => (Some (Errorf "admin watch closed unexpectedly"), a)
  | AdminPut key :: evs' =>
      let username := TrimPrefix key (fullAdminPrefix +:+ "/") in
      watchAdmins_loop fullAdminPrefix evs' (watchAdmins_event (EventPut username) a)
  | AdminDelete key :: evs' =>
      let username := TrimPrefix key (fullAdminPrefix +:+ "/") in
      watchAdmins_loop fullAdminPrefix evs' (watchAdmins_event (EventDelete username) a)
  | AdminError err :: evs' =>
      match err with
      | Some e => (Some e, a)
      | None => (None, a)
      end
  end.

(** *** The read-only methods *)

Record GetScopeRequest : Type :=
  mkGetScopeRequest { gs_Repos : list string; gs_Username : string }.
Record GetACLRequest : Type := mkGetACLRequest { ga_Repo : string }.

Record GetAdminsResponse : Type := mkGetAdminsResponse { resp_Admins : list string }.
Record WhoAmIResponse : Type := mkWhoAmIResponse { resp_Username : string }.
Record GetScopeResponse : Type := mkGetScopeResponse { resp_Scopes : list Scope }.
Record GetACLResponse : Type := mkGetACLResponse { resp_ACL : ACL }.

Section ServerReads.

Context (env : Env).

(** [GetAdmins].  [range] is the order in which [for admin := range
    a.adminCache] enumerates the cache in this call, given as a rearrangement
    of the elements of the cache. *)
Definition GetAdmins (range : list string → list string) (ctx : Context) :
    M GetAdminsResponse :=
  LogReq ;;
  defer_LogResp (
    activated ← isActivated;
    if negb activated then fail NotActivatedError
    else
      getAuthenticatedUser env ctx ;;
      cache ← gets adminCache;
      ret (mkGetAdminsResponse
             (foldl (λ admins admin, admins ++ [admin]) [] (range (elements cache))))).

Definition WhoAmI (ctx : Context) : M WhoAmIResponse :=
  LogReq ;;
  defer_LogResp (
    activated ← isActivated;
    if negb activated then fail NotActivatedError
    else
      user ← getAuthenticatedUser env ctx;
      ret (mkWhoAmIResponse (Username user))).

(** The loop [for _, repo := range req.Repos] of [GetScope]; [scopes] is
    [resp.Scopes] so far. *)
Fixpoint GetScope_loop (user : User) (username : string) (repos : list string)
    (scopes : list Scope) : M (list Scope) :=
  match repos with
  | [] => ret scopes
  | repo :: repos' =>
      r ← try (Get acls repo);
      match r with
      | Err ErrNotFound | Ok _ =>
          (* ACL not found -- ignore: [acl] stays the zero ACL *)
          let acl := match r with Ok acl => acl | Err _ => zeroACL end in
          if bool_decide (username = "") then
            GetScope_loop user username repos' (scopes ++ [ACL_at acl (Username user)])
          else
            admin ← isAdmin (Username user);
            if negb admin && Scope_ltb (ACL_at acl (Username user)) Scope_READER then
              fail (NotAuthorizedError repo Scope_READER)
            else
              GetScope_loop user username repos' (scopes ++ [ACL_at acl username])
      | Err err => fail err
      end
  end.

Definition GetScope (ctx : Context) (req : GetScopeRequest) : M GetScopeResponse :=
  LogReq ;;
  defer_LogResp (
    activated ← isActivated;
    if negb activated then fail NotActivatedError
    else
      user ← getAuthenticatedUser env ctx;
      (* Check if the cluster's enterprise token is expired (fail if so) *)
      r ← try (getEnterpriseTokenState env);
      match r with
      | Err err => fail (Wrapf "error confirming Pachyderm Enterprise token: " err)
      | Ok state =>
          refused ←
            (if negb (bool_decide (state = State_ACTIVE)) then
               admin ← isAdmin (Username user); ret (negb admin)
             else ret false);
          if (refused : bool) then
            fail (Errorf ("Pachyderm Enterprise is not active in this " +:+
                          "cluster (only a cluster admin can perform any operations)"))
          else
            scopes ← GetScope_loop user (gs_Username req) (gs_Repos req) [];
            ret (mkGetScopeResponse scopes)
      end).

Definition GetACL (ctx : Context) (req : GetACLRequest) : M GetACLResponse :=
  LogReq ;;
  defer_LogResp (
    activated ← isActivated;
    if negb activated then fail NotActivatedError
    else if bool_decide (ga_Repo req = "") then
      fail (Errorf "invalid request: must provide name of repo to get that repo's ACL")
    else
      user ← getAuthenticatedUser env ctx;
      (* Check if the cluster's enterprise token is expired (fail if so) *)
      r ← try (getEnterpriseTokenState env);
      match r with
      | Err err => fail (Wrapf "error confirming Pachyderm Enterprise token: " err)
      | Ok state =>
          refused ←
            (if negb (bool_decide (state = State_ACTIVE)) then
               admin ← isAdmin (Username user); ret (negb admin)
             else ret false);
          if (refused : bool) then
            fail (Errorf ("Pachyderm Enterprise is not active in this " +:+
                          "cluster (only a cluster admin can perform any operations)"))
          else
            (* Read repo ACL from etcd *)
            r ← try (Get acls (ga_Repo req));
            match r with
            | Err ErrNotFound | Ok _ =>
                let acl := match r with Ok acl => acl | Err _ => zeroACL end in
                (* require READER access to read repo metadata *)
                admin ← isAdmin (Username user);
                if negb admin && Scope_ltb (ACL_at acl (Username user)) Scope_READER then
                  fail (NotAuthorizedError (ga_Repo req) Scope_READER)
                else ret (mkGetACLResponse acl)
            | Err err => fail err
            end
      end).

End ServerReads.

(** *** Observations on runs, used to state the properties *)

(** Number of transactions committed during a run. *)
Definition commits (evs : list Event) : nat :=
  length (filter (λ e, e = EvTxnCommit) evs).

(** The rows written by [for _, user := range l { admins.Put(user, epsilon) }]. *)
Definition put_admins (rows : gmap string (bool * option Z)) (l : list string) :
    gmap string (bool * option Z) :=
  foldl (λ rows user, <[user := (epsilon, None)]> rows) rows l.

(** The rows left by [for _, user := range l { admins.Delete(user) }]. *)
Definition delete_admins (rows : gmap string (bool * option Z)) (l : list string) :
    gmap string (bool * option Z) :=
  foldl (λ rows user, delete user rows) rows l.

Definition remove_all_admins_error : error :=
  Errorf ("invalid request: cannot remove all cluster administrators " +:+
          "while auth is active, to avoid unfixable cluster states").

(** What [RevokeAuthToken] leaves in the store when it deletes a token row. *)
Definition without_token (key : string) (a : apiServer) : apiServer :=
  mkServer (adminCache a)
    (mkEtcd (delete key (tokens_rows (etcdClient a))) (acls_rows (etcdClient a))
       (admins_rows (etcdClient a))).

Definition revoke_human_error : error := Errorf "cannot revoke a non-pipeline auth token".

(** The server after a row [(user, ttl)] is written under [key] in /tokens. *)
Definition with_token (key : string) (user : User) (ttl : option Z) (a : apiServer) :
    apiServer :=
  mkServer (adminCache a)
    (mkEtcd (<[key := (user, ttl)]> (tokens_rows (etcdClient a))) (acls_rows (etcdClient a))
       (admins_rows (etcdClient a))).

(** The username [Authenticate] determines for a request: in test mode the
    requested one, otherwise the name GitHub reports for the access token,
    which must agree with the requested one when one is given. *)
Definition resolves (env : Env) (req : AuthenticateRequest) (username : string) : Prop :=
  (Getenv env DisableAuthenticationEnvVar = "true" ∧ username = GithubUsername req) ∨
  (Getenv env DisableAuthenticationEnvVar ≠ "true" ∧
   github_Users_Get env (GithubToken req) = inl username ∧
   (GithubUsername req = "" ∨ GithubUsername req = username)).

Definition enterprise_inactive_login_error : error :=
  Errorf ("Pachyderm Enterprise is not active in this " +:+
          "cluster (until Pachyderm Enterprise is re-activated or Pachyderm " +:+
          "auth is deactivated, only cluster admins can perform any operations)").

(** The events of a trace that fall between a [EvTxnBegin] and the end of
    that transaction, that is, the effects of transaction callbacks. *)
Fixpoint in_txn_from (inside : bool) (evs : list Event) : list Event :=
  match evs with
  | [] => []
  | EvTxnBegin :: evs' => in_txn_from true evs'
  | EvTxnCommit :: evs' | EvTxnAbort :: evs' => in_txn_from false evs'
  | e :: evs' => if inside then e :: in_txn_from inside evs' else in_txn_from inside evs'
  end.

Definition in_txn (evs : list Event) : list Event := in_txn_from false evs.

(** A run whose transaction callbacks made no RPC and wrote no log. *)
Definition txn_pure {A} (run : Res A * apiServer * list Event) : Prop :=
  in_txn (events run) = [].

(** The ACL a method reads for [repo]: the stored one, or the zero ACL when
    the repo has no row. *)
Definition stored_ACL (a : apiServer) (repo : string) : ACL :=
  match acls_rows (etcdClient a) !! repo with
  | Some (acl, _) => acl
  | None => zeroACL
  end.

(** The server after the ACL rows are replaced by [rows]. *)
Definition with_acls (rows : gmap string (ACL * option Z)) (a : apiServer) : apiServer :=
  mkServer (adminCache a)
    (mkEtcd (tokens_rows (etcdClient a)) rows (admins_rows (etcdClient a))).

(** The ACL [SetScope] writes back: the entry of [username] set to [scope],
    or removed when [scope] is NONE. *)
Definition set_entry (username : string) (scope : Scope) (acl : ACL) : ACL :=
  if bool_decide (scope = Scope_NONE) then mkACL (delete username (Entries acl))
  else mkACL (<[username := scope]> (Entries acl)).

(** Whether [GetScope] refuses to tell [user] about [repo] when asked for
    somebody's scope by name: [user] is no admin and has less than READER. *)
Definition may_not_read (a : apiServer) (user : User) (repo : string) : bool :=
  negb (bool_decide (Username user = magicUser) ||
        bool_decide (Username user ∈ adminCache a)) &&
  Scope_ltb (ACL_at (stored_ACL a repo) (Username user)) Scope_READER.

(** [isAdmin], read off the server. *)
Definition is_admin (a : apiServer) (username : string) : bool :=
  bool_decide (username = magicUser) || bool_decide (username ∈ adminCache a).

Definition enterprise_inactive_error : error :=
  Errorf ("Pachyderm Enterprise is not active in this " +:+
          "cluster (only a cluster admin can perform any operations)").

Definition set_scope_inactive_error : error :=
  Errorf ("Pachyderm Enterprise is not active in this " +:+
          "cluster (only a cluster admin can set a scope)").

(** The decision of the closure in the transaction of [SetScope] for a caller
    who is no admin, once the oracle has answered [st]: [Ok true] authorized,
    [Ok false] not authorized, [Err] an error of its own. *)
Definition non_admin_may_set (env : Env) (st : State) (caller : User)
    (req : SetScopeRequest) (acl : ACL) : Res bool :=
  if negb (bool_decide (st = State_ACTIVE)) then Err set_scope_inactive_error
  else if bool_decide (0 < size (Entries acl)) then
    Ok (bool_decide (ACL_at acl (Username caller) = Scope_OWNER))
  else
    match InspectRepo env (ss_Repo req) with
    | None => Ok false
    | Some msg =>
        if negb (HasSuffix msg "not found") then
          Err (Errorf ("could not inspect " +:+ ss_Repo req +:+ ": " +:+ msg))
        else if bool_decide (ss_Username req = Username caller) &&
                bool_decide (ss_Scope req = Scope_OWNER) then Ok true
        else Err (Errorf ("repo " +:+ dquote +:+ ss_Repo req +:+ dquote +:+ " not found"))
    end.

(** The ACL rows [SetACL] leaves: the row of the repo replaced by the new
    ACL, or removed when the new ACL is nil or has no entries. *)
Definition set_acl_rows (req : SetACLRequest) (rows : gmap string (ACL * option Z)) :
    gmap string (ACL * option Z) :=
  match NewACL req with
  | Some acl =>
      if bool_decide (size (Entries acl) = 0) then delete (sa_Repo req) rows
      else <[sa_Repo req := (acl, None)]> rows
  | None => delete (sa_Repo req) rows
  end.

(** The key of the admin row of [username] under the admins prefix. *)
Definition admin_key (fullAdminPrefix username : string) : string :=
  (fullAdminPrefix +:+ "/") +:+ username.

(** A request context that presents the single token [token]. *)
Definition presenting (token : string) : Context := mkContext (Some [token]).

End Auth.

(** ** The pipeline master (src/server/pps/server/master.go) *)

Module Master.

Inductive EventType : Type := EventPut | EventDelete | EventError.

Section WithPipelines.

(** [pps.Input] and [pps.PipelineInput] are opaque here, and so is the
    translation of the multi-input list into the legacy single input. *)
Context {Input PipelineInput : Type}.
Context (translatePipelineInputs : list PipelineInput → option Input).

(** Modelled from the spec: the pipeline record, with its legacy
    single-input field ([None] is nil) and its multi-input list. *)
Record PipelineInfo : Type := mkPipelineInfo {
  Pipeline_Name : string;
  Input_ : option Input;
  Inputs : list PipelineInput
}.

(** An event of the pipelines watch; [Unmarshal] is what
    [event.Unmarshal(&pipelineName, &pipelineInfo)] yields for it. *)
Record Event : Type := mkEvent {
  Key : string;
  Type_ : EventType;
  Err_ : option error;
  Unmarshal : Res (string * PipelineInfo)
}.

(** The worker replication controllers of the orchestrator, per pipeline. *)
Record Kube : Type := mkKube { controllers : gmap string PipelineInfo }.

(** Modelled from the spec: [upsertWorkersForPipeline] creates or updates the
    worker replication controller of the pipeline (idempotent). *)
Definition upsertWorkersForPipeline (pipelineInfo : PipelineInfo) (k : Kube) :
    option error * Kube :=
  (None, mkKube (<[Pipeline_Name pipelineInfo := pipelineInfo]> (controllers k))).

(** Modelled from the spec: [deleteWorkersForPipeline] deletes the worker
    replication controller of the pipeline and tolerates its absence. *)
Definition deleteWorkersForPipeline (pipelineName : string) (k : Kube) :
    option error * Kube :=
  (None, mkKube (delete pipelineName (controllers k))).

(** The [for] loop of the function handed to [backoff.RetryNotify], over the
    events the watch channel delivers before it is closed.  [err] is the
    variable assigned by [WatchByIndex]; the [err] of
    [if err := event.Unmarshal(...); err != nil] is local to that statement.
    The result is the error the function returns ([None] is nil). *)
Fixpoint watch_loop (err : option error) (events : list Event) (k : Kube) :
    option error * Kube :=
  match events with
  | [] => (Some (Errorf "pipelineWatcher closed unexpectedly"), k)
  | event :: events' =>
      match Err_ event with
      | Some e => (Some e, k)
      | None =>
          let pipelineName := Key event in
          match Type_ event with
          | EventPut =>
              match Unmarshal event with
              | Err e => (Some e, k)
              | Ok (pipelineName, pipelineInfo) =>
                  let pipelineInfo :=
                    match Input_ pipelineInfo with
                    | None =>
                        mkPipelineInfo (Pipeline_Name pipelineInfo)
                          (translatePipelineInputs (Inputs pipelineInfo))
                          (Inputs pipelineInfo)
                    | Some _ => pipelineInfo
                    end in
                  match err with
                  | Some _ => upsertWorkersForPipeline pipelineInfo k
                  | None => watch_loop err events' k
                  end
              end
          | EventDelete =>
              match err with
              | Some _ => deleteWorkersForPipeline pipelineName k
              | None => watch_loop err events' k
              end
          | EventError => watch_loop err events' k
          end
      end
  end.

(** One attempt of [master]: [WatchByIndex] hands back the watcher (here the
    events it will deliver) and [err]. *)
Definition master_attempt (watch : list Event * option error) (k : Kube) :
    option error * Kube :=
  let '(pipelineWatcher, err) := watch in
  match err with
  | Some e => (Some e, k)
  | None => watch_loop err pipelineWatcher k
  end.

(** The error with which the loop stops at [event], if it does: the error
    the event carries, or the one [Unmarshal] returns for a Put event. *)
Definition event_failure (event : Event) : option error :=
  match Err_ event with
  | Some e => Some e
  | None =>
      match Type_ event with
      | EventPut =>
          match Unmarshal event with
          | Err e => Some e
          | Ok _ => None
          end
      | _ => None
      end
  end.

End WithPipelines.

End Master.

(** ** The connection pool (src/server/pkg/pool/pool.go) *)

Module Pool.

(** [int64] arithmetic of [atomic.AddInt64]: two's complement wrap-around. *)
Definition wrap64 (z : Z) : Z := ((z + 2 ^ 63) mod 2 ^ 64 - 2 ^ 63)%Z.
Definition AddInt64 (x delta : Z) : Z := wrap64 (x + delta).

(** What a call of [f] ends with: it returns an error (or nil), or panics. *)
Inductive Outcome : Type :=
| Returned (err : option error)
| Panicked (value : string).

Section WithConn.

(** The connections [grpc.DialContext] makes; a [*grpc.ClientConn] is an
    [option ClientConn], [None] being nil. *)
Context {ClientConn : Type}.
Context (DialContext : string → ClientConn + error).

Record connCount : Type := mkConnCount { cc : option ClientConn; count : Z }.

(** [conns] maps an address to a pointer to its [connCount]; [heap] holds the
    [connCount] objects the pointers refer to. *)
Record Pool : Type := mkPool {
  conns : gmap string nat;
  heap : nat → connCount
}.

Definition store (l : nat) (c : connCount) (h : nat → connCount) : nat → connCount :=
  λ l', if bool_decide (l' = l) then c else h l'.

(** [atomic.AddInt64(&conn.count, delta)] *)
Definition add_count (l : nat) (delta : Z) (h : nat → connCount) : nat → connCount :=
  store l (mkConnCount (cc (h l)) (AddInt64 (count (h l)) delta)) h.

(** The loop [for addr, mapConn := range p.conns], in the order [range]
    happens to enumerate the map this time.  [conn] is the entry selected so
    far ([None] is nil). *)
Fixpoint select (range : list (string * nat)) (conn : option nat) (h : nat → connCount) :
    Res (option nat) * (nat → connCount) :=
  match range with
  | [] => (Ok conn, h)
  | (addr, mapConn) :: range' =>
      match cc (h mapConn) with
      | None =>
          match DialContext addr with
          | inr err => (Err err, h)
          | inl c =>
              (* mapConn.cc = cc; conn = mapConn; break *)
              (Ok (Some mapConn), store mapConn (mkConnCount (Some c) (count (h mapConn))) h)
          end
      | Some _ =>
          let conn :=
            match conn with
            | None => Some mapConn
            | Some l =>
                if (count (h mapConn) <? count (h l))%Z then Some mapConn else conn
            end in
          select range' conn h
      end
  end.

(** What [Do] did: what it returns or panics with, the pool afterwards, and,
    when [f] was invoked, the channel handed to [f] with the pool [f] found. *)
Record DoResult : Type := mkDoResult {
  outcome : Outcome;
  pool_after : Pool;
  invoked : option (option ClientConn * Pool);
  chosen : option nat
}.

(** [Do]: select under the lock, count the request, call [f], and un-count
    it in the deferred call, which runs whether [f] returns or panics.  [f]
    may change the pool while it runs. *)
Definition Do (range : list (string * nat))
    (f : option ClientConn → Pool → Outcome * Pool) (p : Pool) : DoResult :=
  match select range None (heap p) with
  | (Err err, h) => mkDoResult (Returned (Some err)) (mkPool (conns p) h) None None
  | (Ok None, h) =>
      mkDoResult (Returned (Some (Errorf "no endpoints found"))) (mkPool (conns p) h) None None
  | (Ok (Some conn), h) =>
      let p1 := mkPool (conns p) (add_count conn 1 h) in
      let '(out, p2) := f (cc (heap p1 conn)) p1 in
      mkDoResult out (mkPool (conns p2) (add_count conn (-1) (heap p2)))
        (Some (cc (heap p1 conn), p1)) (Some conn)
  end.

(** *** The endpoint watch *)

(** [api.EndpointSubset], as far as [updateAddresses] reads it: the IPs of
    its addresses and the numbers of its ports. *)
Record EndpointSubset : Type := mkEndpointSubset {
  Addresses : list string;
  Ports : list Z
}.

(** [fmt.Sprintf("%s:%d", address.IP, port.Port)] *)
Definition endpoint_addr (ip : string) (port : Z) : string :=
  ip +:+ ":" +:+ pretty port.

(** The state of [updateAddresses] inside its loops: the new map
    [addresses], the objects, and the first location at which no object has
    been allocated yet. *)
Record Building : Type := mkBuilding {
  addresses : gmap string nat;
  objects : nat → connCount;
  next_free : nat
}.

(** The body of the innermost loop: keep the entry [p.conns] has for [addr],
    or allocate [&connCount{}]. *)
Definition updateAddresses_addr (old : gmap string nat) (b : Building) (addr : string) :
    Building :=
  match old !! addr with
  | Some cc0 => mkBuilding (<[addr := cc0]> (addresses b)) (objects b) (next_free b)
  | None =>
      mkBuilding (<[addr := next_free b]> (addresses b))
        (store (next_free b) (mkConnCount None 0) (objects b))
        (S (next_free b))
  end.

(** [updateAddresses]: the cross product (addresses x ports) of every subset,
    in order; [p.conns] is replaced by the map built.  [next] is the first
    location not allocated before the call; the result carries the first one
    not allocated after it. *)
Definition updateAddresses (endpoints : list EndpointSubset) (p : Pool) (next : nat) :
    Pool * nat :=
  let b :=
    foldl (λ b subset,
      foldl (λ b address,
        foldl (λ b port,
          updateAddresses_addr (conns p) b (endpoint_addr address port))
          b (Ports subset))
        b (Addresses subset))
      (mkBuilding ∅ (heap p) next) endpoints in
  (mkPool (addresses b) (objects b), next_free b).

(** The addresses [updateAddresses] goes through, in order. *)
Definition endpoint_addrs (endpoints : list EndpointSubset) : list string :=
  subset ← endpoints;
  address ← Addresses subset;
  port ← Ports subset;
  [endpoint_addr address port].

(** What the loops maintain while they go through the addresses [seen]. *)
Definition building_ok (old : gmap string nat) (h0 : nat → connCount)
    (next : nat) (seen : list string) (b : Building) : Prop :=
  dom (addresses b) = list_to_set seen ∧
  (∀ addr l, addresses b !! addr = Some l →
     old !! addr = Some l ∨ (old !! addr = None ∧ next ≤ l < next_free b)) ∧
  (∀ l, l < next → objects b l = h0 l) ∧
  (∀ l, next ≤ l < next_free b → objects b l = mkConnCount None 0) ∧
  next ≤ next_free b.

(** *** Close *)

(** [cc.Close()] of a channel: the error it returns, [None] being nil. *)
Context (ClientConn_Close : ClientConn → option error).

(** What [Close] did: what it returns or panics with, whether [p.done] is
    closed afterwards, and the channels it closed, in order. *)
Record CloseResult : Type := mkCloseResult {
  close_outcome : Outcome;
  done_after : bool;
  closed : list ClientConn
}.

(** [Close].  [done] tells whether the channel [p.done] has been closed
    already, in which case [close(p.done)] panics; [range] is the order in
    which the map is enumerated. *)
Definition Close (range : list (string * nat)) (done : bool) (p : Pool) : CloseResult :=
  if done then mkCloseResult (Panicked "close of closed channel") true []
  else
    let '(retErr, cs) :=
      foldl (λ '(retErr, cs) '(_, conn),
               match cc (heap p conn) with
               | Some c =>
                   match ClientConn_Close c with
                   | Some err => (Some err, cs ++ [c])
                   | None => (retErr, cs ++ [c])
                   end
               | None => (retErr, cs)
               end)
            (None, []) range in
    mkCloseResult (Returned retErr) true cs.

End WithConn.

End Pool.

(** ** Small instances to run the code on *)

Module AuthSample.
Import Auth.

(** Entitlement [state]; test mode off; GitHub names every token's owner
    after the token; no repo exists. *)
Definition env_with (state : State) : Env :=
  mkEnv None (Ok state) (λ repo, Some ("repo " +:+ repo +:+ " not found"))
    (λ _, "") (λ token, inl token) "c0ffee" (λ token, "sha256:" +:+ token) true.

Definition alice : User := mkUser "alice" User_HUMAN.
Definition bob : User := mkUser "bob" User_HUMAN.
Definition worker : User := mkUser "bob" User_PIPELINE.

Definition alice_ctx : Context := mkContext (Some ["alice-token"]).
Definition bob_ctx : Context := mkContext (Some ["bob-token"]).

(** Activated, alice the only admin; bob is READER of repo [r] and its only
    ACL entry; one capability token of a pipeline is stored. *)
Definition cluster : apiServer :=
  mkServer {["alice"]}
    (mkEtcd
       (<["sha256:alice-token" := (alice, Some defaultTokenTTLSecs)]>
          (<["sha256:bob-token" := (bob, Some defaultTokenTTLSecs)]>
             {["sha256:cap" := (worker, None)]}))
       {["r" := (mkACL {["bob" := Scope_READER]}, None)]}
       {["alice" := (epsilon, None)]}).

(** A cluster that has not been activated. *)
Definition fresh : apiServer := mkServer ∅ (mkEtcd ∅ ∅ ∅).

End AuthSample.

Module PoolSample.
Import Pool.

(** Two endpoints, one with three requests outstanding and one not dialed
    yet; an [f] that panics without touching the pool. *)
Definition dial (addr : string) : string + error := inl ("conn:" +:+ addr).

Definition pool2 : Pool :=
  mkPool {["10.0.0.1:80" := 0; "10.0.0.2:80" := 1]}
    (λ l, if bool_decide (l = 0) then mkConnCount (Some "conn:10.0.0.1:80") 3
          else mkConnCount None 0).

(** [pool2] once [Do] has dialed the second endpoint and counted its request. *)
Definition pool2_counted : Pool (ClientConn := string) :=
  mkPool (conns pool2)
    (add_count 1 1 (store 1 (mkConnCount (Some "conn:10.0.0.2:80") 0) (heap pool2))).

Definition panicking (c : option string) (p : Pool (ClientConn := string)) :
    Outcome * Pool (ClientConn := string) :=
  (Panicked "worker crashed", p).

End PoolSample.

(** ** Properties of the auth service *)

Module AuthProps.
Import Auth AuthSample.

(** The pure readers neither change the server nor emit events. *)

Lemma isActivated_run a :
  isActivated a = (Ok (bool_decide (0 < size (adminCache a))), a, []).
Proof. reflexivity. Qed.

Lemma isAdmin_run user a :
  isAdmin user a =
  (Ok (bool_decide (user = magicUser) || bool_decide (user ∈ adminCache a)), a, []).
Proof. unfold isAdmin. case_bool_decide; reflexivity. Qed.

Lemma getAuthenticatedUser_run env ctx a :
  getAuthenticatedUser env ctx a = (result (getAuthenticatedUser env ctx a), a, []).
Proof.
  unfold getAuthenticatedUser.
  destruct (md_tokens ctx) as [[|token [|? ?]]|]; try reflexivity.
  unfold bind, try, Get, result; simpl.
  destruct (tokens_rows (etcdClient a) !! hashToken env token) as [[u ?]|]; reflexivity.
Qed.

Lemma getEnterpriseTokenState_run env a :
  ∃ ev, getEnterpriseTokenState env a = (result (getEnterpriseTokenState env a), a, ev).
Proof.
  unfold getEnterpriseTokenState, getPachClient, bind, try, result.
  destruct (clientErr env); simpl; [eauto|].
  destruct (Enterprise_GetState env); simpl; eauto.
Qed.

Lemma try_run {A} (m : M A) a :
  try m a = (Ok (result (m a)), final (m a), events (m a)).
Proof. unfold try, result, final, events. by destruct (m a) as [[? ?] ?]. Qed.

(** How a run goes through [bind], [defer_LogResp] and [NewSTM]. *)

Lemma result_mk {A} (r : Res A) a ev : result (r, a, ev) = r.
Proof. reflexivity. Qed.
Lemma final_mk {A} (r : Res A) a ev : final (r, a, ev) = a.
Proof. reflexivity. Qed.
Lemma events_mk {A} (r : Res A) a ev : events (r, a, ev) = ev.
Proof. reflexivity. Qed.

Lemma ret_run {A} (x : A) a : ret x a = (Ok x, a, []).
Proof. reflexivity. Qed.
Lemma fail_run {A} e a : @fail A e a = (Err e, a, []).
Proof. reflexivity. Qed.

Lemma try_as {A} {m : M A} {a r a' ev} :
  m a = (r, a', ev) → try m a = (Ok r, a', ev).
Proof. intros H. unfold try. by rewrite H. Qed.

Lemma bind_Ok {A B} (m : M A) (f : A → M B) a x a' ev :
  m a = (Ok x, a', ev) →
  bind m f a = (result (f x a'), final (f x a'), ev ++ events (f x a')).
Proof.
  intros H. unfold bind, result, final, events. rewrite H.
  by destruct (f x a') as [[? ?] ?].
Qed.

Lemma bind_Err {A B} (m : M A) (f : A → M B) a e a' ev :
  m a = (Err e, a', ev) → bind m f a = (Err e, a', ev).
Proof. intros H. unfold bind. by rewrite H. Qed.

Lemma run_eta {A} (x : Res A * apiServer * list Event) :
  x = (result x, final x, events x).
Proof. by destruct x as [[? ?] ?]. Qed.

Lemma defer_LogResp_run {A} (m : M A) a :
  defer_LogResp m a =
  (result (m a), final (m a), events (m a) ++ [EvLogResp (LogResp_level (result (m a)))]).
Proof. unfold defer_LogResp, result, final, events. by destruct (m a) as [[? ?] ?]. Qed.

Lemma LogReq_run {A} (m : M A) a :
  bind LogReq (λ _, m) a = (result (m a), final (m a), EvLogReq :: events (m a)).
Proof. unfold bind, LogReq, emit, result, final, events. by destruct (m a) as [[? ?] ?]. Qed.

Lemma NewSTM_run {A} (fn : M A) a :
  NewSTM fn a =
  match result (fn a) with
  | Ok x => (Ok x, final (fn a), EvTxnBegin :: events (fn a) ++ [EvTxnCommit])
  | Err e => (Err e, a, EvTxnBegin :: events (fn a) ++ [EvTxnAbort])
  end.
Proof. unfold NewSTM, result, final, events. by destruct (fn a) as [[[?|?] ?] ?]. Qed.

Lemma Get_run {V} (c : Collection V) key a :
  Get c key a =
  (match col_rows c (etcdClient a) !! key with
   | Some (v, _) => Ok v
   | None => Err ErrNotFound
   end, a, []).
Proof. unfold Get. by destruct (col_rows c (etcdClient a) !! key) as [[? ?]|]. Qed.

(** A method wrapped in [LogReq] and the deferred [LogResp] returns what its
    body returns and leaves the server as its body leaves it. *)
Lemma logged_result {A} (m : M A) a :
  result (bind LogReq (λ _, defer_LogResp m) a) = result (m a).
Proof. by rewrite LogReq_run, defer_LogResp_run. Qed.

Lemma logged_final {A} (m : M A) a :
  final (bind LogReq (λ _, defer_LogResp m) a) = final (m a).
Proof. by rewrite LogReq_run, defer_LogResp_run. Qed.

(** The readers of the hypotheses, in terms of the server's fields. *)

Lemma isActivated_true a :
  result (isActivated a) = Ok true ↔ adminCache a ≠ ∅.
Proof.
  rewrite isActivated_run. unfold result; simpl. split.
  - intros [= H%bool_decide_eq_true] Hempty. rewrite Hempty, size_empty in H. lia.
  - intros H. f_equal. apply bool_decide_eq_true.
    destruct (decide (size (adminCache a) = 0)) as [H0%size_empty_inv|]; [|lia].
    apply leibniz_equiv in H0. done.
Qed.

Lemma isAdmin_true user a :
  result (isAdmin user a) = Ok true ↔ user = magicUser ∨ user ∈ adminCache a.
Proof.
  rewrite isAdmin_run. unfold result; simpl. split.
  - intros [= H]. apply orb_true_iff in H as [H|H]; apply bool_decide_eq_true in H; auto.
  - intros H. f_equal. apply orb_true_iff.
    destruct H; [left|right]; by apply bool_decide_eq_true.
Qed.

(** Evaluation of a method body: [ctl] reduces the control flow that has
    become closed, [step H] pushes the run through the [bind] whose first
    action runs as [H] says. *)
Ltac ctl :=
  cbn beta iota zeta delta [negb andb orb];
  rewrite ?ret_run, ?fail_run, ?result_mk, ?final_mk, ?events_mk;
  cbn beta iota zeta delta [negb andb orb].

Ltac step H :=
  first [ erewrite bind_Ok by apply H | erewrite bind_Err by apply H ]; ctl.

Lemma getEnterpriseTokenState_events env a :
  events (getEnterpriseTokenState env a) = [] ∨
  events (getEnterpriseTokenState env a) = [EvGetState].
Proof.
  unfold getEnterpriseTokenState, getPachClient, bind, try, events.
  destruct (clientErr env); simpl; [eauto|].
  destruct (Enterprise_GetState env); simpl; eauto.
Qed.

(** C1.  In an activated cluster, for a caller authenticated as [u] and an
    entitlement oracle that answers [st], [Authorize] returns
    [Authorized = true] exactly when [u] is an admin, or the entitlement is
    ACTIVE or [u] is a PIPELINE user and the repo has an ACL row in which the
    scope of [u] (NONE when [u] has no entry) is at least the requested one.
    A repo without ACL row never yields [Authorized = true] for a non-admin. *)
Theorem Authorize_iff env a ctx req u st :
  result (isActivated a) = Ok true →
  result (getAuthenticatedUser env ctx a) = Ok u →
  result (getEnterpriseTokenState env a) = Ok st →
  result (Authorize env ctx req a) = Ok (mkAuthorizeResponse true) ↔
  (result (isAdmin (Username u) a) = Ok true ∨
   ((st = State_ACTIVE ∨ Type_ u = User_PIPELINE) ∧
    ∃ acl ttl, acls_rows (etcdClient a) !! authz_Repo req = Some (acl, ttl) ∧
               (Scope_number (authz_Scope req) ≤ Scope_number (ACL_at acl (Username u)))%Z)).
Proof.
  intros Hact Hu Hst.
  destruct (getEnterpriseTokenState_run env a) as [ev Hev].
  rewrite Hst in Hev.
  pose proof (getAuthenticatedUser_run env ctx a) as Hau. rewrite Hu in Hau.
  rewrite isActivated_run in Hact. injection Hact as Hact.
  unfold Authorize. rewrite logged_result.
  step isActivated_run. rewrite Hact. ctl.
  step Hau. step isAdmin_run.
  rewrite isAdmin_true.
  destruct (bool_decide (Username u = magicUser) || bool_decide (Username u ∈ adminCache a))
    eqn:Hadm; ctl.
  { apply orb_true_iff in Hadm. rewrite !bool_decide_eq_true in Hadm. tauto. }
  apply orb_false_iff in Hadm. rewrite !bool_decide_eq_false in Hadm.
  step (try_as Hev).
  destruct (bool_decide (st = State_ACTIVE)) eqn:Hactive;
    destruct (bool_decide (Type_ u = User_PIPELINE)) eqn:Hpipe; ctl;
    try apply bool_decide_eq_true in Hactive; try apply bool_decide_eq_true in Hpipe;
    try apply bool_decide_eq_false in Hactive; try apply bool_decide_eq_false in Hpipe.
  4: { split; [discriminate | tauto]. }
  all: step (try_as (Get_run acls (authz_Repo req) a)); cbn [col_rows acls];
    destruct (acls_rows (etcdClient a) !! authz_Repo req) as [[acl ttl]|] eqn:Hacl; ctl.
  all: unfold Scope_leb.
  all: try (split; [discriminate | intros [?|[_ (? & ? & ? & _)]]; [tauto | discriminate]]).
  all: split;
    [ intros [= Hle%Z.leb_le]; right; split; [tauto | eauto]
    | intros [?|[_ (acl' & ttl' & [= <- <-] & Hle)]]; [tauto|];
      do 2 f_equal; by apply Z.leb_le ].
Qed.

Lemma forEach_Put_admins_run l a :
  forEach l (λ user, Put admins user epsilon) a =
  (Ok (),
   mkServer (adminCache a)
     (mkEtcd (tokens_rows (etcdClient a)) (acls_rows (etcdClient a))
        (put_admins (admins_rows (etcdClient a)) l)),
   []).
Proof.
  revert a. induction l as [|user l IH]; intros [cache [t c d]]; [reflexivity|].
  cbn [forEach]. erewrite bind_Ok by reflexivity.
  rewrite IH. reflexivity.
Qed.

Lemma put_admins_lookup rows l k :
  put_admins rows l !! k = if bool_decide (k ∈ l) then Some (epsilon, None) else rows !! k.
Proof.
  unfold put_admins. revert rows. induction l as [|user l IH]; intros rows.
  - cbn [foldl]. case_bool_decide as H; [by apply elem_of_nil in H | done].
  - cbn [foldl]. rewrite IH.
    destruct (decide (k = user)) as [->|Hne].
    + rewrite lookup_insert_eq.
      rewrite (bool_decide_eq_true_2 (user ∈ user :: l)) by set_solver.
      by case_bool_decide.
    + rewrite lookup_insert_ne by done.
      destruct (decide (k ∈ l));
        [ rewrite !bool_decide_eq_true_2 by set_solver
        | rewrite !bool_decide_eq_false_2 by set_solver ]; done.
Qed.

(** C8.  [Activate] fails, leaving the server as it was, whenever the
    entitlement oracle does not answer ACTIVE, and whenever the cluster is
    already activated.  Otherwise it succeeds for any request context (no
    token is looked at), every username of the request has an admin row
    afterwards, nothing else in the store changes, and the run commits exactly
    one transaction. *)
Theorem Activate_spec env a ctx req :
  (result (getEnterpriseTokenState env a) ≠ Ok State_ACTIVE →
     ∃ e, result (Activate env ctx req a) = Err e ∧ final (Activate env ctx req a) = a) ∧
  (result (isActivated a) = Ok true →
     ∃ e, result (Activate env ctx req a) = Err e ∧ final (Activate env ctx req a) = a) ∧
  (result (getEnterpriseTokenState env a) = Ok State_ACTIVE →
   result (isActivated a) = Ok false →
     result (Activate env ctx req a) = Ok EmptyResponse ∧
     (∀ user, user ∈ Admins req →
        admins_rows (etcdClient (final (Activate env ctx req a))) !! user
        = Some (epsilon, None)) ∧
     final (Activate env ctx req a) =
       mkServer (adminCache a)
         (mkEtcd (tokens_rows (etcdClient a)) (acls_rows (etcdClient a))
            (put_admins (admins_rows (etcdClient a)) (Admins req))) ∧
     commits (events (Activate env ctx req a)) = 1).
Proof.
  destruct (getEnterpriseTokenState_run env a) as [ev Hev].
  assert (Hcommits : commits ((EvLogReq :: ev) ++ [EvTxnBegin; EvTxnCommit] ++
                              [EvLogResp InfoLevel]) = 1).
  { destruct (getEnterpriseTokenState_events env a) as [H|H];
      rewrite Hev, events_mk in H; subst ev; reflexivity. }
  rewrite isActivated_run, result_mk.
  destruct (result (getEnterpriseTokenState env a)) as [st|err] eqn:Hst.
  2: { assert (Hrun : ∃ e evs, Activate env ctx req a = (Err e, a, evs)).
       { do 2 eexists. unfold Activate. rewrite LogReq_run, defer_LogResp_run.
         step (try_as Hev). reflexivity. }
       destruct Hrun as (e & evs & ->). rewrite result_mk, final_mk.
       split; [eauto|]. split; [eauto|]. intros [=]. }
  destruct (decide (st = State_ACTIVE)) as [->|Hne].
  2: { assert (Hrun : ∃ e evs, Activate env ctx req a = (Err e, a, evs)).
       { do 2 eexists. unfold Activate. rewrite LogReq_run, defer_LogResp_run.
         step (try_as Hev). rewrite bool_decide_eq_false_2 by done. ctl. reflexivity. }
       destruct Hrun as (e & evs & ->). rewrite result_mk, final_mk.
       split; [eauto|]. split; [eauto|]. intros [=]; done. }
  destruct (bool_decide (0 < size (adminCache a))) eqn:Hact.
  { assert (Hrun : ∃ e evs, Activate env ctx req a = (Err e, a, evs)).
    { do 2 eexists. unfold Activate. rewrite LogReq_run, defer_LogResp_run.
      step (try_as Hev). rewrite bool_decide_eq_true_2 by done. ctl.
      step isActivated_run. rewrite Hact. ctl. reflexivity. }
    destruct Hrun as (e & evs & ->). rewrite result_mk, final_mk.
    split; [eauto|]. split; [eauto|]. intros _ [=]. }
  assert (Hrun : Activate env ctx req a =
                 (Ok EmptyResponse,
                  mkServer (adminCache a)
                    (mkEtcd (tokens_rows (etcdClient a)) (acls_rows (etcdClient a))
                       (put_admins (admins_rows (etcdClient a)) (Admins req))),
                  (EvLogReq :: ev) ++ [EvTxnBegin; EvTxnCommit] ++ [EvLogResp InfoLevel])).
  { unfold Activate. rewrite LogReq_run, defer_LogResp_run.
    step (try_as Hev). rewrite bool_decide_eq_true_2 by done. ctl.
      step isActivated_run. rewrite Hact. ctl.
    rewrite (bind_Ok (NewSTM _) _ a () _ _
               ltac:(rewrite NewSTM_run, forEach_Put_admins_run; reflexivity)).
    ctl. by rewrite <- !app_assoc. }
  rewrite Hrun, result_mk, final_mk, events_mk.
  split; [intros []; done|]. split; [intros [=]|]. intros _ _.
  split; [done|]. split; [|done].
  intros user Hin. cbn [etcdClient admins_rows].
  rewrite put_admins_lookup. by rewrite bool_decide_eq_true_2.
Qed.

Lemma forEach_Delete_admins_run b l a :
  forEach l (λ user, bind (try (Delete b admins user)) (λ _, ret ())) a =
  (Ok (),
   mkServer (adminCache a)
     (mkEtcd (tokens_rows (etcdClient a)) (acls_rows (etcdClient a))
        (delete_admins (admins_rows (etcdClient a)) l)),
   []).
Proof.
  revert a. induction l as [|user l IH]; intros [cache [t c d]]; [reflexivity|].
  cbn [forEach].
  assert (Hdel : bind (try (Delete b admins user)) (λ _, ret ())
                   (mkServer cache (mkEtcd t c d)) =
                 (Ok (), mkServer cache (mkEtcd t c (delete user d)), [])).
  { unfold bind, try, Delete; cbn.
    destruct (d !! user) eqn:Hd; [reflexivity|].
    rewrite delete_id by done. by destruct b. }
  erewrite bind_Ok by apply Hdel. rewrite IH. reflexivity.
Qed.

Lemma delete_admins_lookup rows l k :
  delete_admins rows l !! k = if bool_decide (k ∈ l) then None else rows !! k.
Proof.
  unfold delete_admins. revert rows. induction l as [|user l IH]; intros rows.
  - cbn [foldl]. case_bool_decide as H; [by apply elem_of_nil in H | done].
  - cbn [foldl]. rewrite IH.
    destruct (decide (k = user)) as [->|Hne].
    + rewrite lookup_delete_eq.
      rewrite (bool_decide_eq_true_2 (user ∈ user :: l)) by set_solver.
      by case_bool_decide.
    + rewrite lookup_delete_ne by done.
      destruct (decide (k ∈ l));
        [ rewrite !bool_decide_eq_true_2 by set_solver
        | rewrite !bool_decide_eq_false_2 by set_solver ]; done.
Qed.

(** The map [m] built by [validateModifyAdminsRequest]. *)
Lemma validate_admin_set (cache : gset string) (add remove : list string) :
  foldl (λ (m : gset string) u, m ∖ {[u]})
    (foldl (λ (m : gset string) u, {[u]} ∪ m) cache add) remove
  = (cache ∪ list_to_set add) ∖ list_to_set remove.
Proof.
  assert (Hadd : ∀ l (m : gset string),
            foldl (λ (m : gset string) u, {[u]} ∪ m) m l = m ∪ list_to_set l).
  { induction l as [|u l IH]; intros m; cbn [foldl].
    - set_solver.
    - rewrite IH. set_solver. }
  assert (Hrem : ∀ l (m : gset string),
            foldl (λ (m : gset string) u, m ∖ {[u]}) m l = m ∖ list_to_set l).
  { induction l as [|u l IH]; intros m; cbn [foldl].
    - set_solver.
    - rewrite IH. set_solver. }
  by rewrite Hadd, Hrem.
Qed.

Lemma validateModifyAdminsRequest_run req a :
  validateModifyAdminsRequest req a =
  (if bool_decide ((adminCache a ∪ list_to_set (Add req)) ∖ list_to_set (Remove req)
                   = (∅ : gset string))
   then Err remove_all_admins_error else Ok (), a, []).
Proof.
  unfold validateModifyAdminsRequest.
  erewrite bind_Ok by reflexivity. rewrite validate_admin_set.
  set (m := (adminCache a ∪ list_to_set (Add req)) ∖ list_to_set (Remove req)).
  destruct (decide (m = ∅)) as [Hm|Hm].
  - rewrite (bool_decide_eq_true_2 (m = ∅)) by done.
    rewrite bool_decide_eq_true_2 by (by rewrite Hm, size_empty).
    reflexivity.
  - rewrite (bool_decide_eq_false_2 (m = ∅)) by done.
    rewrite bool_decide_eq_false_2; [reflexivity|].
    intros H%size_empty_inv. by apply leibniz_equiv in H.
Qed.

(** C3.  [ModifyAdmins] in an activated cluster, called by an admin.  When
    (admin cache ∪ Add) \ Remove is empty the request is rejected with the
    invalid-request error, the server is unchanged and no transaction is
    opened.  Otherwise it succeeds, the admin rows are those obtained by
    putting every username of Add and then deleting every username of Remove,
    and the run commits exactly one transaction. *)
Theorem ModifyAdmins_spec env a ctx req caller :
  result (isActivated a) = Ok true →
  result (getAuthenticatedUser env ctx a) = Ok caller →
  result (isAdmin (Username caller) a) = Ok true →
  ((adminCache a ∪ list_to_set (Add req)) ∖ list_to_set (Remove req) = (∅ : gset string) →
     result (ModifyAdmins env ctx req a) = Err remove_all_admins_error ∧
     final (ModifyAdmins env ctx req a) = a ∧
     EvTxnBegin ∉ events (ModifyAdmins env ctx req a)) ∧
  ((adminCache a ∪ list_to_set (Add req)) ∖ list_to_set (Remove req) ≠ (∅ : gset string) →
     result (ModifyAdmins env ctx req a) = Ok EmptyResponse ∧
     final (ModifyAdmins env ctx req a) =
       mkServer (adminCache a)
         (mkEtcd (tokens_rows (etcdClient a)) (acls_rows (etcdClient a))
            (delete_admins (put_admins (admins_rows (etcdClient a)) (Add req))
               (Remove req))) ∧
     (∀ user, user ∈ Remove req →
        admins_rows (etcdClient (final (ModifyAdmins env ctx req a))) !! user = None) ∧
     (∀ user, user ∈ Add req → user ∉ Remove req →
        admins_rows (etcdClient (final (ModifyAdmins env ctx req a))) !! user
        = Some (epsilon, None)) ∧
     commits (events (ModifyAdmins env ctx req a)) = 1).
Proof.
  intros Hact Hu Hadm.
  pose proof (getAuthenticatedUser_run env ctx a) as Hau. rewrite Hu in Hau.
  rewrite isActivated_run, result_mk in Hact. injection Hact as Hact.
  rewrite isAdmin_run, result_mk in Hadm. injection Hadm as Hadm.
  split; intros Hm.
  - assert (Hrun : ModifyAdmins env ctx req a =
                   (Err remove_all_admins_error, a,
                    [EvLogReq; EvLogResp ErrorLevel])).
    { unfold ModifyAdmins. rewrite LogReq_run, defer_LogResp_run.
      step isActivated_run. rewrite Hact. ctl.
      step Hau. step isAdmin_run. rewrite Hadm. ctl.
      rewrite (bind_Err (validateModifyAdminsRequest req) _ a remove_all_admins_error a [])
        by (by rewrite validateModifyAdminsRequest_run, bool_decide_eq_true_2).
      ctl. reflexivity. }
    rewrite Hrun, result_mk, final_mk, events_mk.
    split; [done|]. split; [done|]. set_solver.
  - assert (Hrun : ModifyAdmins env ctx req a =
                   (Ok EmptyResponse,
                    mkServer (adminCache a)
                      (mkEtcd (tokens_rows (etcdClient a)) (acls_rows (etcdClient a))
                         (delete_admins (put_admins (admins_rows (etcdClient a)) (Add req))
                            (Remove req))),
                    [EvLogReq; EvTxnBegin; EvTxnCommit; EvLogResp InfoLevel])).
    { unfold ModifyAdmins. rewrite LogReq_run, defer_LogResp_run.
      step isActivated_run. rewrite Hact. ctl.
      step Hau. step isAdmin_run. rewrite Hadm. ctl.
      rewrite (bind_Ok (validateModifyAdminsRequest req) _ a () a [])
        by (by rewrite validateModifyAdminsRequest_run, bool_decide_eq_false_2).
      ctl.
      erewrite (bind_Ok (NewSTM _) _ a ()).
      2: { rewrite NewSTM_run.
           erewrite bind_Ok by apply forEach_Put_admins_run.
           rewrite forEach_Delete_admins_run. ctl. reflexivity. }
      ctl. reflexivity. }
    rewrite Hrun, result_mk, final_mk, events_mk. cbn [etcdClient admins_rows].
    split; [done|]. split; [done|]. split; [|split; [|reflexivity]].
    + intros user Hin. rewrite delete_admins_lookup. by rewrite bool_decide_eq_true_2.
    + intros user Hin Hnot. rewrite delete_admins_lookup, put_admins_lookup.
      rewrite bool_decide_eq_false_2 by done. by rewrite bool_decide_eq_true_2.
Qed.

(** The three outcomes of [RevokeAuthToken] for an authenticated caller of an
    activated cluster. *)
Lemma RevokeAuthToken_run env a ctx req caller :
  result (isActivated a) = Ok true →
  result (getAuthenticatedUser env ctx a) = Ok caller →
  RevokeAuthToken env ctx req a =
  match tokens_rows (etcdClient a) !! hashToken env (Token req) with
  | None =>
      (Ok EmptyResponse, a, [EvLogReq; EvTxnBegin; EvTxnCommit; EvLogResp InfoLevel])
  | Some (user, _) =>
      if bool_decide (Type_ user = User_PIPELINE) then
        (Ok EmptyResponse, without_token (hashToken env (Token req)) a,
         [EvLogReq; EvTxnBegin; EvTxnCommit; EvLogResp InfoLevel])
      else
        (Err revoke_human_error, a,
         [EvLogReq; EvTxnBegin; EvTxnAbort; EvLogResp ErrorLevel])
  end.
Proof.
  intros Hact Hu.
  pose proof (getAuthenticatedUser_run env ctx a) as Hau. rewrite Hu in Hau.
  rewrite isActivated_run, result_mk in Hact. injection Hact as Hact.
  unfold RevokeAuthToken. rewrite LogReq_run, defer_LogResp_run.
  step isActivated_run. rewrite Hact. ctl. step Hau.
  set (key := hashToken env (Token req)).
  assert (Hstm :
    NewSTM (bind (try (Get tokens key))
              (λ r, match r with
                    | Err ErrNotFound => ret ()
                    | Err err => fail err
                    | Ok user =>
                        if negb (bool_decide (Type_ user = User_PIPELINE))
                        then fail revoke_human_error
                        else Delete (Delete_absent_fails env) tokens key
                    end)) a =
    match tokens_rows (etcdClient a) !! key with
    | None => (Ok (), a, [EvTxnBegin; EvTxnCommit])
    | Some (user, _) =>
        if bool_decide (Type_ user = User_PIPELINE)
        then (Ok (), without_token key a, [EvTxnBegin; EvTxnCommit])
        else (Err revoke_human_error, a, [EvTxnBegin; EvTxnAbort])
    end).
  { rewrite NewSTM_run.
    erewrite bind_Ok by apply (try_as (Get_run tokens key a)).
    cbn [col_rows tokens].
    destruct (tokens_rows (etcdClient a) !! key) as [[user ttl]|] eqn:Hrow; ctl;
      [|reflexivity].
    destruct (bool_decide (Type_ user = User_PIPELINE)); ctl; [|reflexivity].
    unfold Delete. cbn [col_rows col_set tokens]. rewrite Hrow. reflexivity. }
  fold revoke_human_error.
  destruct (tokens_rows (etcdClient a) !! key) as [[user ttl]|]; [|by step Hstm].
  destruct (bool_decide (Type_ user = User_PIPELINE)); by step Hstm.
Qed.

(** C5.  [RevokeAuthToken] in an activated cluster, for an authenticated
    caller: the row of a PIPELINE user is deleted and the call succeeds; for
    the row of a HUMAN user the call fails and the server is unchanged; with
    no row for the hash of the token the call succeeds and changes nothing.
    Hence revoking a PIPELINE token a second time, by a caller who is still
    authenticated, succeeds again. *)
Theorem RevokeAuthToken_spec env a ctx req caller :
  result (isActivated a) = Ok true →
  result (getAuthenticatedUser env ctx a) = Ok caller →
  let key := hashToken env (Token req) in
  let a' := final (RevokeAuthToken env ctx req a) in
  (∀ user ttl, tokens_rows (etcdClient a) !! key = Some (user, ttl) →
     Type_ user = User_PIPELINE →
       result (RevokeAuthToken env ctx req a) = Ok EmptyResponse ∧
       a' = without_token key a ∧
       tokens_rows (etcdClient a') !! key = None) ∧
  (∀ user ttl, tokens_rows (etcdClient a) !! key = Some (user, ttl) →
     Type_ user = User_HUMAN →
       result (RevokeAuthToken env ctx req a) = Err revoke_human_error ∧ a' = a) ∧
  (tokens_rows (etcdClient a) !! key = None →
     result (RevokeAuthToken env ctx req a) = Ok EmptyResponse ∧ a' = a) ∧
  (∀ user ttl caller', tokens_rows (etcdClient a) !! key = Some (user, ttl) →
     Type_ user = User_PIPELINE →
     result (getAuthenticatedUser env ctx a') = Ok caller' →
       result (RevokeAuthToken env ctx req a) = Ok EmptyResponse ∧
       result (RevokeAuthToken env ctx req a') = Ok EmptyResponse ∧
       final (RevokeAuthToken env ctx req a') = a').
Proof.
  intros Hact Hu key a'.
  pose proof (RevokeAuthToken_run env a ctx req caller Hact Hu) as Hrun.
  fold key in Hrun. subst a'. rewrite Hrun.
  split; [|split; [|split]].
  - intros user ttl Hrow Hpipe. rewrite Hrow, bool_decide_eq_true_2 by done.
    rewrite result_mk, final_mk. split; [done|]. split; [done|].
    cbn. apply lookup_delete_eq.
  - intros user ttl Hrow Hhuman. rewrite Hrow.
    rewrite bool_decide_eq_false_2 by (by rewrite Hhuman). done.
  - intros Hrow. rewrite Hrow. done.
  - intros user ttl caller' Hrow Hpipe. rewrite Hrow, bool_decide_eq_true_2 by done.
    rewrite result_mk, final_mk. intros Hu'.
    split; [done|].
    assert (Hact' : result (isActivated (without_token key a)) = Ok true) by done.
    rewrite (RevokeAuthToken_run env _ ctx req caller' Hact' Hu').
    fold key. cbn [without_token etcdClient tokens_rows].
    rewrite lookup_delete_eq. done.
Qed.

(** The run of [GetCapability] once the user of the capability is known. *)
Lemma GetCapability_run env a ctx :
  GetCapability env ctx a =
  if bool_decide (0 < size (adminCache a)) then
    match result (getAuthenticatedUser env ctx a) with
    | Ok user =>
        (Ok (mkGetCapabilityResponse (uuid_NewWithoutDashes env)),
         with_token (hashToken env (uuid_NewWithoutDashes env))
           (mkUser (Username user) User_PIPELINE) None a,
         [EvLogReq; EvTxnBegin; EvTxnCommit; EvLogResp InfoLevel])
    | Err e => (Err e, a, [EvLogReq; EvLogResp (LogResp_level (@Err unit e))])
    end
  else
    (Ok (mkGetCapabilityResponse (uuid_NewWithoutDashes env)),
     with_token (hashToken env (uuid_NewWithoutDashes env))
       (mkUser magicUser User_PIPELINE) None a,
     [EvLogReq; EvTxnBegin; EvTxnCommit; EvLogResp InfoLevel]).
Proof.
  pose proof (getAuthenticatedUser_run env ctx a) as Hau.
  unfold GetCapability. rewrite LogReq_run, defer_LogResp_run.
  step isActivated_run.
  destruct (bool_decide (0 < size (adminCache a))); ctl.
  - destruct (result (getAuthenticatedUser env ctx a)) as [user|e].
    + step Hau. by erewrite bind_Ok by (apply try_as; reflexivity).
    + step Hau. reflexivity.
  - erewrite bind_Ok by reflexivity. ctl.
    by erewrite bind_Ok by (apply try_as; reflexivity).
Qed.

(** C4.  [GetCapability] on a cluster that is not activated succeeds
    whatever the request context, and stores, without TTL, a PIPELINE user
    named [magicUser] under the hash of the capability; that capability
    authorizes every request in any later activated cluster that still holds
    the row.  Whenever [GetCapability] succeeds, activated or not, the row
    stored under the hash of the capability has no TTL and a PIPELINE user. *)
Theorem GetCapability_spec env a ctx :
  let cap := uuid_NewWithoutDashes env in
  let a' := final (GetCapability env ctx a) in
  (result (isActivated a) = Ok false →
     result (GetCapability env ctx a) = Ok (mkGetCapabilityResponse cap) ∧
     tokens_rows (etcdClient a') !! hashToken env cap
       = Some (mkUser magicUser User_PIPELINE, None) ∧
     (∀ later req,
        result (isActivated later) = Ok true →
        tokens_rows (etcdClient later) !! hashToken env cap
          = Some (mkUser magicUser User_PIPELINE, None) →
        result (Authorize env (mkContext (Some [cap])) req later)
          = Ok (mkAuthorizeResponse true))) ∧
  (∀ resp, result (GetCapability env ctx a) = Ok resp →
     ∃ user, tokens_rows (etcdClient a') !! hashToken env (Capability resp)
               = Some (user, None) ∧
             Type_ user = User_PIPELINE).
Proof.
  intros cap a'. subst a'. rewrite isActivated_run, result_mk, GetCapability_run.
  split.
  - intros [= Hact]. rewrite Hact, result_mk, final_mk.
    split; [done|]. split; [cbn; apply lookup_insert_eq|].
    intros later req Hlater Hrow.
    rewrite isActivated_run, result_mk in Hlater. injection Hlater as Hlater.
    assert (Hau : getAuthenticatedUser env (mkContext (Some [cap])) later =
                  (Ok (mkUser magicUser User_PIPELINE), later, [])).
    { unfold getAuthenticatedUser. cbn [md_tokens].
      erewrite bind_Ok by apply (try_as (Get_run tokens (hashToken env cap) later)).
      cbn [col_rows tokens]. by rewrite Hrow. }
    unfold Authorize. rewrite logged_result.
    step isActivated_run. rewrite Hlater. ctl.
    step Hau. step isAdmin_run. cbn [Username].
    rewrite (bool_decide_eq_true_2 (magicUser = magicUser)) by done. by ctl.
  - intros resp.
    destruct (bool_decide (0 < size (adminCache a))).
    + destruct (result (getAuthenticatedUser env ctx a)) as [user|e];
        rewrite result_mk, final_mk; [|done].
      intros [= <-]. eexists. split; [cbn; apply lookup_insert_eq|done].
    + rewrite result_mk, final_mk.
      intros [= <-]. eexists. split; [cbn; apply lookup_insert_eq|done].
Qed.

(** C10.  The entitlement gate of [Authenticate], in an activated cluster
    and for a request that resolves to [username]: when the oracle answers a
    state other than ACTIVE and [username] is not an admin, the call fails
    and the server, hence the token store, is unchanged; when [username] is an
    admin the call succeeds whatever state the oracle answers, and stores a
    HUMAN token row with the default TTL. *)
Theorem Authenticate_entitlement_gate env a ctx req username st :
  result (isActivated a) = Ok true →
  GithubUsername req ≠ magicUser →
  resolves env req username →
  result (getEnterpriseTokenState env a) = Ok st →
  let pachToken := uuid_NewWithoutDashes env in
  (st ≠ State_ACTIVE → result (isAdmin username a) = Ok false →
     result (Authenticate env ctx req a) = Err enterprise_inactive_login_error ∧
     final (Authenticate env ctx req a) = a) ∧
  (result (isAdmin username a) = Ok true →
     result (Authenticate env ctx req a) = Ok (mkAuthenticateResponse pachToken) ∧
     final (Authenticate env ctx req a) =
       with_token (hashToken env pachToken) (mkUser username User_HUMAN)
         (Some defaultTokenTTLSecs) a).
Proof.
  intros Hact Hmagic Hres Hst pachToken.
  destruct (getEnterpriseTokenState_run env a) as [ev Hev]. rewrite Hst in Hev.
  rewrite isActivated_run, result_mk in Hact. injection Hact as Hact.
  rewrite isAdmin_run, result_mk.
  assert (Huser : ∃ evs,
    (if bool_decide (Getenv env DisableAuthenticationEnvVar = "true")
     then ret (GithubUsername req)
     else bind (AccessTokenToUsername env (GithubToken req))
            (λ username,
               if bool_decide (GithubUsername req ≠ "") &&
                  bool_decide (GithubUsername req ≠ username)
               then fail (Errorf ("attempted to authenticate as %!s(MISSING), but Github " +:+
                                  "token did not originate from that account"))
               else ret username)) a = (Ok username, a, evs)).
  { destruct Hres as [[Htest ->]|(Hprod & Hgh & Hname)].
    - rewrite bool_decide_eq_true_2 by done. by eexists.
    - rewrite bool_decide_eq_false_2 by done. eexists.
      unfold AccessTokenToUsername. rewrite Hgh.
      erewrite bind_Ok by (erewrite bind_Ok by reflexivity; reflexivity). ctl.
      destruct Hname as [Hempty|Heq].
      + rewrite (bool_decide_eq_false_2 (GithubUsername req ≠ "")) by (by intros []).
        ctl. reflexivity.
      + rewrite (bool_decide_eq_false_2 (GithubUsername req ≠ username)) by (by intros []).
        rewrite andb_false_r. ctl. reflexivity. }
  destruct Huser as [evs Huser].
  split.
  - intros Hne [= Hadm].
    assert (Hrun : ∃ evs', Authenticate env ctx req a =
                           (Err enterprise_inactive_login_error, a, evs')).
    { eexists. unfold Authenticate. rewrite defer_LogResp_run.
      step isActivated_run. rewrite Hact. ctl.
      rewrite (bool_decide_eq_false_2 (GithubUsername req = magicUser)) by done. ctl.
      step Huser. step (try_as Hev).
      rewrite (bool_decide_eq_false_2 (st = State_ACTIVE)) by done. ctl.
      erewrite bind_Ok by (erewrite bind_Ok by apply isAdmin_run; reflexivity).
      rewrite Hadm. ctl. reflexivity. }
    destruct Hrun as [evs' ->]. done.
  - intros [= Hadm].
    assert (Hgate : ∃ evg,
      (if negb (bool_decide (st = State_ACTIVE))
       then bind (isAdmin username) (λ admin, ret (negb admin))
       else ret false) a = (Ok false, a, evg)).
    { destruct (bool_decide (st = State_ACTIVE)); ctl; [by eexists|].
      eexists. erewrite bind_Ok by apply isAdmin_run. rewrite Hadm. ctl. reflexivity. }
    destruct Hgate as [evg Hgate].
    assert (Hrun : ∃ evs', Authenticate env ctx req a =
                           (Ok (mkAuthenticateResponse pachToken),
                            with_token (hashToken env pachToken) (mkUser username User_HUMAN)
                              (Some defaultTokenTTLSecs) a, evs')).
    { eexists. unfold Authenticate. rewrite defer_LogResp_run.
      step isActivated_run. rewrite Hact. ctl.
      rewrite (bool_decide_eq_false_2 (GithubUsername req = magicUser)) by done. ctl.
      step Huser. step (try_as Hev).
      step Hgate.
      erewrite bind_Ok by (apply try_as; reflexivity). ctl. reflexivity. }
    destruct Hrun as [evs' ->]. done.
Qed.

(** *** What happens inside transactions *)

(** Symbolic evaluation of a run, splitting on what the run inspects. *)
Ltac sym :=
  cbv beta iota zeta delta
    [bind try ret fail emit gets modify_etcd Get Put PutTTL Delete DeleteAll NewSTM
     isActivated isAdmin getPachClient getEnterpriseTokenState getAuthenticatedUser
     AccessTokenToUsername LogReq defer_LogResp validateSetScopeRequest
     SetScope_authorized col_rows col_set tokens acls admins events result final
     txn_pure fst snd negb andb orb].

Ltac split_inner :=
  match goal with
  | |- context [match ?x with _ => _ end] =>
      lazymatch x with
      | context [match _ with _ => _ end] => fail
      | _ => destruct x eqn:?
      end
  end.

Ltac sym_cases := sym; repeat (split_inner; sym); try reflexivity.

Lemma Deactivate_txn_pure env a ctx : txn_pure (Deactivate env ctx a).
Proof. unfold Deactivate. sym_cases. Qed.

Lemma Activate_txn_pure env a ctx req : txn_pure (Activate env ctx req a).
Proof.
  unfold Activate.
  assert (Hstm : ∃ g, ∀ a, NewSTM (forEach (Admins req) (λ user, Put admins user epsilon)) a
                           = (Ok (), g a, [EvTxnBegin; EvTxnCommit])).
  { eexists (λ a, _). intros a0. rewrite NewSTM_run, forEach_Put_admins_run. reflexivity. }
  destruct Hstm as [g Hstm].
  set (stm := NewSTM _) in *. clearbody stm.
  sym. repeat (first [rewrite Hstm | split_inner]; sym); reflexivity.
Qed.

Lemma ModifyAdmins_txn_pure env a ctx req : txn_pure (ModifyAdmins env ctx req a).
Proof.
  unfold ModifyAdmins.
  assert (Hstm : ∀ a, ∃ a',
    NewSTM (bind (forEach (Add req) (λ user, Put admins user epsilon))
              (λ _, forEach (Remove req)
                      (λ user, bind (try (Delete (Delete_absent_fails env) admins user))
                                 (λ _, ret ())))) a
    = (Ok (), a', [EvTxnBegin; EvTxnCommit])).
  { intros a0. rewrite NewSTM_run.
    erewrite bind_Ok by apply forEach_Put_admins_run.
    rewrite forEach_Delete_admins_run. by eexists. }
  set (stm := NewSTM _) in *.
  rewrite LogReq_run, defer_LogResp_run. unfold txn_pure. rewrite events_mk.
  set (body := bind isActivated _).
  assert (Hbody : events (body a) = [] ∨ events (body a) = [EvTxnBegin; EvTxnCommit]).
  { subst body. step isActivated_run.
    destruct (bool_decide (0 < size (adminCache a))); ctl; [|by left].
    pose proof (getAuthenticatedUser_run env ctx a) as Hau.
    destruct (result (getAuthenticatedUser env ctx a)); step Hau; [|by left].
    step isAdmin_run.
    destruct (bool_decide _ || bool_decide _); ctl; [|by left].
    pose proof (validateModifyAdminsRequest_run req a) as Hval.
    destruct (bool_decide _) in Hval; step Hval; [by left|].
    destruct (Hstm a) as [a' Ha']. step Ha'. by right. }
  destruct Hbody as [-> | ->]; reflexivity.
Qed.

Lemma Authenticate_txn_pure env a ctx req : txn_pure (Authenticate env ctx req a).
Proof. unfold Authenticate. sym_cases. Qed.

Lemma SetACL_txn_pure env a ctx req : txn_pure (SetACL env ctx req a).
Proof. unfold SetACL. sym_cases. Qed.

Lemma GetCapability_txn_pure env a ctx : txn_pure (GetCapability env ctx a).
Proof. unfold GetCapability. sym_cases. Qed.

Lemma RevokeAuthToken_txn_pure env a ctx req : txn_pure (RevokeAuthToken env ctx req a).
Proof. unfold RevokeAuthToken. sym_cases. Qed.

Lemma SetScope_in_txn env a ctx req :
  ∀ e, e ∈ in_txn (events (SetScope env ctx req a)) →
       e = EvGetState ∨ e = EvInspectRepo (ss_Repo req).
Proof.
  unfold SetScope. sym. repeat (split_inner; sym).
  all: cbn; intros ev0 Hev0; set_solver.
Qed.

(** C6.  What [SetScope] does where the claim expects the row to be deleted:
    alice, an admin, sets bob's scope on [r] to NONE, bob being the only
    entry; the call succeeds and the row of [r] stays, with empty entries.
    The row left behind is observable: bob is now authorized for scope NONE on
    [r], which he is not once the row is gone. *)
Theorem SetScope_last_entry_keeps_row :
  let env := env_with State_ACTIVE in
  let run := SetScope env alice_ctx (mkSetScopeRequest "bob" "r" Scope_NONE) cluster in
  result run = Ok EmptyResponse ∧
  acls_rows (etcdClient (final run)) !! "r" = Some (mkACL ∅, None) ∧
  result (Authorize env bob_ctx (mkAuthorizeRequest "r" Scope_NONE) (final run))
  = Ok (mkAuthorizeResponse true) ∧
  result (Authorize env bob_ctx (mkAuthorizeRequest "r" Scope_NONE)
            (final (SetACL env alice_ctx (mkSetACLRequest "r" None) cluster)))
  = Ok (mkAuthorizeResponse false).
Proof. vm_compute. repeat split; reflexivity. Qed.

(** The sibling path: [SetACL] with a nil or empty new ACL leaves no row for
    the repo, whether or not there was one. *)
Lemma SetACL_empty_deletes_row env a ctx req caller st :
  result (isActivated a) = Ok true →
  sa_Repo req ≠ "" →
  result (getAuthenticatedUser env ctx a) = Ok caller →
  result (getEnterpriseTokenState env a) = Ok st →
  result (isAdmin (Username caller) a) = Ok true →
  (NewACL req = None ∨ ∃ acl, NewACL req = Some acl ∧ Entries acl = ∅) →
  acls_rows (etcdClient (final (SetACL env ctx req a))) !! sa_Repo req = None.
Proof.
  intros Hact Hrepo Hu Hst Hadm Hnew.
  destruct (getEnterpriseTokenState_run env a) as [ev Hev]. rewrite Hst in Hev.
  pose proof (getAuthenticatedUser_run env ctx a) as Hau. rewrite Hu in Hau.
  rewrite isActivated_run, result_mk in Hact. injection Hact as Hact.
  rewrite isAdmin_run, result_mk in Hadm. injection Hadm as Hadm.
  unfold SetACL. rewrite logged_final.
  step isActivated_run. rewrite Hact. ctl.
  rewrite bool_decide_eq_false_2 by done. ctl.
  step Hau. step (try_as Hev).
  assert (Hgate : ∃ evg,
    (if negb (bool_decide (st = State_ACTIVE))
     then bind (isAdmin (Username caller)) (λ admin, ret (negb admin))
     else ret false) a = (Ok false, a, evg)).
  { destruct (bool_decide (st = State_ACTIVE)); ctl; [by eexists|].
    eexists. erewrite bind_Ok by apply isAdmin_run. rewrite Hadm. ctl. reflexivity. }
  destruct Hgate as [evg Hgate]. step Hgate.
  set (del := Delete (Delete_absent_fails env) acls (sa_Repo req)).
  assert (Hdel : acls_rows (etcdClient (final (del a))) !! sa_Repo req = None
                 ∧ (is_Ok (result (del a)) = false → final (del a) = a ∧
                    acls_rows (etcdClient a) !! sa_Repo req = None)).
  { subst del. unfold Delete. cbn [col_rows col_set acls].
    destruct (acls_rows (etcdClient a) !! sa_Repo req) eqn:Hrow.
    - rewrite final_mk, result_mk. cbn. split; [apply lookup_delete_eq | done].
    - rewrite final_mk. done. }
  assert (Hstm : ∀ fn : M unit,
            fn a = del a →
            acls_rows (etcdClient (final (NewSTM fn a))) !! sa_Repo req = None).
  { intros fn Hfn. rewrite NewSTM_run, Hfn.
    destruct Hdel as [Hgone Hfail].
    destruct (result (del a)) eqn:Hres; rewrite final_mk; [done|].
    by apply Hfail. }
  erewrite bind_Ok by apply try_run.
  assert (Hfinal : ∀ r : Res unit, ∀ a1 : apiServer,
            final (match r with
                   | Err err => fail (Wrapf "could not put new ACL: " err)
                   | Ok _ => ret EmptyResponse
                   end a1) = a1).
  { by intros [|] a1. }
  rewrite final_mk, Hfinal. apply Hstm.
  erewrite bind_Ok by apply (try_as (Get_run acls (sa_Repo req) a)).
  erewrite bind_Ok by apply isAdmin_run. rewrite Hadm. ctl.
  destruct Hnew as [-> | (acl & -> & ->)]; [by rewrite run_eta|].
  rewrite bool_decide_eq_true_2 by apply map_size_empty. by rewrite run_eta.
Qed.

(** A non-admin caller: bob asks for a scope on [r], and the callback of the
    [SetScope] transaction queries the entitlement oracle. *)
Lemma SetScope_calls_oracle_in_txn :
  in_txn (events (SetScope (env_with State_ACTIVE) bob_ctx
                    (mkSetScopeRequest "bob" "r" Scope_OWNER) cluster))
  = [EvGetState].
Proof. vm_compute. reflexivity. Qed.

(** Bob creates the ACL of a repo that does not exist yet: the callback also
    inspects the repo. *)
Lemma SetScope_inspects_repo_in_txn :
  in_txn (events (SetScope (env_with State_ACTIVE) bob_ctx
                    (mkSetScopeRequest "bob" "new" Scope_OWNER) cluster))
  = [EvGetState; EvInspectRepo "new"].
Proof. vm_compute. reflexivity. Qed.

(** C9 as stated fails: the callback of this [SetScope] transaction is not
    free of RPCs. *)
Lemma SetScope_txn_not_pure :
  ¬ txn_pure (SetScope (env_with State_ACTIVE) bob_ctx
                (mkSetScopeRequest "bob" "r" Scope_OWNER) cluster).
Proof. unfold txn_pure. rewrite SetScope_calls_oracle_in_txn. discriminate. Qed.

(** C9, amended.  The transaction callbacks of [Activate], [Deactivate],
    [ModifyAdmins], [Authenticate], [SetACL], [GetCapability] and
    [RevokeAuthToken] make no RPC and write no log.  The callback of
    [SetScope] writes no log either, and the only calls it makes are the two
    read-only queries: the entitlement oracle and the inspection of the
    repo named in the request. *)
Theorem callbacks_txn_effects env a ctx :
  (∀ req, txn_pure (Activate env ctx req a)) ∧
  txn_pure (Deactivate env ctx a) ∧
  (∀ req, txn_pure (ModifyAdmins env ctx req a)) ∧
  (∀ req, txn_pure (Authenticate env ctx req a)) ∧
  (∀ req, txn_pure (SetACL env ctx req a)) ∧
  txn_pure (GetCapability env ctx a) ∧
  (∀ req, txn_pure (RevokeAuthToken env ctx req a)) ∧
  (∀ req e, e ∈ in_txn (events (SetScope env ctx req a)) →
            e = EvGetState ∨ e = EvInspectRepo (ss_Repo req)).
Proof.
  repeat split.
  - apply Activate_txn_pure.
  - apply Deactivate_txn_pure.
  - apply ModifyAdmins_txn_pure.
  - apply Authenticate_txn_pure.
  - apply SetACL_txn_pure.
  - apply GetCapability_txn_pure.
  - apply RevokeAuthToken_txn_pure.
  - intros req. apply SetScope_in_txn.
Qed.

(** *** The theorems at work on the small cluster *)

(** Bob, READER of [r], is authorized for READER while the entitlement is
    active. *)
Lemma Authorize_iff_witness :
  result (isActivated cluster) = Ok true ∧
  result (getAuthenticatedUser (env_with State_ACTIVE) bob_ctx cluster) = Ok bob ∧
  result (getEnterpriseTokenState (env_with State_ACTIVE) cluster) = Ok State_ACTIVE ∧
  result (Authorize (env_with State_ACTIVE) bob_ctx
            (mkAuthorizeRequest "r" Scope_READER) cluster)
  = Ok (mkAuthorizeResponse true).
Proof.
  assert (H1 : result (isActivated cluster) = Ok true) by (vm_compute; reflexivity).
  assert (H2 : result (getAuthenticatedUser (env_with State_ACTIVE) bob_ctx cluster) = Ok bob)
    by (vm_compute; reflexivity).
  assert (H3 : result (getEnterpriseTokenState (env_with State_ACTIVE) cluster)
               = Ok State_ACTIVE) by (vm_compute; reflexivity).
  split; [exact H1|]. split; [exact H2|]. split; [exact H3|].
  apply (Authorize_iff (env_with State_ACTIVE) cluster bob_ctx
           (mkAuthorizeRequest "r" Scope_READER) bob State_ACTIVE H1 H2 H3).
  right. split; [left; reflexivity|].
  exists (mkACL {["bob" := Scope_READER]}), None.
  split; [vm_compute; reflexivity | vm_compute; discriminate].
Defined.

(** Seeding alice and carol on the fresh cluster. *)
Lemma Activate_spec_witness :
  result (getEnterpriseTokenState (env_with State_ACTIVE) fresh) = Ok State_ACTIVE ∧
  result (isActivated fresh) = Ok false ∧
  result (Activate (env_with State_ACTIVE) (mkContext None)
            (mkActivateRequest ["alice"; "carol"]) fresh) = Ok EmptyResponse ∧
  commits (events (Activate (env_with State_ACTIVE) (mkContext None)
                     (mkActivateRequest ["alice"; "carol"]) fresh)) = 1.
Proof.
  assert (H1 : result (getEnterpriseTokenState (env_with State_ACTIVE) fresh)
               = Ok State_ACTIVE) by (vm_compute; reflexivity).
  assert (H2 : result (isActivated fresh) = Ok false) by (vm_compute; reflexivity).
  split; [exact H1|]. split; [exact H2|].
  destruct (Activate_spec (env_with State_ACTIVE) fresh (mkContext None)
              (mkActivateRequest ["alice"; "carol"])) as (_ & _ & Hok).
  destruct (Hok H1 H2) as (Hres & _ & _ & Hcommits).
  split; [exact Hres | exact Hcommits].
Defined.

(** Alice may not remove herself, the only admin. *)
Lemma ModifyAdmins_spec_witness :
  result (isActivated cluster) = Ok true ∧
  result (getAuthenticatedUser (env_with State_ACTIVE) alice_ctx cluster) = Ok alice ∧
  result (isAdmin (Username alice) cluster) = Ok true ∧
  result (ModifyAdmins (env_with State_ACTIVE) alice_ctx
            (mkModifyAdminsRequest [] ["alice"]) cluster)
  = Err remove_all_admins_error.
Proof.
  assert (H1 : result (isActivated cluster) = Ok true) by (vm_compute; reflexivity).
  assert (H2 : result (getAuthenticatedUser (env_with State_ACTIVE) alice_ctx cluster)
               = Ok alice) by (vm_compute; reflexivity).
  assert (H3 : result (isAdmin (Username alice) cluster) = Ok true)
    by (vm_compute; reflexivity).
  split; [exact H1|]. split; [exact H2|]. split; [exact H3|].
  destruct (ModifyAdmins_spec (env_with State_ACTIVE) cluster alice_ctx
              (mkModifyAdminsRequest [] ["alice"]) alice H1 H2 H3) as [Hrej _].
  apply Hrej. vm_compute. reflexivity.
Defined.

(** A capability minted before activation belongs to the magic user, and it
    still authorizes once alice has activated the cluster and the admin watch
    has delivered her row. *)
Lemma GetCapability_spec_witness :
  let env := env_with State_ACTIVE in
  let minted := final (GetCapability env (mkContext None) fresh) in
  let later :=
    watchAdmins_event (EventPut "alice")
      (final (Activate env (mkContext None) (mkActivateRequest ["alice"]) minted)) in
  result (isActivated fresh) = Ok false ∧
  result (isActivated later) = Ok true ∧
  result (GetCapability env (mkContext None) fresh) = Ok (mkGetCapabilityResponse "c0ffee") ∧
  result (Authorize env (mkContext (Some ["c0ffee"]))
            (mkAuthorizeRequest "r" Scope_OWNER) later)
  = Ok (mkAuthorizeResponse true).
Proof.
  intros env minted later.
  assert (H1 : result (isActivated fresh) = Ok false) by (vm_compute; reflexivity).
  assert (H2 : result (isActivated later) = Ok true) by (vm_compute; reflexivity).
  assert (H3 : tokens_rows (etcdClient later) !! hashToken env (uuid_NewWithoutDashes env)
               = Some (mkUser magicUser User_PIPELINE, None)) by (vm_compute; reflexivity).
  split; [exact H1|]. split; [exact H2|].
  destruct (GetCapability_spec env fresh (mkContext None)) as [Hfresh _].
  destruct (Hfresh H1) as (Hres & _ & Hlater).
  split; [exact Hres|].
  exact (Hlater later (mkAuthorizeRequest "r" Scope_OWNER) H2 H3).
Defined.

(** Alice revokes the pipeline's capability, twice. *)
Lemma RevokeAuthToken_spec_witness :
  let env := env_with State_ACTIVE in
  let req := mkRevokeAuthTokenRequest "cap" in
  let cluster' := final (RevokeAuthToken env alice_ctx req cluster) in
  result (isActivated cluster) = Ok true ∧
  result (getAuthenticatedUser env alice_ctx cluster) = Ok alice ∧
  tokens_rows (etcdClient cluster) !! hashToken env "cap" = Some (worker, None) ∧
  result (getAuthenticatedUser env alice_ctx cluster') = Ok alice ∧
  result (RevokeAuthToken env alice_ctx req cluster) = Ok EmptyResponse ∧
  result (RevokeAuthToken env alice_ctx req cluster') = Ok EmptyResponse.
Proof.
  intros env req cluster'.
  assert (H1 : result (isActivated cluster) = Ok true) by (vm_compute; reflexivity).
  assert (H2 : result (getAuthenticatedUser env alice_ctx cluster) = Ok alice)
    by (vm_compute; reflexivity).
  assert (H3 : tokens_rows (etcdClient cluster) !! hashToken env (Token req)
               = Some (worker, None)) by (vm_compute; reflexivity).
  assert (H4 : result (getAuthenticatedUser env alice_ctx cluster') = Ok alice)
    by (vm_compute; reflexivity).
  split; [exact H1|]. split; [exact H2|]. split; [exact H3|]. split; [exact H4|].
  destruct (RevokeAuthToken_spec env cluster alice_ctx req alice H1 H2)
    as (_ & _ & _ & Htwice).
  destruct (Htwice worker None alice H3 eq_refl H4) as (Hfirst & Hsecond & _).
  split; [exact Hfirst | exact Hsecond].
Defined.

(** With an expired entitlement bob cannot log in. *)
Lemma Authenticate_entitlement_gate_witness :
  let env := env_with State_EXPIRED in
  let req := mkAuthenticateRequest "bob" "bob" in
  result (isActivated cluster) = Ok true ∧
  GithubUsername req ≠ magicUser ∧
  resolves env req "bob" ∧
  result (getEnterpriseTokenState env cluster) = Ok State_EXPIRED ∧
  result (Authenticate env (mkContext None) req cluster)
  = Err enterprise_inactive_login_error.
Proof.
  intros env req.
  assert (H1 : result (isActivated cluster) = Ok true) by (vm_compute; reflexivity).
  assert (H2 : GithubUsername req ≠ magicUser) by (vm_compute; discriminate).
  assert (H3 : resolves env req "bob").
  { right. split; [vm_compute; discriminate|]. split; [reflexivity | right; reflexivity]. }
  assert (H4 : result (getEnterpriseTokenState env cluster) = Ok State_EXPIRED)
    by (vm_compute; reflexivity).
  split; [exact H1|]. split; [exact H2|]. split; [exact H3|]. split; [exact H4|].
  destruct (Authenticate_entitlement_gate env cluster (mkContext None) req "bob"
              State_EXPIRED H1 H2 H3 H4) as [Hfail _].
  apply Hfail; [discriminate | vm_compute; reflexivity].
Defined.

(** The oracle query made inside bob's [SetScope] transaction is one of the
    two calls the callback may make. *)
Lemma callbacks_txn_effects_witness :
  let run := SetScope (env_with State_ACTIVE) bob_ctx
               (mkSetScopeRequest "bob" "r" Scope_OWNER) cluster in
  EvGetState ∈ in_txn (events run) ∧
  (EvGetState = EvGetState ∨ EvGetState = EvInspectRepo "r").
Proof.
  intros run.
  assert (H1 : EvGetState ∈ in_txn (events run)).
  { subst run. rewrite SetScope_calls_oracle_in_txn. apply list_elem_of_here. }
  split; [exact H1|].
  destruct (callbacks_txn_effects (env_with State_ACTIVE) cluster bob_ctx)
    as (_ & _ & _ & _ & _ & _ & _ & Hscope).
  exact (Hscope (mkSetScopeRequest "bob" "r" Scope_OWNER) EvGetState H1).
Defined.

End AuthProps.

(** ** Properties of the pipeline master *)

Module MasterProps.
Import Master.

Section WithPipelines.

Context {Input PipelineInput : Type}.
Context (translatePipelineInputs : list PipelineInput → option Input).

(** With [err] nil the loop never reaches the orchestrator. *)
Lemma watch_loop_nil_err events k :
  (watch_loop translatePipelineInputs None events k).2 = k.
Proof.
  induction events as [|event events IH]; [reflexivity|].
  cbn [watch_loop].
  destruct (Err_ event); [reflexivity|].
  destruct (Type_ event); [|exact IH|exact IH].
  destruct (Unmarshal event) as [[name info]|e]; [exact IH|reflexivity].
Qed.

Lemma master_attempt_leaves_controllers watch k :
  (master_attempt translatePipelineInputs watch k).2 = k.
Proof.
  destruct watch as [events [e|]]; [reflexivity|].
  apply watch_loop_nil_err.
Qed.

End WithPipelines.

(** C2.  What the code does where the claim expects an upsert and a delete:
    a Put event for pipeline [p] leaves the orchestrator without a controller
    for [p], and a Delete event leaves the controller of [p] in place. *)
Theorem master_put_does_not_upsert :
  let info := mkPipelineInfo (Input := unit) (PipelineInput := unit) "p" (Some ()) [] in
  let put := mkEvent "p" EventPut None (Ok ("p", info)) in
  let delete := mkEvent "p" EventDelete None (Ok ("p", info)) in
  controllers (master_attempt (λ _, None) ([put], None) (mkKube ∅)).2 !! "p" = None ∧
  controllers (master_attempt (λ _, None) ([delete], None) (mkKube {["p" := info]})).2 !! "p"
  = Some info.
Proof. split; reflexivity. Qed.

End MasterProps.

(** ** Properties of the connection pool *)

Module PoolProps.
Import Pool PoolSample.

Section WithConn.

Context {ClientConn : Type}.
Context (DialContext : string → ClientConn + error).

Lemma select_count range conn h l :
  count ((select DialContext range conn h).2 l) = count (h l).
Proof.
  revert conn. induction range as [|[addr mapConn] range IH]; intros conn; [reflexivity|].
  cbn [select]. destruct (cc (h mapConn)) eqn:Hcc.
  - apply IH.
  - destruct (DialContext addr); [|reflexivity].
    cbn [snd]. unfold store. case_bool_decide; [by subst|done].
Qed.

(** The selected entry has a channel, provided the entry selected so far has one. *)
Lemma select_has_channel range conn h l :
  (∀ l0, conn = Some l0 → cc (h l0) ≠ None) →
  (select DialContext range conn h).1 = Ok (Some l) →
  cc ((select DialContext range conn h).2 l) ≠ None.
Proof.
  revert conn. induction range as [|[addr mapConn] range IH]; intros conn Hconn.
  - cbn [select fst snd]. intros [= ->]. by apply Hconn.
  - cbn [select]. destruct (cc (h mapConn)) eqn:Hcc.
    + apply IH. intros l0.
      destruct conn as [l1|].
      * destruct (count (h mapConn) <? count (h l1))%Z.
        -- intros [= <-]. by rewrite Hcc.
        -- apply Hconn.
      * intros [= <-]. by rewrite Hcc.
    + destruct (DialContext addr) as [c|err]; [|discriminate].
      cbn [fst snd]. intros [= <-]. unfold store.
      by rewrite bool_decide_eq_true_2.
Qed.

(** Nothing is selected only when there was nothing to range over. *)
Lemma select_none range h :
  (select DialContext range None h).1 = Ok None → range = [].
Proof.
  destruct range as [|[addr mapConn] range]; [done|].
  cbn [select]. destruct (cc (h mapConn)) eqn:Hcc.
  - assert (Hsome : ∀ range conn l, conn = Some l →
                      (select DialContext range conn h).1 ≠ Ok None).
    { clear. induction range as [|[addr mapConn] range IH]; intros conn l ->.
      - discriminate.
      - cbn [select]. destruct (cc (h mapConn)).
        + destruct (count (h mapConn) <? count (h l))%Z; by eapply IH.
        + destruct (DialContext addr); discriminate. }
    intros H. by eapply Hsome in H.
  - destruct (DialContext addr); discriminate.
Qed.

Lemma AddInt64_exact (x delta : Z) :
  (- 2 ^ 63 ≤ x + delta < 2 ^ 63)%Z → AddInt64 x delta = (x + delta)%Z.
Proof.
  intros H. unfold AddInt64, wrap64.
  rewrite Z.mod_small by lia. lia.
Qed.

Lemma add_count_at l delta (h : nat → connCount (ClientConn := ClientConn)) :
  count (add_count l delta h l) = AddInt64 (count (h l)) delta ∧
  cc (add_count l delta h l) = cc (h l).
Proof. unfold add_count, store. by rewrite bool_decide_eq_true_2. Qed.

(** C7.  [Do] never hands a nil channel to [f]; on an empty address map it
    returns the error [no endpoints found] without invoking [f]; and when it
    invokes [f], the count of the chosen entry that [f] finds is the count
    before the call plus one, [Do] ends as [f] ends (nil, error or panic),
    and afterwards the count is the one [f] left minus one.  The additions
    are those of [int64]; away from its upper bound they are exact, and a
    call whose [f] leaves the count alone restores it. *)
Theorem Do_spec range f p :
  let r := Do DialContext range f p in
  (∀ c p1, invoked r = Some (c, p1) → c ≠ None) ∧
  (conns p = ∅ → range ≡ₚ map_to_list (conns p) →
     outcome r = Returned (Some (Errorf "no endpoints found")) ∧
     invoked r = None ∧ pool_after r = p) ∧
  (∀ c p1, invoked r = Some (c, p1) →
     ∃ conn, chosen r = Some conn ∧
       c = cc (heap p1 conn) ∧
       count (heap p1 conn) = AddInt64 (count (heap p conn)) 1 ∧
       outcome r = (f c p1).1 ∧
       count (heap (pool_after r) conn) = AddInt64 (count (heap (f c p1).2 conn)) (-1) ∧
       ((- 2 ^ 63 ≤ count (heap p conn) < 2 ^ 63 - 1)%Z →
          count (heap p1 conn) = (count (heap p conn) + 1)%Z ∧
          (count (heap (f c p1).2 conn) = count (heap p1 conn) →
             count (heap (pool_after r) conn) = count (heap p conn)))).
Proof.
  intros r. subst r. unfold Do.
  pose proof (select_count range None (heap p)) as Hcount.
  pose proof (select_has_channel range None (heap p)) as Hchan.
  pose proof (select_none range (heap p)) as Hnone.
  destruct (select DialContext range None (heap p)) as [[[conn|]|err] h] eqn:Hsel;
    cbn [fst snd] in *.
  - (* an entry was selected *)
    specialize (Hchan conn ltac:(discriminate) eq_refl).
    cbv zeta. cbn [heap].
    destruct (f (cc (add_count conn 1 h conn)) (mkPool (conns p) (add_count conn 1 h)))
      as [out p2] eqn:Hf.
    cbn [invoked outcome chosen pool_after heap].
    destruct (add_count_at conn 1 h) as [Hinc Hcc].
    split; [|split].
    + intros c p1 Heq. simplify_eq. by rewrite Hcc.
    + intros Hempty Hperm. rewrite Hempty, map_to_list_empty in Hperm.
      apply Permutation_nil_r in Hperm. subst range. discriminate.
    + intros c p1 Heq. simplify_eq. exists conn. cbn [heap].
      rewrite Hf. cbn [fst snd].
      destruct (add_count_at conn (-1) (heap p2)) as [Hdec _].
      rewrite Hinc, Hdec, Hcount.
      split; [done|]. split; [done|]. split; [done|]. split; [done|]. split; [done|].
      intros Hrange. rewrite (AddInt64_exact _ 1) by lia.
      split; [done|]. intros ->.
      rewrite AddInt64_exact by lia. lia.
  - (* nothing to select from *)
    cbn [invoked outcome chosen pool_after].
    split; [discriminate|]. split; [|discriminate].
    intros _ _. specialize (Hnone eq_refl). subst range.
    cbn in Hsel. injection Hsel as <-. by destruct p.
  - (* dialing failed *)
    cbn [invoked outcome chosen pool_after].
    split; [discriminate|]. split; [|discriminate].
    intros Hempty Hperm. rewrite Hempty, map_to_list_empty in Hperm.
    apply Permutation_nil_r in Hperm. subst range. discriminate.
Qed.

End WithConn.

Lemma Do_spec_witness :
  let r := Do dial [("10.0.0.1:80", 0); ("10.0.0.2:80", 1)] panicking pool2 in
  invoked r = Some (Some "conn:10.0.0.2:80", pool2_counted) ∧
  count (heap pool2_counted 1) = 1%Z ∧
  outcome r = Panicked "worker crashed" ∧
  count (heap (pool_after r) 1) = 0%Z.
Proof.
  intros r.
  assert (H1 : invoked r = Some (Some "conn:10.0.0.2:80", pool2_counted)) by reflexivity.
  split; [exact H1|].
  destruct (Do_spec dial [("10.0.0.1:80", 0); ("10.0.0.2:80", 1)] panicking pool2)
    as (_ & _ & Hcount).
  destruct (Hcount _ _ H1) as (conn & Hchosen & _ & _ & Hout & _ & Hexact).
  assert (Hconn : conn = 1) by (by injection Hchosen as <-).
  subst conn.
  destruct (Hexact ltac:(vm_compute; split; [discriminate|reflexivity])) as [Hup Hback].
  split; [exact Hup|]. split; [exact Hout|].
  exact (Hback eq_refl).
Defined.

End PoolProps.

(** ** Further properties of the auth service *)

Module AuthExtra.
Import Auth AuthSample AuthProps.

(** *** The activation gate *)

(** X1.  On a cluster that is not activated, every method other than
    [Activate] and [GetCapability] fails with [NotActivatedError] and leaves
    the server as it was, whatever the request and its context. *)
Theorem not_activated_gate env a ctx :
  result (isActivated a) = Ok false →
  (result (Deactivate env ctx a) = Err NotActivatedError ∧
   final (Deactivate env ctx a) = a) ∧
  (∀ range, result (GetAdmins env range ctx a) = Err NotActivatedError ∧
            final (GetAdmins env range ctx a) = a) ∧
  (∀ req, result (ModifyAdmins env ctx req a) = Err NotActivatedError ∧
          final (ModifyAdmins env ctx req a) = a) ∧
  (∀ req, result (Authenticate env ctx req a) = Err NotActivatedError ∧
          final (Authenticate env ctx req a) = a) ∧
  (∀ req, result (Authorize env ctx req a) = Err NotActivatedError ∧
          final (Authorize env ctx req a) = a) ∧
  (result (WhoAmI env ctx a) = Err NotActivatedError ∧ final (WhoAmI env ctx a) = a) ∧
  (∀ req, result (SetScope env ctx req a) = Err NotActivatedError ∧
          final (SetScope env ctx req a) = a) ∧
  (∀ req, result (GetScope env ctx req a) = Err NotActivatedError ∧
          final (GetScope env ctx req a) = a) ∧
  (∀ req, result (GetACL env ctx req a) = Err NotActivatedError ∧
          final (GetACL env ctx req a) = a) ∧
  (∀ req, result (SetACL env ctx req a) = Err NotActivatedError ∧
          final (SetACL env ctx req a) = a) ∧
  (∀ req, result (RevokeAuthToken env ctx req a) = Err NotActivatedError ∧
          final (RevokeAuthToken env ctx req a) = a).
Proof.
  rewrite isActivated_run, result_mk. intros [= Hact].
  repeat split; intros;
    unfold Deactivate, GetAdmins, ModifyAdmins, Authenticate, Authorize, WhoAmI,
      SetScope, GetScope, GetACL, SetACL, RevokeAuthToken;
    rewrite ?LogReq_run, ?defer_LogResp_run;
    (step isActivated_run); rewrite Hact; ctl; reflexivity.
Qed.

Lemma not_activated_gate_witness :
  result (isActivated fresh) = Ok false ∧
  result (WhoAmI (env_with State_ACTIVE) alice_ctx fresh) = Err NotActivatedError.
Proof.
  assert (H : result (isActivated fresh) = Ok false) by (vm_compute; reflexivity).
  split; [exact H|].
  destruct (not_activated_gate (env_with State_ACTIVE) fresh alice_ctx H)
    as (_ & _ & _ & _ & _ & [Hwho _] & _).
  exact Hwho.
Defined.

(** *** What the methods leave alone *)

Ltac not_in_events :=
  let H := fresh in
  intros H; cbn in H;
  repeat (apply elem_of_cons in H as [H|H]; [discriminate H|]);
  by apply elem_of_nil in H.

Lemma GetScope_loop_run user username repos scopes a :
  GetScope_loop user username repos scopes a =
  (result (GetScope_loop user username repos scopes a), a, []).
Proof.
  revert scopes. induction repos as [|repo repos IH]; intros scopes; [reflexivity|].
  cbn [GetScope_loop].
  erewrite bind_Ok by apply (try_as (Get_run acls repo a)).
  destruct (col_rows acls (etcdClient a) !! repo) as [[acl ttl]|]; ctl.
  all: destruct (bool_decide (username = "")); ctl;
    [by rewrite IH, !result_mk, final_mk, events_mk|].
  all: erewrite bind_Ok by apply isAdmin_run; ctl.
  all: destruct (negb _ && _); ctl;
    [reflexivity | by rewrite IH, !result_mk, final_mk, events_mk].
Qed.

(** X2.  [Authorize], [WhoAmI], [GetScope], [GetACL] and [GetAdmins] are
    read-only: whatever they return, the admin cache and the store are as
    before and no transaction has been opened. *)
Theorem read_methods_change_nothing env a ctx :
  (∀ req, final (Authorize env ctx req a) = a ∧
          EvTxnBegin ∉ events (Authorize env ctx req a)) ∧
  (final (WhoAmI env ctx a) = a ∧ EvTxnBegin ∉ events (WhoAmI env ctx a)) ∧
  (∀ req, final (GetScope env ctx req a) = a ∧
          EvTxnBegin ∉ events (GetScope env ctx req a)) ∧
  (∀ req, final (GetACL env ctx req a) = a ∧
          EvTxnBegin ∉ events (GetACL env ctx req a)) ∧
  (∀ range, final (GetAdmins env range ctx a) = a ∧
            EvTxnBegin ∉ events (GetAdmins env range ctx a)).
Proof.
  split; [|split; [|split; [|split]]].
  - intros req. unfold Authorize. sym. repeat (split_inner; sym).
    all: split; [reflexivity | not_in_events].
  - unfold WhoAmI. sym. repeat (split_inner; sym).
    all: split; [reflexivity | not_in_events].
  - intros req. unfold GetScope.
    assert (Hloop : ∃ g, ∀ user a0,
              GetScope_loop user (gs_Username req) (gs_Repos req) [] a0 = (g user a0, a0, [])).
    { eexists (λ user a0, _). intros. apply GetScope_loop_run. }
    destruct Hloop as [g Hloop].
    set (loop := GetScope_loop) in *. clearbody loop.
    sym. repeat (first [rewrite Hloop | split_inner]; sym).
    all: split; [reflexivity | not_in_events].
  - intros req. unfold GetACL. sym. repeat (split_inner; sym).
    all: split; [reflexivity | not_in_events].
  - intros range. unfold GetAdmins. sym. repeat (split_inner; sym).
    all: split; [reflexivity | not_in_events].
Qed.

Ltac failed_or_same :=
  split; [ first [ reflexivity | by intros ? ] | reflexivity ].

(** X3.  The mutating methods are all-or-nothing and never touch the admin
    cache: a call that returns an error leaves the server exactly as it was,
    and a call that succeeds leaves the admin cache as it was (only the
    admin watch changes the cache). *)
Theorem failed_calls_change_nothing env a ctx :
  (∀ req, (∀ e, result (Activate env ctx req a) = Err e →
                final (Activate env ctx req a) = a) ∧
          adminCache (final (Activate env ctx req a)) = adminCache a) ∧
  ((∀ e, result (Deactivate env ctx a) = Err e → final (Deactivate env ctx a) = a) ∧
   adminCache (final (Deactivate env ctx a)) = adminCache a) ∧
  (∀ req, (∀ e, result (ModifyAdmins env ctx req a) = Err e →
                final (ModifyAdmins env ctx req a) = a) ∧
          adminCache (final (ModifyAdmins env ctx req a)) = adminCache a) ∧
  (∀ req, (∀ e, result (Authenticate env ctx req a) = Err e →
                final (Authenticate env ctx req a) = a) ∧
          adminCache (final (Authenticate env ctx req a)) = adminCache a) ∧
  (∀ req, (∀ e, result (SetScope env ctx req a) = Err e →
                final (SetScope env ctx req a) = a) ∧
          adminCache (final (SetScope env ctx req a)) = adminCache a) ∧
  (∀ req, (∀ e, result (SetACL env ctx req a) = Err e →
                final (SetACL env ctx req a) = a) ∧
          adminCache (final (SetACL env ctx req a)) = adminCache a) ∧
  ((∀ e, result (GetCapability env ctx a) = Err e → final (GetCapability env ctx a) = a) ∧
   adminCache (final (GetCapability env ctx a)) = adminCache a) ∧
  (∀ req, (∀ e, result (RevokeAuthToken env ctx req a) = Err e →
                final (RevokeAuthToken env ctx req a) = a) ∧
          adminCache (final (RevokeAuthToken env ctx req a)) = adminCache a).
Proof.
  split; [|split; [|split; [|split; [|split; [|split; [|split]]]]]].
  - intros req. unfold Activate.
    assert (Hstm : ∀ a0, NewSTM (forEach (Admins req) (λ user, Put admins user epsilon)) a0
                         = (Ok (),
                            mkServer (adminCache a0)
                              (mkEtcd (tokens_rows (etcdClient a0)) (acls_rows (etcdClient a0))
                                 (put_admins (admins_rows (etcdClient a0)) (Admins req))),
                            [EvTxnBegin; EvTxnCommit])).
    { intros a0. by rewrite NewSTM_run, forEach_Put_admins_run. }
    set (stm := NewSTM _) in *. clearbody stm.
    sym. repeat (first [rewrite Hstm | split_inner]; sym).
    all: failed_or_same.
  - unfold Deactivate. sym. repeat (split_inner; sym). all: failed_or_same.
  - intros req. unfold ModifyAdmins.
    assert (Hstm : ∀ a0,
      NewSTM (bind (forEach (Add req) (λ user, Put admins user epsilon))
                (λ _, forEach (Remove req)
                        (λ user, bind (try (Delete (Delete_absent_fails env) admins user))
                                   (λ _, ret ())))) a0
      = (Ok (),
         mkServer (adminCache a0)
           (mkEtcd (tokens_rows (etcdClient a0)) (acls_rows (etcdClient a0))
              (delete_admins (put_admins (admins_rows (etcdClient a0)) (Add req))
                 (Remove req))),
         [EvTxnBegin; EvTxnCommit])).
    { intros a0. rewrite NewSTM_run.
      erewrite bind_Ok by apply forEach_Put_admins_run.
      by rewrite forEach_Delete_admins_run. }
    set (stm := NewSTM _) in *. clearbody stm.
    assert (Hval : ∃ r, ∀ a0, a0 = a → validateModifyAdminsRequest req a0 = (r, a0, [])).
    { eexists. intros a0 ->. apply validateModifyAdminsRequest_run. }
    destruct Hval as [r Hval].
    set (val := validateModifyAdminsRequest req) in *. clearbody val.
    sym.
    repeat (first [rewrite Hstm | rewrite (Hval a eq_refl) | split_inner]; sym).
    all: failed_or_same.
  - intros req. unfold Authenticate. sym. repeat (split_inner; sym). all: failed_or_same.
  - intros req. unfold SetScope. sym. repeat (split_inner; sym). all: failed_or_same.
  - intros req. unfold SetACL. sym. repeat (split_inner; sym). all: failed_or_same.
  - unfold GetCapability. sym. repeat (split_inner; sym). all: failed_or_same.
  - intros req. unfold RevokeAuthToken. sym. repeat (split_inner; sym). all: failed_or_same.
Qed.

Lemma failed_calls_change_nothing_witness :
  let run := Deactivate (env_with State_ACTIVE) bob_ctx cluster in
  result run = Err (Errorf "must be an admin to disable cluster auth") ∧
  final run = cluster.
Proof.
  intros run.
  assert (H : result run = Err (Errorf "must be an admin to disable cluster auth"))
    by (vm_compute; reflexivity).
  split; [exact H|].
  destruct (failed_calls_change_nothing (env_with State_ACTIVE) cluster bob_ctx)
    as (_ & [Hde _] & _).
  exact (Hde _ H).
Defined.

(** *** Tokens *)

Ltac bd :=
  repeat match goal with
    | H : bool_decide _ = true |- _ => apply bool_decide_eq_true in H
    | H : bool_decide _ = false |- _ => apply bool_decide_eq_false in H
    end.

(** X4.  [getAuthenticatedUser] returns the user stored under the hash of the
    presented token, and only that: it succeeds with [u] exactly when the
    context carries exactly one token whose hash has a row holding [u].
    Without metadata, with no or several tokens, and with an unknown token it
    fails with its three distinct errors. *)
Theorem getAuthenticatedUser_iff env a ctx :
  (∀ u, result (getAuthenticatedUser env ctx a) = Ok u ↔
        ∃ token ttl, md_tokens ctx = Some [token] ∧
          tokens_rows (etcdClient a) !! hashToken env token = Some (u, ttl)) ∧
  (md_tokens ctx = None →
     result (getAuthenticatedUser env ctx a)
     = Err (Errorf "no authentication metadata found in context")) ∧
  (∀ md, md_tokens ctx = Some md → length md ≠ 1 →
     result (getAuthenticatedUser env ctx a)
     = Err (Errorf "auth token not found in context")) ∧
  (∀ token, md_tokens ctx = Some [token] →
     tokens_rows (etcdClient a) !! hashToken env token = None →
     result (getAuthenticatedUser env ctx a) = Err (Errorf "token not found")).
Proof.
  unfold getAuthenticatedUser.
  destruct (md_tokens ctx) as [[|token [|token' md]]|] eqn:Hmd.
  - split; [|split; [|split]]; try done.
    intros u. split; [done|]. by intros (? & ? & ? & _).
  - erewrite bind_Ok by apply (try_as (Get_run tokens (hashToken env token) a)).
    cbn [col_rows tokens].
    destruct (tokens_rows (etcdClient a) !! hashToken env token) as [[u0 ttl0]|] eqn:Hrow;
      ctl.
    + split; [|split; [|split]]; try done.
      * intros u. split.
        -- intros [= <-]. by exists token, ttl0.
        -- intros (t & ttl & [= <-] & Hrow'). rewrite Hrow in Hrow'. by injection Hrow' as ->.
      * by intros md [= <-] Hlen.
      * intros t [= <-]. by rewrite Hrow.
    + split; [|split; [|split]]; try done.
      * intros u. split; [done|].
        intros (t & ttl & [= <-] & Hrow'). by rewrite Hrow in Hrow'.
      * by intros md [= <-] Hlen.
  - split; [|split; [|split]]; try done.
    intros u. split; [done|]. by intros (? & ? & ? & _).
  - split; [|split; [|split]]; try done.
    intros u. split; [done|]. by intros (? & ? & ? & _).
Qed.

Lemma getAuthenticatedUser_iff_witness :
  md_tokens bob_ctx = Some ["bob-token"] ∧
  tokens_rows (etcdClient cluster) !! hashToken (env_with State_ACTIVE) "bob-token"
    = Some (bob, Some defaultTokenTTLSecs) ∧
  result (getAuthenticatedUser (env_with State_ACTIVE) bob_ctx cluster) = Ok bob.
Proof.
  assert (H1 : md_tokens bob_ctx = Some ["bob-token"]) by reflexivity.
  assert (H2 : tokens_rows (etcdClient cluster) !! hashToken (env_with State_ACTIVE) "bob-token"
               = Some (bob, Some defaultTokenTTLSecs)) by (vm_compute; reflexivity).
  split; [exact H1|]. split; [exact H2|].
  destruct (getAuthenticatedUser_iff (env_with State_ACTIVE) cluster bob_ctx) as [Hiff _].
  apply Hiff. by exists "bob-token", (Some defaultTokenTTLSecs).
Defined.

(** What a successful [Authenticate] did. *)
Lemma Authenticate_Ok_inv env a ctx req resp :
  result (Authenticate env ctx req a) = Ok resp →
  ∃ username,
    resolves env req username ∧
    GithubUsername req ≠ magicUser ∧
    result (isActivated a) = Ok true ∧
    resp = mkAuthenticateResponse (uuid_NewWithoutDashes env) ∧
    final (Authenticate env ctx req a) =
      with_token (hashToken env (uuid_NewWithoutDashes env)) (mkUser username User_HUMAN)
        (Some defaultTokenTTLSecs) a.
Proof.
  unfold Authenticate, resolves. sym. repeat (split_inner; sym).
  all: intros Hok; try discriminate Hok; injection Hok as <-; bd.
  all: first
    [ exists (GithubUsername req); split; [by left | done]
    | match goal with
      | |- context [inl ?s = inl _] =>
          exists s; split; [right; split; [done|]; split; [done|] | done];
          destruct (decide (GithubUsername req = "")), (decide (GithubUsername req = s));
          tauto
      end ].
Qed.

Lemma getAuthenticatedUser_presenting env token a u ttl :
  tokens_rows (etcdClient a) !! hashToken env token = Some (u, ttl) →
  getAuthenticatedUser env (presenting token) a = (Ok u, a, []).
Proof.
  intros Hrow. unfold getAuthenticatedUser, presenting. cbn [md_tokens].
  erewrite bind_Ok by apply (try_as (Get_run tokens (hashToken env token) a)).
  cbn [col_rows tokens]. by rewrite Hrow.
Qed.

Lemma WhoAmI_run env ctx a u :
  result (isActivated a) = Ok true →
  getAuthenticatedUser env ctx a = (Ok u, a, []) →
  result (WhoAmI env ctx a) = Ok (mkWhoAmIResponse (Username u)).
Proof.
  rewrite isActivated_run, result_mk. intros [= Hact] Hau.
  unfold WhoAmI. rewrite logged_result.
  step isActivated_run. rewrite Hact. ctl. by step Hau.
Qed.

Lemma WhoAmI_unknown env token a :
  result (isActivated a) = Ok true →
  tokens_rows (etcdClient a) !! hashToken env token = None →
  result (WhoAmI env (presenting token) a) = Err (Errorf "token not found").
Proof.
  rewrite isActivated_run, result_mk. intros [= Hact] Hrow.
  unfold WhoAmI. rewrite logged_result.
  step isActivated_run. rewrite Hact. ctl.
  erewrite bind_Err; [reflexivity|].
  unfold getAuthenticatedUser, presenting. cbn [md_tokens].
  erewrite bind_Ok by apply (try_as (Get_run tokens _ _)).
  cbn [col_rows tokens]. rewrite Hrow. reflexivity.
Qed.

(** X5.  Round trip of a login: whenever [Authenticate] succeeds, the token it
    returns is accepted afterwards, and [WhoAmI] presenting it answers the
    username the request resolved to; the token's row is a HUMAN user with
    the two-week TTL (1209600 seconds). *)
Theorem Authenticate_then_WhoAmI env a ctx req resp :
  result (Authenticate env ctx req a) = Ok resp →
  let a' := final (Authenticate env ctx req a) in
  ∃ username,
    resolves env req username ∧
    result (WhoAmI env (presenting (PachToken resp)) a')
      = Ok (mkWhoAmIResponse username) ∧
    tokens_rows (etcdClient a') !! hashToken env (PachToken resp)
      = Some (mkUser username User_HUMAN, Some 1209600%Z).
Proof.
  intros Hok a'. subst a'.
  destruct (Authenticate_Ok_inv env a ctx req resp Hok)
    as (username & Hres & _ & Hact & -> & ->).
  exists username. split; [done|].
  assert (Hrow : tokens_rows (etcdClient
                   (with_token (hashToken env (uuid_NewWithoutDashes env))
                      (mkUser username User_HUMAN) (Some defaultTokenTTLSecs) a))
                 !! hashToken env (uuid_NewWithoutDashes env)
                 = Some (mkUser username User_HUMAN, Some defaultTokenTTLSecs)).
  { cbn. apply lookup_insert_eq. }
  split; [|exact Hrow].
  apply (WhoAmI_run _ _ _ (mkUser username User_HUMAN)); [exact Hact|].
  eapply getAuthenticatedUser_presenting. exact Hrow.
Qed.

Lemma Authenticate_then_WhoAmI_witness :
  let env := env_with State_ACTIVE in
  let req := mkAuthenticateRequest "" "carol" in
  let run := Authenticate env (mkContext None) req cluster in
  result run = Ok (mkAuthenticateResponse "c0ffee") ∧
  ∃ username,
    resolves env req username ∧
    result (WhoAmI env (presenting "c0ffee") (final run)) = Ok (mkWhoAmIResponse username).
Proof.
  intros env req run.
  assert (H : result run = Ok (mkAuthenticateResponse "c0ffee")) by (vm_compute; reflexivity).
  split; [exact H|].
  destruct (Authenticate_then_WhoAmI env cluster (mkContext None) req _ H)
    as (username & Hres & Hwho & _).
  exists username. split; [exact Hres | exact Hwho].
Defined.

(** X6.  Round trip of a capability in an activated cluster: the capability
    minted for an authenticated caller is accepted afterwards as a PIPELINE
    user with the caller's username, and once [RevokeAuthToken] has been
    called on it (by a caller whose own token has another hash) it is no
    longer accepted: [WhoAmI] fails with [token not found], and the other
    token rows are as they were before the capability was minted. *)
Theorem GetCapability_then_revoke env a token caller ttl :
  result (isActivated a) = Ok true →
  tokens_rows (etcdClient a) !! hashToken env token = Some (caller, ttl) →
  hashToken env token ≠ hashToken env (uuid_NewWithoutDashes env) →
  let cap := uuid_NewWithoutDashes env in
  let a1 := final (GetCapability env (presenting token) a) in
  let a2 := final (RevokeAuthToken env (presenting token) (mkRevokeAuthTokenRequest cap) a1) in
  result (GetCapability env (presenting token) a) = Ok (mkGetCapabilityResponse cap) ∧
  result (getAuthenticatedUser env (presenting cap) a1)
    = Ok (mkUser (Username caller) User_PIPELINE) ∧
  result (WhoAmI env (presenting cap) a1) = Ok (mkWhoAmIResponse (Username caller)) ∧
  result (RevokeAuthToken env (presenting token) (mkRevokeAuthTokenRequest cap) a1)
    = Ok EmptyResponse ∧
  result (WhoAmI env (presenting cap) a2) = Err (Errorf "token not found") ∧
  tokens_rows (etcdClient a2) = delete (hashToken env cap) (tokens_rows (etcdClient a)).
Proof.
  intros Hact Hrow Hne cap a1 a2.
  pose proof (getAuthenticatedUser_presenting env token a caller ttl Hrow) as Hau.
  pose proof Hact as Hact'. rewrite isActivated_run, result_mk in Hact'.
  injection Hact' as Hact'.
  assert (Ha1 : GetCapability env (presenting token) a =
                (Ok (mkGetCapabilityResponse cap),
                 with_token (hashToken env cap) (mkUser (Username caller) User_PIPELINE) None a,
                 [EvLogReq; EvTxnBegin; EvTxnCommit; EvLogResp InfoLevel])).
  { rewrite GetCapability_run, Hact', Hau, result_mk. reflexivity. }
  subst a2 a1. rewrite Ha1, result_mk, final_mk.
  set (a1 := with_token (hashToken env cap) (mkUser (Username caller) User_PIPELINE) None a).
  assert (Hcap : tokens_rows (etcdClient a1) !! hashToken env cap
                 = Some (mkUser (Username caller) User_PIPELINE, None)).
  { cbn. apply lookup_insert_eq. }
  assert (Hact1 : result (isActivated a1) = Ok true) by exact Hact.
  assert (Hau1 : getAuthenticatedUser env (presenting token) a1 = (Ok caller, a1, [])).
  { eapply getAuthenticatedUser_presenting. cbn. rewrite lookup_insert_ne by done. exact Hrow. }
  pose proof (getAuthenticatedUser_presenting env cap a1 _ _ Hcap) as Haucap.
  split; [done|]. split; [by rewrite Haucap|].
  split; [by apply (WhoAmI_run _ _ _ _ Hact1 Haucap)|].
  assert (Hau1' : result (getAuthenticatedUser env (presenting token) a1) = Ok caller)
    by (by rewrite Hau1).
  rewrite (RevokeAuthToken_run env a1 (presenting token) (mkRevokeAuthTokenRequest cap)
             caller Hact1 Hau1').
  cbn [Token]. rewrite Hcap. cbn [Type_]. rewrite bool_decide_eq_true_2 by done.
  rewrite result_mk, final_mk.
  split; [done|]. split.
  - apply WhoAmI_unknown; [exact Hact|]. cbn. apply lookup_delete_eq.
  - cbn. by rewrite delete_insert_eq.
Qed.

Lemma GetCapability_then_revoke_witness :
  let env := env_with State_ACTIVE in
  let a1 := final (GetCapability env (presenting "alice-token") cluster) in
  let a2 := final (RevokeAuthToken env (presenting "alice-token")
                     (mkRevokeAuthTokenRequest "c0ffee") a1) in
  result (isActivated cluster) = Ok true ∧
  tokens_rows (etcdClient cluster) !! hashToken env "alice-token"
    = Some (alice, Some defaultTokenTTLSecs) ∧
  hashToken env "alice-token" ≠ hashToken env (uuid_NewWithoutDashes env) ∧
  result (WhoAmI env (presenting "c0ffee") a1) = Ok (mkWhoAmIResponse "alice") ∧
  result (WhoAmI env (presenting "c0ffee") a2) = Err (Errorf "token not found").
Proof.
  intros env a1 a2.
  assert (H1 : result (isActivated cluster) = Ok true) by (vm_compute; reflexivity).
  assert (H2 : tokens_rows (etcdClient cluster) !! hashToken env "alice-token"
               = Some (alice, Some defaultTokenTTLSecs)) by (vm_compute; reflexivity).
  assert (H3 : hashToken env "alice-token" ≠ hashToken env (uuid_NewWithoutDashes env))
    by (vm_compute; discriminate).
  split; [exact H1|]. split; [exact H2|]. split; [exact H3|].
  destruct (GetCapability_then_revoke env cluster "alice-token" alice _ H1 H2 H3)
    as (_ & _ & Hwho & _ & Hgone & _).
  split; [exact Hwho | exact Hgone].
Defined.

(** *** Scopes *)

Lemma ACL_at_set_entry username scope acl u :
  ACL_at (set_entry username scope acl) u =
  if bool_decide (u = username) then scope else ACL_at acl u.
Proof.
  unfold set_entry, ACL_at.
  destruct (decide (scope = Scope_NONE)) as [->|Hs].
  - rewrite (bool_decide_eq_true_2 (Scope_NONE = Scope_NONE)) by done. cbn [Entries].
    case_bool_decide as Hu.
    + subst. by rewrite lookup_delete_eq.
    + by rewrite lookup_delete_ne.
  - rewrite (bool_decide_eq_false_2 (scope = Scope_NONE)) by done. cbn [Entries].
    case_bool_decide as Hu.
    + subst. by rewrite lookup_insert_eq.
    + by rewrite lookup_insert_ne.
Qed.

(** What a successful [SetScope] did. *)
Lemma SetScope_Ok_inv env a ctx req resp :
  result (SetScope env ctx req a) = Ok resp →
  final (SetScope env ctx req a) =
    with_acls (<[ss_Repo req :=
                   (set_entry (ss_Username req) (ss_Scope req) (stored_ACL a (ss_Repo req)),
                    None)]> (acls_rows (etcdClient a))) a.
Proof.
  unfold SetScope, stored_ACL, with_acls, set_entry. sym. repeat (split_inner; sym).
  all: intros Hok; try discriminate Hok; reflexivity.
Qed.

(** X7.  A successful [SetScope] changes one ACL entry and nothing else:
    afterwards the ACL of the repo gives the named user exactly the requested
    scope (no entry for NONE), every other user's scope on that repo is as
    before, and the other repos' ACL rows, the tokens and the admin rows are
    untouched. *)
Theorem SetScope_sets_one_entry env a ctx req resp :
  result (SetScope env ctx req a) = Ok resp →
  let a' := final (SetScope env ctx req a) in
  ACL_at (stored_ACL a' (ss_Repo req)) (ss_Username req) = ss_Scope req ∧
  (ss_Scope req = Scope_NONE →
     Entries (stored_ACL a' (ss_Repo req)) !! ss_Username req = None) ∧
  (∀ u, u ≠ ss_Username req →
     ACL_at (stored_ACL a' (ss_Repo req)) u = ACL_at (stored_ACL a (ss_Repo req)) u) ∧
  (∀ repo, repo ≠ ss_Repo req →
     acls_rows (etcdClient a') !! repo = acls_rows (etcdClient a) !! repo) ∧
  tokens_rows (etcdClient a') = tokens_rows (etcdClient a) ∧
  admins_rows (etcdClient a') = admins_rows (etcdClient a).
Proof.
  intros Hok a'. subst a'. rewrite (SetScope_Ok_inv _ _ _ _ _ Hok).
  assert (Hst : stored_ACL
                  (with_acls (<[ss_Repo req :=
                     (set_entry (ss_Username req) (ss_Scope req) (stored_ACL a (ss_Repo req)),
                      None)]> (acls_rows (etcdClient a))) a) (ss_Repo req)
                = set_entry (ss_Username req) (ss_Scope req) (stored_ACL a (ss_Repo req))).
  { unfold stored_ACL at 1. cbn [with_acls etcdClient acls_rows].
    by rewrite lookup_insert_eq. }
  rewrite Hst. split; [|split; [|split; [|split]]].
  - rewrite ACL_at_set_entry. by rewrite bool_decide_eq_true_2.
  - intros ->. unfold set_entry. rewrite bool_decide_eq_true_2 by done.
    cbn [Entries]. apply lookup_delete_eq.
  - intros u Hu. rewrite ACL_at_set_entry. by rewrite bool_decide_eq_false_2.
  - intros repo Hrepo. cbn. by rewrite lookup_insert_ne.
  - done.
Qed.

Lemma SetScope_sets_one_entry_witness :
  let env := env_with State_ACTIVE in
  let req := mkSetScopeRequest "carol" "r" Scope_WRITER in
  let run := SetScope env alice_ctx req cluster in
  result run = Ok EmptyResponse ∧
  ACL_at (stored_ACL (final run) "r") "carol" = Scope_WRITER ∧
  ACL_at (stored_ACL (final run) "r") "bob" = Scope_READER.
Proof.
  intros env req run.
  assert (H : result run = Ok EmptyResponse) by (vm_compute; reflexivity).
  split; [exact H|].
  destruct (SetScope_sets_one_entry env cluster alice_ctx req _ H) as (Hset & _ & Hother & _).
  split; [exact Hset|].
  etransitivity; [exact (Hother "bob" ltac:(discriminate)) | vm_compute; reflexivity].
Defined.

(** The loop of [GetScope], asked for the caller's own scopes. *)
Lemma GetScope_loop_own user repos scopes a :
  result (GetScope_loop user "" repos scopes a) =
  Ok (scopes ++ map (λ repo, ACL_at (stored_ACL a repo) (Username user)) repos).
Proof.
  revert scopes. induction repos as [|repo repos IH]; intros scopes.
  - cbn. by rewrite app_nil_r.
  - cbn [GetScope_loop map].
    erewrite bind_Ok by apply (try_as (Get_run acls repo a)).
    cbn [col_rows acls].
    destruct (acls_rows (etcdClient a) !! repo) as [[acl ttl]|] eqn:Hrow; ctl.
    all: match goal with
         | |- context [ACL_at ?x (Username _)] =>
             assert (Hst : stored_ACL a repo = x) by (unfold stored_ACL; by rewrite Hrow)
         end; rewrite Hst.
    all: rewrite (bool_decide_eq_true_2 ("" = "")) by done; ctl.
    all: rewrite IH, <- app_assoc; reflexivity.
Qed.

(** The loop of [GetScope], asked for the scopes of [username]: it stops at
    the first repo the caller may not read. *)
Lemma GetScope_loop_named user username repos scopes a :
  username ≠ "" →
  result (GetScope_loop user username repos scopes a) =
  match List.find (may_not_read a user) repos with
  | Some repo => Err (NotAuthorizedError repo Scope_READER)
  | None => Ok (scopes ++ map (λ repo, ACL_at (stored_ACL a repo) username) repos)
  end.
Proof.
  intros Hname. revert scopes. induction repos as [|repo repos IH]; intros scopes.
  - cbn. by rewrite app_nil_r.
  - cbn [GetScope_loop map List.find].
    erewrite bind_Ok by apply (try_as (Get_run acls repo a)).
    unfold may_not_read at 1. cbn [col_rows acls].
    destruct (acls_rows (etcdClient a) !! repo) as [[acl ttl]|] eqn:Hrow; ctl.
    all: match goal with
         | |- context [ACL_at ?x (Username _)] =>
             assert (Hst : stored_ACL a repo = x) by (unfold stored_ACL; by rewrite Hrow)
         end; rewrite Hst.
    all: rewrite (bool_decide_eq_false_2 (username = "")) by done; ctl.
    all: erewrite bind_Ok by apply isAdmin_run; ctl.
    all: destruct (negb _ && _); ctl; [reflexivity|].
    all: rewrite IH, <- app_assoc; reflexivity.
Qed.

Lemma is_admin_run user a : isAdmin user a = (Ok (is_admin a user), a, []).
Proof. apply isAdmin_run. Qed.

(** The gate shared by [GetScope], [GetACL] and [SetACL]: with an entitlement
    that is not ACTIVE only admins pass. *)
Lemma entitlement_gate_run st username a :
  (if negb (bool_decide (st = State_ACTIVE))
   then bind (isAdmin username) (λ admin, ret (negb admin))
   else ret false) a
  = (Ok (negb (bool_decide (st = State_ACTIVE)) && negb (is_admin a username)), a, []).
Proof.
  destruct (bool_decide (st = State_ACTIVE)); ctl; [reflexivity|].
  erewrite bind_Ok by apply is_admin_run. by ctl.
Qed.

(** The answer of [GetScope] in an activated cluster, for an authenticated
    caller and an oracle that answers. *)
Lemma GetScope_result env a ctx req u st :
  result (isActivated a) = Ok true →
  result (getAuthenticatedUser env ctx a) = Ok u →
  result (getEnterpriseTokenState env a) = Ok st →
  result (GetScope env ctx req a) =
  if negb (bool_decide (st = State_ACTIVE)) && negb (is_admin a (Username u)) then
    Err enterprise_inactive_error
  else if bool_decide (gs_Username req = "") then
    Ok (mkGetScopeResponse
          (map (λ repo, ACL_at (stored_ACL a repo) (Username u)) (gs_Repos req)))
  else
    match List.find (may_not_read a u) (gs_Repos req) with
    | Some repo => Err (NotAuthorizedError repo Scope_READER)
    | None =>
        Ok (mkGetScopeResponse
              (map (λ repo, ACL_at (stored_ACL a repo) (gs_Username req)) (gs_Repos req)))
    end.
Proof.
  intros Hact Hu Hst.
  destruct (getEnterpriseTokenState_run env a) as [ev Hev]. rewrite Hst in Hev.
  pose proof (getAuthenticatedUser_run env ctx a) as Hau. rewrite Hu in Hau.
  rewrite isActivated_run, result_mk in Hact. injection Hact as Hact.
  unfold GetScope. rewrite logged_result.
  step isActivated_run. rewrite Hact. ctl.
  step Hau. step (try_as Hev). step (entitlement_gate_run st (Username u) a).
  destruct (negb (bool_decide (st = State_ACTIVE)) && negb (is_admin a (Username u))); ctl;
    [reflexivity|].
  pose proof (GetScope_loop_run u (gs_Username req) (gs_Repos req) [] a) as Hloop.
  destruct (decide (gs_Username req = "")) as [Hname|Hname].
  - rewrite (bool_decide_eq_true_2 _ Hname). rewrite Hname in *.
    rewrite GetScope_loop_own in Hloop. by step Hloop.
  - rewrite (bool_decide_eq_false_2 _ Hname).
    rewrite (GetScope_loop_named _ _ _ _ _ Hname) in Hloop.
    destruct (List.find (may_not_read a u) (gs_Repos req)); by step Hloop.
Qed.

(** X8.  [GetScope] in an activated cluster, for an authenticated caller and
    an oracle that answers: a non-admin is refused when the entitlement is
    not ACTIVE; otherwise, asked without a username it answers the caller's own
    scope for every repo, in order (NONE without an ACL or entry), with no
    access check; asked for a named user it answers that user's scopes, unless
    the caller is a non-admin with less than READER on one of the repos, in
    which case it fails with NotAuthorized(READER) for the first such repo. *)
Theorem GetScope_spec env a ctx req u st :
  result (isActivated a) = Ok true →
  result (getAuthenticatedUser env ctx a) = Ok u →
  result (getEnterpriseTokenState env a) = Ok st →
  (st ≠ State_ACTIVE → is_admin a (Username u) = false →
     result (GetScope env ctx req a) = Err enterprise_inactive_error) ∧
  (st = State_ACTIVE ∨ is_admin a (Username u) = true →
     (gs_Username req = "" →
        result (GetScope env ctx req a) =
        Ok (mkGetScopeResponse
              (map (λ repo, ACL_at (stored_ACL a repo) (Username u)) (gs_Repos req)))) ∧
     (gs_Username req ≠ "" →
        (∀ repo, List.find (may_not_read a u) (gs_Repos req) = Some repo →
           result (GetScope env ctx req a) = Err (NotAuthorizedError repo Scope_READER)) ∧
        (List.find (may_not_read a u) (gs_Repos req) = None →
           result (GetScope env ctx req a) =
           Ok (mkGetScopeResponse
                 (map (λ repo, ACL_at (stored_ACL a repo) (gs_Username req))
                    (gs_Repos req)))) ∧
        (is_admin a (Username u) = true →
           List.find (may_not_read a u) (gs_Repos req) = None))).
Proof.
  intros Hact Hu Hst. rewrite (GetScope_result env a ctx req u st Hact Hu Hst).
  split.
  - intros Hne Hadm. rewrite bool_decide_eq_false_2 by done. by rewrite Hadm.
  - intros Hpass.
    assert (Hgate : negb (bool_decide (st = State_ACTIVE)) && negb (is_admin a (Username u))
                    = false).
    { destruct Hpass as [Hp|Hp]; rewrite Hp; [done|]. by rewrite andb_false_r. }
    rewrite Hgate. split.
    + intros Hname. by rewrite bool_decide_eq_true_2.
    + intros Hname. rewrite bool_decide_eq_false_2 by done.
      split; [intros repo Hf; by rewrite Hf|]. split; [intros Hf; by rewrite Hf|].
      intros Hadm. clear -Hadm. induction (gs_Repos req) as [|repo repos IH]; [done|].
      cbn [List.find]. unfold may_not_read at 1. fold (is_admin a (Username u)).
      by rewrite Hadm.
Qed.

Lemma GetScope_spec_witness :
  let env := env_with State_ACTIVE in
  result (isActivated cluster) = Ok true ∧
  result (getAuthenticatedUser env bob_ctx cluster) = Ok bob ∧
  result (getEnterpriseTokenState env cluster) = Ok State_ACTIVE ∧
  result (GetScope env bob_ctx (mkGetScopeRequest ["r"; "q"] "") cluster)
  = Ok (mkGetScopeResponse [Scope_READER; Scope_NONE]) ∧
  result (GetScope env bob_ctx (mkGetScopeRequest ["r"; "q"] "alice") cluster)
  = Err (NotAuthorizedError "q" Scope_READER).
Proof.
  intros env.
  assert (H1 : result (isActivated cluster) = Ok true) by (vm_compute; reflexivity).
  assert (H2 : result (getAuthenticatedUser env bob_ctx cluster) = Ok bob)
    by (vm_compute; reflexivity).
  assert (H3 : result (getEnterpriseTokenState env cluster) = Ok State_ACTIVE)
    by (vm_compute; reflexivity).
  split; [exact H1|]. split; [exact H2|]. split; [exact H3|].
  split.
  - destruct (GetScope_spec env cluster bob_ctx (mkGetScopeRequest ["r"; "q"] "")
                bob State_ACTIVE H1 H2 H3) as [_ Hpass].
    destruct (Hpass (or_introl eq_refl)) as [Hown _].
    etransitivity; [exact (Hown eq_refl) | vm_compute; reflexivity].
  - destruct (GetScope_spec env cluster bob_ctx (mkGetScopeRequest ["r"; "q"] "alice")
                bob State_ACTIVE H1 H2 H3) as [_ Hpass].
    destruct (Hpass (or_introl eq_refl)) as [_ Hnamed].
    destruct (Hnamed ltac:(discriminate)) as [Hbad _].
    apply Hbad. vm_compute. reflexivity.
Defined.

Lemma SetScope_Ok_activated env a ctx req resp :
  result (SetScope env ctx req a) = Ok resp → result (isActivated a) = Ok true.
Proof.
  unfold SetScope. sym. repeat (split_inner; sym).
  all: intros Hok; try discriminate Hok; reflexivity.
Qed.

Lemma getEnterpriseTokenState_any env a a' :
  result (getEnterpriseTokenState env a') = result (getEnterpriseTokenState env a).
Proof.
  unfold getEnterpriseTokenState, getPachClient. sym. repeat (split_inner; sym); reflexivity.
Qed.

Lemma getAuthenticatedUser_same_tokens env ctx a a' :
  tokens_rows (etcdClient a') = tokens_rows (etcdClient a) →
  result (getAuthenticatedUser env ctx a') = result (getAuthenticatedUser env ctx a).
Proof.
  intros Hrows. unfold getAuthenticatedUser.
  destruct (md_tokens ctx) as [[|token [|? ?]]|]; try reflexivity.
  unfold bind, try, Get, result. cbn. rewrite Hrows.
  by destruct (tokens_rows (etcdClient a) !! hashToken env token) as [[? ?]|].
Qed.

(** X9.  Round trip [SetScope] then [GetScope]: after a successful
    [SetScope(repo, username, scope)], an admin who asks [GetScope] for
    [username] on [repo] is answered exactly [scope], and so is the user
    [username] who asks for the own scope while the entitlement is ACTIVE;
    for [scope] = NONE the answer is NONE. *)
Theorem SetScope_then_GetScope env a ctx req resp ctx2 reader st :
  result (SetScope env ctx req a) = Ok resp →
  result (getAuthenticatedUser env ctx2 a) = Ok reader →
  result (getEnterpriseTokenState env a) = Ok st →
  let a' := final (SetScope env ctx req a) in
  (is_admin a (Username reader) = true → ss_Username req ≠ "" →
     result (GetScope env ctx2 (mkGetScopeRequest [ss_Repo req] (ss_Username req)) a')
     = Ok (mkGetScopeResponse [ss_Scope req])) ∧
  (Username reader = ss_Username req → st = State_ACTIVE →
     result (GetScope env ctx2 (mkGetScopeRequest [ss_Repo req] "") a')
     = Ok (mkGetScopeResponse [ss_Scope req])).
Proof.
  intros Hok Hu Hst a'. subst a'.
  pose proof (SetScope_Ok_activated _ _ _ _ _ Hok) as Hact.
  rewrite (SetScope_Ok_inv _ _ _ _ _ Hok).
  set (a' := with_acls _ a).
  assert (Hact' : result (isActivated a') = Ok true) by exact Hact.
  assert (Hu' : result (getAuthenticatedUser env ctx2 a') = Ok reader).
  { rewrite <- Hu. by apply getAuthenticatedUser_same_tokens. }
  assert (Hst' : result (getEnterpriseTokenState env a') = Ok st)
    by (by rewrite (getEnterpriseTokenState_any env a a')).
  assert (Hstored : ∀ u, ACL_at (stored_ACL a' (ss_Repo req)) u =
                         if bool_decide (u = ss_Username req) then ss_Scope req
                         else ACL_at (stored_ACL a (ss_Repo req)) u).
  { intros u. unfold stored_ACL at 1. subst a'. cbn [with_acls etcdClient acls_rows].
    rewrite lookup_insert_eq. apply ACL_at_set_entry. }
  split.
  - intros Hadm Hname.
    rewrite (GetScope_result env a' ctx2 _ reader st Hact' Hu' Hst').
    assert (Hadm' : is_admin a' (Username reader) = true) by exact Hadm.
    rewrite Hadm', andb_false_r. cbn [gs_Username gs_Repos].
    rewrite bool_decide_eq_false_2 by done.
    cbn [List.find map]. unfold may_not_read. fold (is_admin a' (Username reader)).
    rewrite Hadm'. cbn [negb andb]. rewrite Hstored.
    by rewrite bool_decide_eq_true_2.
  - intros Hself ->.
    rewrite (GetScope_result env a' ctx2 _ reader State_ACTIVE Hact' Hu' Hst').
    rewrite (bool_decide_eq_true_2 (State_ACTIVE = State_ACTIVE)) by done.
    cbn [negb andb gs_Username gs_Repos].
    rewrite (bool_decide_eq_true_2 ("" = "")) by done.
    cbn [map]. rewrite Hstored. by rewrite bool_decide_eq_true_2.
Qed.

Lemma SetScope_then_GetScope_witness :
  let env := env_with State_ACTIVE in
  let req := mkSetScopeRequest "bob" "r" Scope_NONE in
  let a' := final (SetScope env alice_ctx req cluster) in
  result (SetScope env alice_ctx req cluster) = Ok EmptyResponse ∧
  result (getAuthenticatedUser env bob_ctx cluster) = Ok bob ∧
  result (getEnterpriseTokenState env cluster) = Ok State_ACTIVE ∧
  result (GetScope env bob_ctx (mkGetScopeRequest ["r"] "") a')
  = Ok (mkGetScopeResponse [Scope_NONE]).
Proof.
  intros env req a'.
  assert (H1 : result (SetScope env alice_ctx req cluster) = Ok EmptyResponse)
    by (vm_compute; reflexivity).
  assert (H2 : result (getAuthenticatedUser env bob_ctx cluster) = Ok bob)
    by (vm_compute; reflexivity).
  assert (H3 : result (getEnterpriseTokenState env cluster) = Ok State_ACTIVE)
    by (vm_compute; reflexivity).
  split; [exact H1|]. split; [exact H2|]. split; [exact H3|].
  destruct (SetScope_then_GetScope env cluster alice_ctx req _ bob_ctx bob State_ACTIVE
              H1 H2 H3) as [_ Hself].
  exact (Hself eq_refl eq_refl).
Defined.

Lemma oracle_answers_client env a st :
  result (getEnterpriseTokenState env a) = Ok st →
  clientErr env = None ∧ getEnterpriseTokenState env a = (Ok st, a, [EvGetState]).
Proof.
  unfold getEnterpriseTokenState, getPachClient. sym. repeat (split_inner; sym).
  all: intros Hok; try discriminate Hok; injection Hok as <-; done.
Qed.

Lemma SetScope_authorized_non_admin env caller req acl a st :
  is_admin a (Username caller) = false →
  result (getEnterpriseTokenState env a) = Ok st →
  ∃ ev, SetScope_authorized env caller req acl a =
        (non_admin_may_set env st caller req acl, a, ev).
Proof.
  intros Hadm Hst. destruct (oracle_answers_client env a st Hst) as [Hclient Hev].
  unfold SetScope_authorized, non_admin_may_set.
  erewrite bind_Ok by apply is_admin_run. rewrite Hadm. ctl.
  erewrite bind_Ok by apply (try_as Hev). ctl.
  destruct (bool_decide (st = State_ACTIVE)); ctl; [|by eexists].
  destruct (bool_decide (0 < size (Entries acl))); ctl.
  { destruct (bool_decide (ACL_at acl (Username caller) = Scope_OWNER)); ctl; by eexists. }
  assert (Hpc : try (getPachClient env) a = (Ok (Ok ()), a, [])).
  { unfold try, getPachClient. by rewrite Hclient. }
  erewrite bind_Ok by apply Hpc. ctl.
  erewrite bind_Ok by reflexivity. ctl.
  destruct (InspectRepo env (ss_Repo req)) as [msg|]; ctl; [|by eexists].
  destruct (HasSuffix msg "not found"); ctl; [|by eexists].
  destruct (bool_decide _ && bool_decide _); ctl; by eexists.
Qed.

(** The answer of [SetScope] for a valid request of an authenticated caller
    who is no admin, in an activated cluster with an oracle that answers. *)
Lemma SetScope_non_admin_result env a ctx req caller st :
  result (isActivated a) = Ok true →
  ss_Username req ≠ "" → ss_Repo req ≠ "" →
  result (getAuthenticatedUser env ctx a) = Ok caller →
  is_admin a (Username caller) = false →
  result (getEnterpriseTokenState env a) = Ok st →
  result (SetScope env ctx req a) =
  match non_admin_may_set env st caller req (stored_ACL a (ss_Repo req)) with
  | Ok true => Ok EmptyResponse
  | Ok false => Err (NotAuthorizedError (ss_Repo req) Scope_OWNER)
  | Err e => Err e
  end.
Proof.
  intros Hact Hname Hrepo Hu Hadm Hst.
  pose proof (getAuthenticatedUser_run env ctx a) as Hau. rewrite Hu in Hau.
  rewrite isActivated_run, result_mk in Hact. injection Hact as Hact.
  unfold SetScope. rewrite logged_result.
  step isActivated_run. rewrite Hact. ctl.
  erewrite bind_Ok.
  2: { unfold validateSetScopeRequest. rewrite !bool_decide_eq_false_2 by done. reflexivity. }
  ctl. step Hau.
  set (stm := NewSTM _).
  assert (Hstm : result (stm a) =
                 match non_admin_may_set env st caller req (stored_ACL a (ss_Repo req)) with
                 | Ok true => Ok ()
                 | Ok false => Err (NotAuthorizedError (ss_Repo req) Scope_OWNER)
                 | Err e => Err e
                 end).
  { subst stm. rewrite NewSTM_run.
    erewrite bind_Ok by apply (try_as (Get_run acls (ss_Repo req) a)).
    cbn [col_rows acls]. unfold stored_ACL.
    set (acl := match acls_rows (etcdClient a) !! ss_Repo req with
                | Some (acl, _) => acl | None => zeroACL end).
    assert (Hacl : match
                     match acls_rows (etcdClient a) !! ss_Repo req with
                     | Some (v, _) => Ok v
                     | None => Err ErrNotFound
                     end
                   with Err _ => mkACL ∅ | Ok acl0 => acl0 end = acl).
    { subst acl. by destruct (acls_rows (etcdClient a) !! ss_Repo req) as [[? ?]|]. }
    cbv zeta. rewrite Hacl.
    destruct (SetScope_authorized_non_admin env caller req acl a st Hadm Hst) as [ev Hauth].
    destruct (non_admin_may_set env st caller req acl) as [[|]|e].
    - erewrite bind_Ok by apply Hauth. ctl. rewrite ?result_mk. reflexivity.
    - erewrite bind_Ok by apply Hauth. ctl. rewrite ?result_mk. reflexivity.
    - erewrite bind_Err by apply Hauth. ctl. rewrite ?result_mk. reflexivity. }
  destruct (result (stm a)) as [[]|e] eqn:Hres.
  - erewrite bind_Ok by (rewrite (run_eta (stm a)), Hres; reflexivity).
    ctl. by destruct (non_admin_may_set _ _ _ _ _) as [[|]|].
  - erewrite bind_Err by (rewrite (run_eta (stm a)), Hres; reflexivity).
    ctl. by destruct (non_admin_may_set _ _ _ _ _) as [[|]|]; simplify_eq.
Qed.

Lemma size_pos_non_empty (m : gmap string Scope) : 0 < size m ↔ m ≠ ∅.
Proof. rewrite <- map_size_non_empty_iff. lia. Qed.

(** X10.  Who may [SetScope], besides admins.  For a valid request of an
    authenticated caller who is no admin, in an activated cluster whose oracle
    answers [st], [SetScope] succeeds exactly when the entitlement is ACTIVE
    and either the repo's ACL has entries and the caller is OWNER in it, or
    the ACL has no entries, the inspection of the repo fails with a text
    ending in [not found], and the caller makes themself OWNER.  It fails
    with the entitlement error when [st] is not ACTIVE, and with
    NotAuthorized(OWNER) when the caller is not OWNER of an ACL with entries
    or the ACL has no entries but the repo exists. *)
Theorem SetScope_authorization env a ctx req caller st :
  result (isActivated a) = Ok true →
  ss_Username req ≠ "" → ss_Repo req ≠ "" →
  result (getAuthenticatedUser env ctx a) = Ok caller →
  is_admin a (Username caller) = false →
  result (getEnterpriseTokenState env a) = Ok st →
  let acl := stored_ACL a (ss_Repo req) in
  (result (SetScope env ctx req a) = Ok EmptyResponse ↔
     st = State_ACTIVE ∧
     ((Entries acl ≠ ∅ ∧ ACL_at acl (Username caller) = Scope_OWNER) ∨
      (Entries acl = ∅ ∧
       (∃ msg, InspectRepo env (ss_Repo req) = Some msg ∧ HasSuffix msg "not found" = true) ∧
       ss_Username req = Username caller ∧ ss_Scope req = Scope_OWNER))) ∧
  (st ≠ State_ACTIVE → result (SetScope env ctx req a) = Err set_scope_inactive_error) ∧
  (st = State_ACTIVE → Entries acl ≠ ∅ → ACL_at acl (Username caller) ≠ Scope_OWNER →
     result (SetScope env ctx req a) = Err (NotAuthorizedError (ss_Repo req) Scope_OWNER)) ∧
  (st = State_ACTIVE → Entries acl = ∅ → InspectRepo env (ss_Repo req) = None →
     result (SetScope env ctx req a) = Err (NotAuthorizedError (ss_Repo req) Scope_OWNER)).
Proof.
  intros Hact Hname Hrepo Hu Hadm Hst acl.
  rewrite (SetScope_non_admin_result env a ctx req caller st Hact Hname Hrepo Hu Hadm Hst).
  fold acl. unfold non_admin_may_set.
  pose proof (size_pos_non_empty (Entries acl)) as Hsize.
  destruct (decide (st = State_ACTIVE)) as [Hactive|Hactive].
  2: { rewrite (bool_decide_eq_false_2 _ Hactive). cbn [negb].
       split; [|split; [done|split; intros ?; done]].
       split; [done|]. by intros [? _]. }
  rewrite (bool_decide_eq_true_2 _ Hactive). cbn [negb].
  destruct (decide (Entries acl = ∅)) as [Hempty|Hempty].
  - rewrite (bool_decide_eq_false_2 (0 < size (Entries acl))) by (rewrite Hsize; tauto).
    destruct (InspectRepo env (ss_Repo req)) as [msg|] eqn:Hinspect.
    + destruct (HasSuffix msg "not found") eqn:Hsuffix; cbn [negb].
      * destruct (decide (ss_Username req = Username caller)) as [Hself|Hself];
          destruct (decide (ss_Scope req = Scope_OWNER)) as [Hown|Hown];
          rewrite ?(bool_decide_eq_true_2 _ Hself), ?(bool_decide_eq_false_2 _ Hself),
            ?(bool_decide_eq_true_2 _ Hown), ?(bool_decide_eq_false_2 _ Hown);
          cbn [andb].
        all: split; [|split; [done|split; [done|done]]].
        all: split; [|]; [ try done | naive_solver ].
        intros _. split; [done|]. right. split; [done|]. split; [by eexists|done].
      * split; [|split; [done|split; [done|done]]].
        split; [done|]. intros [_ [[? _]|(_ & (msg' & [= <-] & Hs) & _)]]; [done|].
        by rewrite Hsuffix in Hs.
    + split; [|split; [done|split; [done|done]]].
      split; [done|]. intros [_ [[? _]|(_ & (msg' & ? & _) & _)]]; done.
  - rewrite (bool_decide_eq_true_2 (0 < size (Entries acl))) by (by rewrite Hsize).
    destruct (decide (ACL_at acl (Username caller) = Scope_OWNER)) as [Hown|Hown].
    + rewrite (bool_decide_eq_true_2 _ Hown).
      split; [|split; [done|split; [done|done]]].
      split; [|done]. intros _. split; [done|]. by left.
    + rewrite (bool_decide_eq_false_2 _ Hown).
      split; [|split; [done|split; [done|done]]].
      split; [done|]. intros [_ [[_ ?]|[? _]]]; done.
Qed.

Lemma SetScope_authorization_witness :
  let env := env_with State_ACTIVE in
  let req := mkSetScopeRequest "bob" "new" Scope_OWNER in
  result (isActivated cluster) = Ok true ∧
  result (getAuthenticatedUser env bob_ctx cluster) = Ok bob ∧
  is_admin cluster (Username bob) = false ∧
  result (getEnterpriseTokenState env cluster) = Ok State_ACTIVE ∧
  result (SetScope env bob_ctx req cluster) = Ok EmptyResponse.
Proof.
  intros env req.
  assert (H1 : result (isActivated cluster) = Ok true) by (vm_compute; reflexivity).
  assert (H2 : result (getAuthenticatedUser env bob_ctx cluster) = Ok bob)
    by (vm_compute; reflexivity).
  assert (H3 : is_admin cluster (Username bob) = false) by (vm_compute; reflexivity).
  assert (H4 : result (getEnterpriseTokenState env cluster) = Ok State_ACTIVE)
    by (vm_compute; reflexivity).
  split; [exact H1|]. split; [exact H2|]. split; [exact H3|]. split; [exact H4|].
  destruct (SetScope_authorization env cluster bob_ctx req bob State_ACTIVE H1
              ltac:(discriminate) ltac:(discriminate) H2 H3 H4) as [Hiff _].
  apply Hiff. split; [reflexivity|]. right.
  split; [vm_compute; reflexivity|].
  split; [exists "repo new not found"; split; vm_compute; reflexivity|].
  split; reflexivity.
Defined.

(** *** ACLs *)

(** The answer of [GetACL] in an activated cluster, for an authenticated
    caller and an oracle that answers. *)
Lemma GetACL_result env a ctx req u st :
  result (isActivated a) = Ok true →
  ga_Repo req ≠ "" →
  result (getAuthenticatedUser env ctx a) = Ok u →
  result (getEnterpriseTokenState env a) = Ok st →
  result (GetACL env ctx req a) =
  if negb (bool_decide (st = State_ACTIVE)) && negb (is_admin a (Username u)) then
    Err enterprise_inactive_error
  else if may_not_read a u (ga_Repo req) then
    Err (NotAuthorizedError (ga_Repo req) Scope_READER)
  else Ok (mkGetACLResponse (stored_ACL a (ga_Repo req))).
Proof.
  intros Hact Hrepo Hu Hst.
  destruct (getEnterpriseTokenState_run env a) as [ev Hev]. rewrite Hst in Hev.
  pose proof (getAuthenticatedUser_run env ctx a) as Hau. rewrite Hu in Hau.
  rewrite isActivated_run, result_mk in Hact. injection Hact as Hact.
  unfold GetACL. rewrite logged_result.
  step isActivated_run. rewrite Hact. ctl.
  rewrite bool_decide_eq_false_2 by done. ctl.
  step Hau. step (try_as Hev). step (entitlement_gate_run st (Username u) a).
  destruct (negb (bool_decide (st = State_ACTIVE)) && negb (is_admin a (Username u))); ctl;
    [reflexivity|].
  erewrite bind_Ok by apply (try_as (Get_run acls (ga_Repo req) a)).
  unfold may_not_read, stored_ACL. fold (is_admin a (Username u)). cbn [col_rows acls].
  destruct (acls_rows (etcdClient a) !! ga_Repo req) as [[acl ttl]|]; ctl.
  all: erewrite bind_Ok by apply is_admin_run; ctl.
  all: destruct (negb _ && _); ctl; reflexivity.
Qed.

(** X11.  Who may read an ACL.  In an activated cluster, for an
    authenticated caller and an oracle that answers [st], [GetACL] of a named
    repo succeeds exactly when the caller is an admin, or the entitlement is
    ACTIVE and the caller has at least READER in the repo's ACL; it then
    returns the stored ACL, which for a repo without ACL row is the empty ACL.
    So only admins can read the (empty) ACL of a repo that has none; anyone
    else gets NotAuthorized(READER). *)
Theorem GetACL_spec env a ctx req u st :
  result (isActivated a) = Ok true →
  ga_Repo req ≠ "" →
  result (getAuthenticatedUser env ctx a) = Ok u →
  result (getEnterpriseTokenState env a) = Ok st →
  (∀ resp, result (GetACL env ctx req a) = Ok resp ↔
     (is_admin a (Username u) = true ∨
      (st = State_ACTIVE ∧
       (Scope_number Scope_READER ≤
        Scope_number (ACL_at (stored_ACL a (ga_Repo req)) (Username u)))%Z)) ∧
     resp = mkGetACLResponse (stored_ACL a (ga_Repo req))) ∧
  (acls_rows (etcdClient a) !! ga_Repo req = None →
     (is_admin a (Username u) = true →
        result (GetACL env ctx req a) = Ok (mkGetACLResponse (mkACL ∅))) ∧
     (is_admin a (Username u) = false → st = State_ACTIVE →
        result (GetACL env ctx req a) = Err (NotAuthorizedError (ga_Repo req) Scope_READER))).
Proof.
  intros Hact Hrepo Hu Hst.
  rewrite (GetACL_result env a ctx req u st Hact Hrepo Hu Hst).
  unfold may_not_read. fold (is_admin a (Username u)). unfold Scope_ltb.
  split.
  - intros resp.
    destruct (is_admin a (Username u)); cbn [negb andb].
    + rewrite andb_false_r. split; [intros [= <-]; auto | intros [_ ->]; done].
    + destruct (decide (st = State_ACTIVE)) as [->|Hne].
      * rewrite (bool_decide_eq_true_2 (State_ACTIVE = State_ACTIVE)) by done. cbn [negb andb].
        destruct (Z.ltb_spec
                    (Scope_number (ACL_at (stored_ACL a (ga_Repo req)) (Username u)))
                    (Scope_number Scope_READER)) as [Hlt|Hge].
        -- split; [done|]. intros [[?|[_ ?]] _]; [done|lia].
        -- split; [intros [= <-]; auto | intros [_ ->]; done].
      * rewrite bool_decide_eq_false_2 by done. cbn [negb andb].
        split; [done|]. intros [[?|[? _]] _]; done.
  - intros Hrow. unfold stored_ACL. rewrite Hrow. split.
    + intros ->. by rewrite andb_false_r.
    + intros -> ->. by rewrite bool_decide_eq_true_2.
Qed.

Lemma GetACL_spec_witness :
  let env := env_with State_ACTIVE in
  result (isActivated cluster) = Ok true ∧
  result (getAuthenticatedUser env bob_ctx cluster) = Ok bob ∧
  result (getEnterpriseTokenState env cluster) = Ok State_ACTIVE ∧
  result (GetACL env bob_ctx (mkGetACLRequest "r") cluster)
  = Ok (mkGetACLResponse (stored_ACL cluster "r")) ∧
  result (GetACL env bob_ctx (mkGetACLRequest "q") cluster)
  = Err (NotAuthorizedError "q" Scope_READER).
Proof.
  intros env.
  assert (H1 : result (isActivated cluster) = Ok true) by (vm_compute; reflexivity).
  assert (H2 : result (getAuthenticatedUser env bob_ctx cluster) = Ok bob)
    by (vm_compute; reflexivity).
  assert (H3 : result (getEnterpriseTokenState env cluster) = Ok State_ACTIVE)
    by (vm_compute; reflexivity).
  split; [exact H1|]. split; [exact H2|]. split; [exact H3|]. split.
  - destruct (GetACL_spec env cluster bob_ctx (mkGetACLRequest "r") bob State_ACTIVE
                H1 ltac:(discriminate) H2 H3) as [Hiff _].
    apply Hiff. split; [|reflexivity]. right. split; [reflexivity|].
    vm_compute. discriminate.
  - destruct (GetACL_spec env cluster bob_ctx (mkGetACLRequest "q") bob State_ACTIVE
                H1 ltac:(discriminate) H2 H3) as [_ Hmissing].
    destruct (Hmissing ltac:(vm_compute; reflexivity)) as [_ Hdenied].
    apply Hdenied; [vm_compute; reflexivity | reflexivity].
Defined.

(** What a successful [SetACL] did. *)
Lemma SetACL_Ok_inv env a ctx req resp :
  result (SetACL env ctx req a) = Ok resp →
  result (isActivated a) = Ok true ∧
  final (SetACL env ctx req a) = with_acls (set_acl_rows req (acls_rows (etcdClient a))) a.
Proof.
  unfold SetACL, with_acls, set_acl_rows. sym. repeat (split_inner; sym).
  all: intros Hok; first [discriminate Hok | (split; [reflexivity|]; try reflexivity)].
  all: destruct a as [cache [t c d]]; cbn in *; do 2 f_equal; symmetry; by apply delete_id.
Qed.

(** What [SetACL] answers a caller who is neither an admin nor OWNER. *)
Lemma SetACL_not_owner env a ctx req u :
  result (isActivated a) = Ok true →
  sa_Repo req ≠ "" →
  result (getAuthenticatedUser env ctx a) = Ok u →
  result (getEnterpriseTokenState env a) = Ok State_ACTIVE →
  is_admin a (Username u) = false →
  ACL_at (stored_ACL a (sa_Repo req)) (Username u) ≠ Scope_OWNER →
  result (SetACL env ctx req a)
  = Err (Wrapf "could not put new ACL: " (NotAuthorizedError (sa_Repo req) Scope_OWNER)).
Proof.
  intros Hact Hrepo Hu Hst Hadm Hown.
  destruct (getEnterpriseTokenState_run env a) as [ev Hev]. rewrite Hst in Hev.
  pose proof (getAuthenticatedUser_run env ctx a) as Hau. rewrite Hu in Hau.
  rewrite isActivated_run, result_mk in Hact. injection Hact as Hact.
  unfold SetACL. rewrite logged_result.
  step isActivated_run. rewrite Hact. ctl.
  rewrite bool_decide_eq_false_2 by done. ctl.
  step Hau. step (try_as Hev). step (entitlement_gate_run State_ACTIVE (Username u) a).
  rewrite (bool_decide_eq_true_2 (State_ACTIVE = State_ACTIVE)) by done. ctl.
  assert (Hlt : ∀ acl, ACL_at acl (Username u) ≠ Scope_OWNER →
                       Scope_ltb (ACL_at acl (Username u)) Scope_OWNER = true).
  { intros acl. unfold Scope_ltb. by destruct (ACL_at acl (Username u)). }
  erewrite bind_Ok.
  2: { apply try_as. rewrite NewSTM_run.
       erewrite bind_Ok by apply (try_as (Get_run acls (sa_Repo req) a)).
       erewrite bind_Ok by apply is_admin_run. rewrite Hadm.
       unfold stored_ACL in Hown. cbn [col_rows acls].
       destruct (acls_rows (etcdClient a) !! sa_Repo req) as [[acl ttl]|];
         rewrite (Hlt _ Hown); ctl; reflexivity. }
  ctl. reflexivity.
Qed.

(** X12.  Round trip [SetACL] then [GetACL], and who may [SetACL].  After a
    successful [SetACL], the row of the repo holds the new ACL, or is gone
    when the new ACL is nil or has no entries; the rows of the other repos,
    the tokens and the admin rows are untouched; and an admin who then calls
    [GetACL] on the repo reads back exactly the entries that were set.  A
    caller who is neither an admin nor OWNER of the repo is refused with
    NotAuthorized(OWNER), wrapped in the put error. *)
Theorem SetACL_then_GetACL env a ctx req :
  (∀ resp ctx2 reader st,
     result (SetACL env ctx req a) = Ok resp →
     result (getAuthenticatedUser env ctx2 a) = Ok reader →
     result (getEnterpriseTokenState env a) = Ok st →
     is_admin a (Username reader) = true →
     let a' := final (SetACL env ctx req a) in
     let entries := match NewACL req with Some acl => Entries acl | None => ∅ end in
     acls_rows (etcdClient a') = set_acl_rows req (acls_rows (etcdClient a)) ∧
     (entries = ∅ → acls_rows (etcdClient a') !! sa_Repo req = None) ∧
     (∀ repo, repo ≠ sa_Repo req →
        acls_rows (etcdClient a') !! repo = acls_rows (etcdClient a) !! repo) ∧
     tokens_rows (etcdClient a') = tokens_rows (etcdClient a) ∧
     admins_rows (etcdClient a') = admins_rows (etcdClient a) ∧
     ∃ acl, result (GetACL env ctx2 (mkGetACLRequest (sa_Repo req)) a')
              = Ok (mkGetACLResponse acl) ∧
            Entries acl = entries) ∧
  (∀ u, result (isActivated a) = Ok true →
        sa_Repo req ≠ "" →
        result (getAuthenticatedUser env ctx a) = Ok u →
        result (getEnterpriseTokenState env a) = Ok State_ACTIVE →
        is_admin a (Username u) = false →
        ACL_at (stored_ACL a (sa_Repo req)) (Username u) ≠ Scope_OWNER →
        result (SetACL env ctx req a)
        = Err (Wrapf "could not put new ACL: "
                 (NotAuthorizedError (sa_Repo req) Scope_OWNER))).
Proof.
  split; [|apply SetACL_not_owner].
  intros resp ctx2 reader st Hok Hu Hst Hadm a' entries. subst a'.
  destruct (SetACL_Ok_inv env a ctx req resp Hok) as [Hact ->].
  assert (Hrepo : sa_Repo req ≠ "").
  { intros Hempty. revert Hok. unfold SetACL. rewrite logged_result.
    rewrite isActivated_run, result_mk in Hact. injection Hact as Hact.
    step isActivated_run. rewrite Hact. ctl.
    rewrite bool_decide_eq_true_2 by done. by ctl. }
  set (a' := with_acls _ a).
  assert (Hrows : acls_rows (etcdClient a') = set_acl_rows req (acls_rows (etcdClient a)))
    by reflexivity.
  assert (Hgone : entries = ∅ → acls_rows (etcdClient a') !! sa_Repo req = None).
  { rewrite Hrows. subst entries. unfold set_acl_rows.
    destruct (NewACL req) as [acl|]; [|intros _; apply lookup_delete_eq].
    intros ->. rewrite bool_decide_eq_true_2 by apply map_size_empty.
    apply lookup_delete_eq. }
  split; [exact Hrows|]. split; [exact Hgone|]. split; [|split; [done|split; [done|]]].
  - intros repo Hne. rewrite Hrows. unfold set_acl_rows.
    destruct (NewACL req) as [acl|]; [case_bool_decide|];
      by rewrite ?lookup_delete_ne, ?lookup_insert_ne.
  - assert (Hu' : result (getAuthenticatedUser env ctx2 a') = Ok reader).
    { rewrite <- Hu. by apply getAuthenticatedUser_same_tokens. }
    assert (Hst' : result (getEnterpriseTokenState env a') = Ok st)
      by (by rewrite (getEnterpriseTokenState_any env a a')).
    assert (Hget := GetACL_result env a' ctx2 (mkGetACLRequest (sa_Repo req)) reader st
                      Hact Hrepo Hu' Hst').
    assert (Hadm' : is_admin a' (Username reader) = true) by exact Hadm.
    unfold may_not_read in Hget. fold (is_admin a' (Username reader)) in Hget.
    rewrite Hadm', andb_false_r in Hget. cbn [negb andb ga_Repo] in Hget.
    eexists. split; [exact Hget|].
    unfold stored_ACL. rewrite Hrows. subst entries. unfold set_acl_rows.
    destruct (NewACL req) as [acl|]; [|by rewrite lookup_delete_eq].
    case_bool_decide as Hsize.
    + rewrite lookup_delete_eq. symmetry. by apply map_size_empty_iff.
    + by rewrite lookup_insert_eq.
Qed.

Lemma SetACL_then_GetACL_witness :
  let env := env_with State_ACTIVE in
  let newACL := mkACL {["carol" := Scope_OWNER]} in
  let req := mkSetACLRequest "r" (Some newACL) in
  let a' := final (SetACL env alice_ctx req cluster) in
  result (SetACL env alice_ctx req cluster) = Ok EmptyResponse ∧
  result (getAuthenticatedUser env alice_ctx cluster) = Ok alice ∧
  result (getEnterpriseTokenState env cluster) = Ok State_ACTIVE ∧
  is_admin cluster (Username alice) = true ∧
  ∃ acl, result (GetACL env alice_ctx (mkGetACLRequest "r") a') = Ok (mkGetACLResponse acl) ∧
         Entries acl = {["carol" := Scope_OWNER]}.
Proof.
  intros env newACL req a'.
  assert (H1 : result (SetACL env alice_ctx req cluster) = Ok EmptyResponse)
    by (vm_compute; reflexivity).
  assert (H2 : result (getAuthenticatedUser env alice_ctx cluster) = Ok alice)
    by (vm_compute; reflexivity).
  assert (H3 : result (getEnterpriseTokenState env cluster) = Ok State_ACTIVE)
    by (vm_compute; reflexivity).
  assert (H4 : is_admin cluster (Username alice) = true) by (vm_compute; reflexivity).
  split; [exact H1|]. split; [exact H2|]. split; [exact H3|]. split; [exact H4|].
  destruct (SetACL_then_GetACL env cluster alice_ctx req) as [Hround _].
  destruct (Hround _ alice_ctx alice State_ACTIVE H1 H2 H3 H4)
    as (_ & _ & _ & _ & _ & acl & Hget & Hentries).
  exists acl. split; [exact Hget | exact Hentries].
Defined.

(** *** Authorize *)

(** X13.  [Authorize] is monotone in the requested scope: a caller authorized
    for a scope on a repo is authorized for every lower scope on it. *)
Theorem Authorize_monotone env a ctx repo s s' :
  (Scope_number s' ≤ Scope_number s)%Z →
  result (Authorize env ctx (mkAuthorizeRequest repo s) a) = Ok (mkAuthorizeResponse true) →
  result (Authorize env ctx (mkAuthorizeRequest repo s') a) = Ok (mkAuthorizeResponse true).
Proof.
  intros Hle. unfold Authorize, Scope_leb. cbn [authz_Repo authz_Scope].
  sym. repeat (split_inner; sym).
  all: try (intros Hok; first [discriminate Hok | reflexivity]).
  all: intros [= Hyes%Z.leb_le]; do 2 f_equal; apply Z.leb_le; lia.
Qed.

Lemma Authorize_monotone_witness :
  let env := env_with State_ACTIVE in
  (Scope_number Scope_NONE ≤ Scope_number Scope_READER)%Z ∧
  result (Authorize env bob_ctx (mkAuthorizeRequest "r" Scope_READER) cluster)
  = Ok (mkAuthorizeResponse true) ∧
  result (Authorize env bob_ctx (mkAuthorizeRequest "r" Scope_NONE) cluster)
  = Ok (mkAuthorizeResponse true).
Proof.
  intros env.
  assert (H1 : (Scope_number Scope_NONE ≤ Scope_number Scope_READER)%Z)
    by (vm_compute; discriminate).
  assert (H2 : result (Authorize env bob_ctx (mkAuthorizeRequest "r" Scope_READER) cluster)
               = Ok (mkAuthorizeResponse true)) by (vm_compute; reflexivity).
  split; [exact H1|]. split; [exact H2|].
  exact (Authorize_monotone env cluster bob_ctx "r" Scope_READER Scope_NONE H1 H2).
Defined.

(** X14.  Admins are authorized without any lookup: for an authenticated
    admin of an activated cluster [Authorize] answers true for every repo and
    scope, and the run consists of the two log entries only, so it holds even
    when the entitlement oracle is unreachable and the repo has no ACL. *)
Theorem Authorize_admin env a ctx req u :
  result (isActivated a) = Ok true →
  result (getAuthenticatedUser env ctx a) = Ok u →
  is_admin a (Username u) = true →
  Authorize env ctx req a =
  (Ok (mkAuthorizeResponse true), a, [EvLogReq; EvLogResp InfoLevel]).
Proof.
  intros Hact Hu Hadm.
  pose proof (getAuthenticatedUser_run env ctx a) as Hau. rewrite Hu in Hau.
  rewrite isActivated_run, result_mk in Hact. injection Hact as Hact.
  unfold Authorize. rewrite LogReq_run, defer_LogResp_run.
  step isActivated_run. rewrite Hact. ctl.
  step Hau. step (is_admin_run (Username u) a). rewrite Hadm. by ctl.
Qed.

Lemma Authorize_admin_witness :
  let env := mkEnv (Some (Errorf "pachd unreachable")) (Err (Errorf "no oracle"))
               (λ _, None) (λ _, "") (λ token, inl token) "c0ffee"
               (λ token, "sha256:" +:+ token) true in
  result (isActivated cluster) = Ok true ∧
  result (getAuthenticatedUser env alice_ctx cluster) = Ok alice ∧
  is_admin cluster (Username alice) = true ∧
  result (Authorize env alice_ctx (mkAuthorizeRequest "nowhere" Scope_OWNER) cluster)
  = Ok (mkAuthorizeResponse true).
Proof.
  intros env.
  assert (H1 : result (isActivated cluster) = Ok true) by (vm_compute; reflexivity).
  assert (H2 : result (getAuthenticatedUser env alice_ctx cluster) = Ok alice)
    by (vm_compute; reflexivity).
  assert (H3 : is_admin cluster (Username alice) = true) by (vm_compute; reflexivity).
  split; [exact H1|]. split; [exact H2|]. split; [exact H3|].
  by rewrite (Authorize_admin env cluster alice_ctx
                (mkAuthorizeRequest "nowhere" Scope_OWNER) alice H1 H2 H3).
Defined.

(** *** Authenticate *)

(** X15.  What [Authenticate] refuses in an activated cluster, minting
    nothing.  A request that names [magicUser] fails with [invalid user]
    before GitHub or the oracle is asked.  Outside test mode, a request
    whose access token GitHub rejects fails with GitHub's error, and a
    request that names a user other than the one GitHub reports for the
    token fails as well. *)
Theorem Authenticate_rejects env a ctx req :
  result (isActivated a) = Ok true →
  (GithubUsername req = magicUser →
     Authenticate env ctx req a = (Err (Errorf "invalid user"), a, [EvLogResp ErrorLevel])) ∧
  (GithubUsername req ≠ magicUser →
   Getenv env DisableAuthenticationEnvVar ≠ "true" →
     (∀ msg, github_Users_Get env (GithubToken req) = inr msg →
        result (Authenticate env ctx req a)
        = Err (Errorf ("error getting the authenticated user: " +:+ msg)) ∧
        final (Authenticate env ctx req a) = a) ∧
     (∀ name, github_Users_Get env (GithubToken req) = inl name →
        GithubUsername req ≠ "" → GithubUsername req ≠ name →
        (∃ e, result (Authenticate env ctx req a) = Err e) ∧
        final (Authenticate env ctx req a) = a ∧
        EvTxnBegin ∉ events (Authenticate env ctx req a))).
Proof.
  rewrite isActivated_run, result_mk. intros [= Hact].
  split; [|intros Hmagic Hprod; split].
  - intros Hmagic. unfold Authenticate. rewrite defer_LogResp_run.
    step isActivated_run. rewrite Hact. ctl.
    rewrite bool_decide_eq_true_2 by done. by ctl.
  - intros msg Hgh. unfold Authenticate. rewrite defer_LogResp_run.
    step isActivated_run. rewrite Hact. ctl.
    rewrite (bool_decide_eq_false_2 _ Hmagic), (bool_decide_eq_false_2 _ Hprod). ctl.
    erewrite bind_Err; [by ctl|].
    erewrite bind_Err; [reflexivity|].
    unfold AccessTokenToUsername. rewrite Hgh.
    erewrite bind_Ok by reflexivity. by ctl.
  - intros name Hgh Hnamed Hother. unfold Authenticate. rewrite defer_LogResp_run.
    step isActivated_run. rewrite Hact. ctl.
    rewrite (bool_decide_eq_false_2 _ Hmagic), (bool_decide_eq_false_2 _ Hprod). ctl.
    erewrite bind_Err.
    2: { erewrite bind_Ok.
         2: { unfold AccessTokenToUsername. rewrite Hgh.
              erewrite bind_Ok by reflexivity. ctl. reflexivity. }
         rewrite !bool_decide_eq_true_2 by done. ctl. reflexivity. }
    ctl. split; [by eexists|]. split; [done|]. not_in_events.
Qed.

Lemma Authenticate_rejects_witness :
  let env := env_with State_ACTIVE in
  let req := mkAuthenticateRequest "alice" "bob" in
  result (isActivated cluster) = Ok true ∧
  GithubUsername req ≠ magicUser ∧
  Getenv env DisableAuthenticationEnvVar ≠ "true" ∧
  github_Users_Get env (GithubToken req) = inl "bob" ∧
  final (Authenticate env (mkContext None) req cluster) = cluster.
Proof.
  intros env req.
  assert (H1 : result (isActivated cluster) = Ok true) by (vm_compute; reflexivity).
  assert (H2 : GithubUsername req ≠ magicUser) by (vm_compute; discriminate).
  assert (H3 : Getenv env DisableAuthenticationEnvVar ≠ "true") by (vm_compute; discriminate).
  assert (H4 : github_Users_Get env (GithubToken req) = inl "bob") by reflexivity.
  split; [exact H1|]. split; [exact H2|]. split; [exact H3|]. split; [exact H4|].
  destruct (Authenticate_rejects env cluster (mkContext None) req H1) as [_ Hprod].
  destruct (Hprod H2 H3) as [_ Hmismatch].
  destruct (Hmismatch "bob" H4 ltac:(discriminate) ltac:(discriminate)) as (_ & Hsame & _).
  exact Hsame.
Defined.

(** *** Admins *)

(** X16.  [Deactivate] in an activated cluster: a caller who is no admin is
    refused and nothing changes; for an admin it empties the tokens, the ACLs
    and the admin rows in one transaction.  The admin cache is not touched by
    the call, so until the admin watch has caught up the cluster still counts
    as activated, and every token, the caller's included, is then rejected
    with [token not found]. *)
Theorem Deactivate_spec env a ctx caller :
  result (isActivated a) = Ok true →
  result (getAuthenticatedUser env ctx a) = Ok caller →
  (is_admin a (Username caller) = false →
     result (Deactivate env ctx a) = Err (Errorf "must be an admin to disable cluster auth") ∧
     final (Deactivate env ctx a) = a) ∧
  (is_admin a (Username caller) = true →
     result (Deactivate env ctx a) = Ok EmptyResponse ∧
     final (Deactivate env ctx a) = mkServer (adminCache a) (mkEtcd ∅ ∅ ∅) ∧
     commits (events (Deactivate env ctx a)) = 1 ∧
     result (isActivated (final (Deactivate env ctx a))) = Ok true ∧
     ∀ token, result (WhoAmI env (presenting token) (final (Deactivate env ctx a)))
              = Err (Errorf "token not found")).
Proof.
  intros Hact Hu.
  pose proof (getAuthenticatedUser_run env ctx a) as Hau. rewrite Hu in Hau.
  pose proof Hact as Hact'. rewrite isActivated_run, result_mk in Hact'.
  injection Hact' as Hact'.
  split; intros Hadm.
  - unfold Deactivate. rewrite logged_result, logged_final.
    step isActivated_run. rewrite Hact'. ctl.
    step Hau. step (is_admin_run (Username caller) a). rewrite Hadm. by ctl.
  - assert (Hrun : Deactivate env ctx a =
                   (Ok EmptyResponse, mkServer (adminCache a) (mkEtcd ∅ ∅ ∅),
                    [EvLogReq; EvTxnBegin; EvTxnCommit; EvLogResp InfoLevel])).
    { unfold Deactivate. rewrite LogReq_run, defer_LogResp_run.
      step isActivated_run. rewrite Hact'. ctl.
      step Hau. step (is_admin_run (Username caller) a). rewrite Hadm. ctl.
      erewrite bind_Ok by reflexivity. by ctl. }
    rewrite Hrun, result_mk, final_mk, events_mk.
    split; [done|]. split; [done|]. split; [done|]. split; [exact Hact|].
    intros token. apply WhoAmI_unknown; [exact Hact|]. apply lookup_empty.
Qed.

Lemma Deactivate_spec_witness :
  let env := env_with State_ACTIVE in
  result (isActivated cluster) = Ok true ∧
  result (getAuthenticatedUser env alice_ctx cluster) = Ok alice ∧
  is_admin cluster (Username alice) = true ∧
  result (Deactivate env alice_ctx cluster) = Ok EmptyResponse ∧
  result (WhoAmI env alice_ctx (final (Deactivate env alice_ctx cluster)))
  = Err (Errorf "token not found").
Proof.
  intros env.
  assert (H1 : result (isActivated cluster) = Ok true) by (vm_compute; reflexivity).
  assert (H2 : result (getAuthenticatedUser env alice_ctx cluster) = Ok alice)
    by (vm_compute; reflexivity).
  assert (H3 : is_admin cluster (Username alice) = true) by (vm_compute; reflexivity).
  split; [exact H1|]. split; [exact H2|]. split; [exact H3|].
  destruct (Deactivate_spec env cluster alice_ctx alice H1 H2) as [_ Hadm].
  destruct (Hadm H3) as (Hok & _ & _ & _ & Hout).
  split; [exact Hok | exact (Hout "alice-token")].
Defined.

(** What a successful [ModifyAdmins] did. *)
Lemma ModifyAdmins_Ok_inv env a ctx req resp :
  result (ModifyAdmins env ctx req a) = Ok resp →
  (adminCache a ∪ list_to_set (Add req)) ∖ list_to_set (Remove req) ≠ (∅ : gset string) ∧
  final (ModifyAdmins env ctx req a) =
    mkServer (adminCache a)
      (mkEtcd (tokens_rows (etcdClient a)) (acls_rows (etcdClient a))
         (delete_admins (put_admins (admins_rows (etcdClient a)) (Add req)) (Remove req))).
Proof.
  unfold ModifyAdmins.
  assert (Hstm : ∀ a0,
    NewSTM (bind (forEach (Add req) (λ user, Put admins user epsilon))
              (λ _, forEach (Remove req)
                      (λ user, bind (try (Delete (Delete_absent_fails env) admins user))
                                 (λ _, ret ())))) a0
    = (Ok (),
       mkServer (adminCache a0)
         (mkEtcd (tokens_rows (etcdClient a0)) (acls_rows (etcdClient a0))
            (delete_admins (put_admins (admins_rows (etcdClient a0)) (Add req))
               (Remove req))),
       [EvTxnBegin; EvTxnCommit])).
  { intros a0. rewrite NewSTM_run.
    erewrite bind_Ok by apply forEach_Put_admins_run.
    by rewrite forEach_Delete_admins_run. }
  set (stm := NewSTM _) in *. clearbody stm.
  pose proof (validateModifyAdminsRequest_run req a) as Hval.
  set (val := validateModifyAdminsRequest req) in *. clearbody val.
  sym.
  repeat (first [rewrite Hstm | rewrite Hval | split_inner]; sym).
  all: intros Hok; first [discriminate Hok | bd; done].
Qed.

Lemma dom_put_delete_admins (rows : gmap string (bool * option Z)) add remove :
  dom (delete_admins (put_admins rows add) remove)
  = (dom rows ∪ list_to_set add) ∖ list_to_set remove.
Proof.
  apply set_eq. intros k.
  rewrite elem_of_dom, delete_admins_lookup, put_admins_lookup.
  rewrite elem_of_difference, elem_of_union, !elem_of_list_to_set, elem_of_dom.
  destruct (decide (k ∈ remove)) as [Hr|Hr].
  - rewrite bool_decide_eq_true_2 by done. split; [by intros [? ?] | by intros [_ ?]].
  - rewrite (bool_decide_eq_false_2 _ Hr).
    destruct (decide (k ∈ add)) as [Ha|Ha].
    + rewrite bool_decide_eq_true_2 by done. split; [auto | by eexists].
    + rewrite (bool_decide_eq_false_2 _ Ha). split; [auto | by intros [[?|?] _]].
Qed.

(** X17.  The admin floor on the store.  After a successful [ModifyAdmins]
    the usernames with an admin row are those that had one or are in Add,
    minus those in Remove.  When the admin cache mirrors the admin rows at the
    time of the call, at least one admin row is left: the check made on the
    cache protects the store. *)
Theorem ModifyAdmins_keeps_an_admin env a ctx req resp :
  result (ModifyAdmins env ctx req a) = Ok resp →
  let a' := final (ModifyAdmins env ctx req a) in
  dom (admins_rows (etcdClient a'))
    = (dom (admins_rows (etcdClient a)) ∪ list_to_set (Add req)) ∖ list_to_set (Remove req) ∧
  (adminCache a = dom (admins_rows (etcdClient a)) → admins_rows (etcdClient a') ≠ ∅).
Proof.
  intros Hok a'. subst a'.
  destruct (ModifyAdmins_Ok_inv env a ctx req resp Hok) as [Hne ->].
  cbn [etcdClient admins_rows]. split; [apply dom_put_delete_admins|].
  intros Hsync Hempty. apply Hne. rewrite Hsync, <- dom_put_delete_admins, Hempty.
  apply dom_empty_L.
Qed.

Lemma ModifyAdmins_keeps_an_admin_witness :
  let env := env_with State_ACTIVE in
  let req := mkModifyAdminsRequest ["carol"] ["alice"] in
  let a' := final (ModifyAdmins env alice_ctx req cluster) in
  result (ModifyAdmins env alice_ctx req cluster) = Ok EmptyResponse ∧
  adminCache cluster = dom (admins_rows (etcdClient cluster)) ∧
  admins_rows (etcdClient a') ≠ ∅.
Proof.
  intros env req a'.
  assert (H1 : result (ModifyAdmins env alice_ctx req cluster) = Ok EmptyResponse)
    by (vm_compute; reflexivity).
  assert (H2 : adminCache cluster = dom (admins_rows (etcdClient cluster)))
    by (vm_compute; reflexivity).
  split; [exact H1|]. split; [exact H2|].
  destruct (ModifyAdmins_keeps_an_admin env cluster alice_ctx req _ H1) as [_ Hfloor].
  exact (Hfloor H2).
Defined.

(** *** The admin watch *)

Lemma substring_all (s : string) : String.substring 0 (String.length s) s = s.
Proof. induction s as [|c s IH]; [reflexivity|]. cbn. by rewrite IH. Qed.

Lemma TrimPrefix_app (prefix s : string) : TrimPrefix (prefix +:+ s) prefix = s.
Proof.
  unfold TrimPrefix.
  assert (Hpre : String.prefix prefix (prefix +:+ s) = true).
  { induction prefix as [|c prefix IH]; [by destruct s|].
    change (String c prefix +:+ s) with (String c (prefix +:+ s)).
    cbn [String.prefix]. destruct (Ascii.ascii_dec c c); [exact IH | done]. }
  rewrite Hpre. clear Hpre.
  induction prefix as [|c prefix IH].
  - change ("" +:+ s) with s. cbn [String.length]. rewrite Nat.sub_0_r. apply substring_all.
  - change (String c prefix +:+ s) with (String c (prefix +:+ s)).
    cbn [String.length String.substring Nat.sub]. exact IH.
Qed.

(** What a successful [Activate] did. *)
Lemma Activate_Ok_inv env a ctx req resp :
  result (Activate env ctx req a) = Ok resp →
  result (isActivated a) = Ok false ∧
  final (Activate env ctx req a) =
    mkServer (adminCache a)
      (mkEtcd (tokens_rows (etcdClient a)) (acls_rows (etcdClient a))
         (put_admins (admins_rows (etcdClient a)) (Admins req))).
Proof.
  unfold Activate.
  assert (Hstm : ∀ a0, NewSTM (forEach (Admins req) (λ user, Put admins user epsilon)) a0
                       = (Ok (),
                          mkServer (adminCache a0)
                            (mkEtcd (tokens_rows (etcdClient a0)) (acls_rows (etcdClient a0))
                               (put_admins (admins_rows (etcdClient a0)) (Admins req))),
                          [EvTxnBegin; EvTxnCommit])).
  { intros a0. by rewrite NewSTM_run, forEach_Put_admins_run. }
  set (stm := NewSTM _) in *. clearbody stm.
  sym. repeat (first [rewrite Hstm | split_inner]; sym).
  all: intros Hok; first [discriminate Hok | done].
Qed.

(** The watch loop over Put events for the keys of [users]. *)
Lemma watchAdmins_loop_puts prefix users a :
  watchAdmins_loop prefix (map (λ user, AdminPut (admin_key prefix user)) users) a =
  (Some (Errorf "admin watch closed unexpectedly"),
   mkServer (list_to_set users ∪ adminCache a) (etcdClient a)).
Proof.
  revert a. induction users as [|user users IH]; intros a.
  - cbn. do 2 f_equal. destruct a as [cache etcd]. cbn. f_equal. set_solver.
  - cbn [map watchAdmins_loop].
    change (TrimPrefix (admin_key prefix user) (prefix +:+ "/"))
      with (TrimPrefix ((prefix +:+ "/") +:+ user) (prefix +:+ "/")).
    rewrite TrimPrefix_app, IH. cbn. do 2 f_equal. set_solver.
Qed.

(** X18.  Activation reaches the cache through the watch.  After a
    successful [Activate], once the admin watch has delivered the Put events
    for the keys of the seeded admin rows, the admin cache is the set of
    seeded admins: each of them is an admin, and the cluster is activated
    exactly when the list of admins was not empty.  In particular [Activate]
    with an empty list succeeds and leaves the cluster not activated.  The
    call itself leaves the cluster not activated: only the watch activates. *)
Theorem Activate_then_watch env a ctx req resp prefix :
  result (Activate env ctx req a) = Ok resp →
  let a1 := final (Activate env ctx req a) in
  let a2 := (watchAdmins_loop prefix
               (map (λ user, AdminPut (admin_key prefix user)) (Admins req)) a1).2 in
  result (isActivated a1) = Ok false ∧
  adminCache a2 = list_to_set (Admins req) ∧
  etcdClient a2 = etcdClient a1 ∧
  (∀ user, user ∈ Admins req → is_admin a2 user = true) ∧
  (result (isActivated a2) = Ok true ↔ Admins req ≠ []).
Proof.
  intros Hok a1 a2. subst a2 a1.
  destruct (Activate_Ok_inv env a ctx req resp Hok) as [Hact ->].
  rewrite watchAdmins_loop_puts. cbn [snd adminCache etcdClient].
  assert (Hcache : adminCache a = ∅).
  { rewrite isActivated_run, result_mk in Hact. injection Hact as Hact.
    apply bool_decide_eq_false in Hact.
    destruct (decide (size (adminCache a) = 0)) as [H0%size_empty_inv|]; [|lia].
    by apply leibniz_equiv in H0. }
  split; [exact Hact|]. rewrite Hcache.
  assert (Hset : list_to_set (Admins req) ∪ (∅ : gset string) = list_to_set (Admins req))
    by set_solver.
  rewrite Hset. split; [done|]. split; [done|]. split.
  - intros user Hin. unfold is_admin. cbn [adminCache].
    rewrite (bool_decide_eq_true_2 (user ∈ _)) by set_solver. apply orb_true_r.
  - rewrite isActivated_true. cbn [adminCache].
    destruct (Admins req) as [|user users]; [done|]. split; [done|]. intros _. set_solver.
Qed.

Lemma Activate_then_watch_witness :
  let env := env_with State_ACTIVE in
  let req := mkActivateRequest [] in
  let a1 := final (Activate env (mkContext None) req fresh) in
  let a2 := (watchAdmins_loop "/pach/admins"
               (map (λ user, AdminPut (admin_key "/pach/admins" user)) (Admins req)) a1).2 in
  result (Activate env (mkContext None) req fresh) = Ok EmptyResponse ∧
  result (isActivated a2) ≠ Ok true.
Proof.
  intros env req a1 a2.
  assert (H1 : result (Activate env (mkContext None) req fresh) = Ok EmptyResponse)
    by (vm_compute; reflexivity).
  split; [exact H1|].
  destruct (Activate_then_watch env fresh (mkContext None) req _ "/pach/admins" H1)
    as (_ & _ & _ & _ & Hiff).
  intros Hyes. by apply Hiff in Hyes.
Defined.




(** X20.  [GetAdmins] lists the admin cache: for any authenticated caller of
    an activated cluster, admin or not, it returns every username of the
    cache exactly once, in the order the map is enumerated; [magicUser],
    an admin without being cached, is listed only if it is in the cache. *)
Theorem GetAdmins_spec env range ctx a u :
  (∀ l : list string, range l ≡ₚ l) →
  result (isActivated a) = Ok true →
  result (getAuthenticatedUser env ctx a) = Ok u →
  ∃ listed,
    result (GetAdmins env range ctx a) = Ok (mkGetAdminsResponse listed) ∧
    NoDup listed ∧
    (∀ username, username ∈ listed ↔ username ∈ adminCache a) ∧
    length listed = size (adminCache a).
Proof.
  intros Hrange Hact Hu.
  pose proof (getAuthenticatedUser_run env ctx a) as Hau. rewrite Hu in Hau.
  rewrite isActivated_run, result_mk in Hact. injection Hact as Hact.
  assert (Hfold : ∀ l acc : list string,
            foldl (λ admins admin, admins ++ [admin]) acc l = acc ++ l).
  { induction l as [|x l IH]; intros acc; cbn [foldl]; [by rewrite app_nil_r|].
    by rewrite IH, <- app_assoc. }
  exists (range (elements (adminCache a))). split; [|split; [|split]].
  - unfold GetAdmins. rewrite logged_result.
    step isActivated_run. rewrite Hact. ctl. step Hau.
    erewrite bind_Ok by reflexivity. ctl. by rewrite Hfold.
  - rewrite Hrange. apply NoDup_elements.
  - intros username. rewrite Hrange. apply elem_of_elements.
  - by rewrite Hrange.
Qed.

Lemma GetAdmins_spec_witness :
  let env := env_with State_ACTIVE in
  (∀ l : list string, id l ≡ₚ l) ∧
  result (isActivated cluster) = Ok true ∧
  result (getAuthenticatedUser env bob_ctx cluster) = Ok bob ∧
  ∃ listed, result (GetAdmins env id bob_ctx cluster) = Ok (mkGetAdminsResponse listed) ∧
            length listed = size (adminCache cluster).
Proof.
  intros env.
  assert (H0 : ∀ l : list string, id l ≡ₚ l) by (intros l; reflexivity).
  assert (H1 : result (isActivated cluster) = Ok true) by (vm_compute; reflexivity).
  assert (H2 : result (getAuthenticatedUser env bob_ctx cluster) = Ok bob)
    by (vm_compute; reflexivity).
  split; [exact H0|]. split; [exact H1|]. split; [exact H2|].
  destruct (GetAdmins_spec env id bob_ctx cluster bob H0 H1 H2)
    as (listed & Hres & _ & _ & Hlen).
  exists listed. split; [exact Hres | exact Hlen].
Defined.

End AuthExtra.

(** ** Further properties of the connection pool *)

Module PoolExtra.
Import Pool PoolSample PoolProps.

Section WithConn.

Context {ClientConn : Type}.
Context (DialContext : string → ClientConn + error).
Context (ClientConn_Close : ClientConn → option error).

Implicit Types (h : nat → connCount (ClientConn := ClientConn)).
Implicit Types (p : Pool (ClientConn := ClientConn)).

(** *** Selection *)

(** Over entries that all have a channel the selection dials nothing and
    ends on an entry of least count. *)
Lemma select_all_dialed range conn h :
  (∀ addr l, (addr, l) ∈ range → cc (h l) ≠ None) →
  ∃ res, select DialContext range conn h = (Ok res, h) ∧
    match res with
    | None => conn = None ∧ range = []
    | Some l' =>
        (conn = Some l' ∨ ∃ addr, (addr, l') ∈ range) ∧
        (∀ l0, conn = Some l0 → (count (h l') ≤ count (h l0))%Z) ∧
        (∀ addr l, (addr, l) ∈ range → (count (h l') ≤ count (h l))%Z)
    end.
Proof.
  revert conn. induction range as [|[addr mapConn] range IH]; intros conn Hall.
  - exists conn. split; [reflexivity|]. destruct conn as [l0|]; [|done].
    split; [by left|]. split; [by intros ? [= <-]|]. intros ? ? Hin. by apply elem_of_nil in Hin.
  - cbn [select]. destruct (cc (h mapConn)) eqn:Hcc.
    2: { exfalso. eapply (Hall addr mapConn); [apply list_elem_of_here | done]. }
    set (conn' := match conn with
                  | None => Some mapConn
                  | Some l => if (count (h mapConn) <? count (h l))%Z then Some mapConn else conn
                  end).
    destruct (IH conn') as (res & Hsel & Hres).
    { intros a0 l0 Hin. eapply Hall. by apply list_elem_of_further. }
    exists res. split; [exact Hsel|].
    destruct res as [l'|].
    2: { destruct Hres as [Hnone _]. subst conn'.
         destruct conn as [l|]; [destruct (_ <? _)%Z|]; done. }
    destruct Hres as (Hfrom & Hconn & Hrange).
    assert (Hmap : (count (h l') ≤ count (h mapConn))%Z ∧
                   (∀ l0, conn = Some l0 → (count (h l') ≤ count (h l0))%Z) ∧
                   (conn = Some l' ∨ l' = mapConn ∨ ∃ addr0, (addr0, l') ∈ range)).
    { subst conn'. destruct conn as [l|].
      - destruct (Z.ltb_spec (count (h mapConn)) (count (h l))) as [Hlt|Hge].
        + specialize (Hconn mapConn eq_refl). split; [lia|].
          split; [intros l0 [= <-]; lia|].
          destruct Hfrom as [[= <-]|?]; auto.
        + specialize (Hconn l eq_refl). split; [lia|].
          split; [by intros l0 [= <-]|].
          destruct Hfrom as [[= <-]|?]; auto.
      - specialize (Hconn mapConn eq_refl). split; [lia|]. split; [done|].
        destruct Hfrom as [[= <-]|?]; auto. }
    destruct Hmap as (Hle & Hconn' & Hfrom').
    split; [|split; [exact Hconn'|]].
    + destruct Hfrom' as [?|[->|[addr0 ?]]]; [by left| |].
      * right. exists addr. apply list_elem_of_here.
      * right. exists addr0. by apply list_elem_of_further.
    + intros a0 l0 Hin. apply elem_of_cons in Hin as [[= -> ->]|Hin]; [exact Hle|].
      by eapply Hrange.
Qed.

(** X21.  Least outstanding requests.  When every entry of the map has a
    channel and the map is not empty, [Do] dials nothing, invokes [f] on the
    channel of an entry whose count, before the call, is the least of all
    entries, and [f] finds the pool as it was apart from that count. *)
Theorem Do_least_outstanding range f p :
  range ≠ [] →
  (∀ addr l, (addr, l) ∈ range → cc (heap p l) ≠ None) →
  let r := Do DialContext range f p in
  ∃ addr conn,
    (addr, conn) ∈ range ∧
    chosen r = Some conn ∧
    (∀ addr' l, (addr', l) ∈ range → (count (heap p conn) ≤ count (heap p l))%Z) ∧
    invoked r = Some (cc (heap p conn), mkPool (conns p) (add_count conn 1 (heap p))).
Proof.
  intros Hne Hall r. subst r. unfold Do.
  destruct (select_all_dialed range None (heap p) Hall) as (res & -> & Hres).
  destruct res as [conn|]; [|by destruct Hres].
  destruct Hres as ([?|[addr Hin]] & _ & Hmin); [done|].
  cbv zeta. cbn [heap].
  destruct (f _ _) as [out p2].
  exists addr, conn. cbn [chosen invoked].
  split; [done|]. split; [done|]. split; [done|].
  by destruct (add_count_at conn 1 (heap p)) as [_ ->].
Qed.

End WithConn.

Lemma Do_least_outstanding_witness :
  let dialed : Pool (ClientConn := string) :=
    mkPool {["10.0.0.1:80" := 0; "10.0.0.2:80" := 1]}
      (λ l, if bool_decide (l = 0) then mkConnCount (Some "a") 3 else mkConnCount (Some "b") 2) in
  let range := [("10.0.0.1:80", 0); ("10.0.0.2:80", 1)] in
  range ≠ [] ∧
  (∀ addr l, (addr, l) ∈ range → cc (heap dialed l) ≠ None) ∧
  chosen (Do dial range panicking dialed) = Some 1.
Proof.
  intros dialed range.
  assert (H1 : range ≠ []) by discriminate.
  assert (H2 : ∀ addr l, (addr, l) ∈ range → cc (heap dialed l) ≠ None).
  { intros addr l Hin.
    repeat (apply elem_of_cons in Hin as [Hin|Hin]; [injection Hin as -> ->; discriminate|]).
    by apply elem_of_nil in Hin. }
  split; [exact H1|]. split; [exact H2|].
  destruct (Do_least_outstanding dial range panicking dialed H1 H2)
    as (addr & conn & Hin & Hchosen & Hmin & _).
  rewrite Hchosen. f_equal.
  assert (Hle := Hmin "10.0.0.2:80" 1 ltac:(apply list_elem_of_further, list_elem_of_here)).
  apply elem_of_cons in Hin as [Hin|Hin].
  - injection Hin as -> ->. exfalso. vm_compute in Hle. by apply Hle.
  - apply elem_of_cons in Hin as [Hin|Hin]; [by injection Hin as -> ->|].
    by apply elem_of_nil in Hin.
Defined.

Section Dialing.

Context {ClientConn : Type}.
Context (DialContext : string → ClientConn + error).

Implicit Types (h : nat → connCount (ClientConn := ClientConn)).
Implicit Types (p : Pool (ClientConn := ClientConn)).

(** The selection reaches the first entry without a channel with the heap
    untouched. *)
Lemma select_to_first_undialed before addr l after conn h :
  (∀ addr' l', (addr', l') ∈ before → cc (h l') ≠ None) →
  cc (h l) = None →
  select DialContext (before ++ (addr, l) :: after) conn h =
  match DialContext addr with
  | inr err => (Err err, h)
  | inl c => (Ok (Some l), store l (mkConnCount (Some c) (count (h l))) h)
  end.
Proof.
  intros Hall Hl. revert conn.
  induction before as [|[addr0 l0] before IH]; intros conn.
  - cbn [app select]. by rewrite Hl.
  - cbn [app select].
    destruct (cc (h l0)) eqn:Hcc.
    + apply IH. intros a1 l1 Hin. eapply Hall. by apply list_elem_of_further.
    + exfalso. eapply (Hall addr0 l0); [apply list_elem_of_here | done].
Qed.

(** X22.  Initialization wins, and a failed dial is the caller's error.  When
    some entry of the map has no channel yet, [Do] dials the first such entry
    in the enumeration and nothing else.  If the dial fails, [Do] returns the
    dial error, [f] is not invoked and the pool is unchanged, also when other
    entries have usable channels.  If it succeeds, the channel is kept in the
    entry, and [f] is invoked on that very channel, whatever the counts of the
    other entries. *)
Theorem Do_first_undialed before addr l after f p :
  (∀ addr' l', (addr', l') ∈ before → cc (heap p l') ≠ None) →
  cc (heap p l) = None →
  let r := Do DialContext (before ++ (addr, l) :: after) f p in
  (∀ err, DialContext addr = inr err →
     outcome r = Returned (Some err) ∧ invoked r = None ∧ pool_after r = p) ∧
  (∀ c, DialContext addr = inl c →
     chosen r = Some l ∧
     ∃ p1, invoked r = Some (Some c, p1) ∧
           conns p1 = conns p ∧
           cc (heap p1 l) = Some c ∧
           count (heap p1 l) = AddInt64 (count (heap p l)) 1 ∧
           ∀ l', l' ≠ l → heap p1 l' = heap p l').
Proof.
  intros Hall Hl r. subst r. unfold Do.
  rewrite (select_to_first_undialed before addr l after None (heap p) Hall Hl).
  split.
  - intros err ->. cbn. split; [done|]. split; [done|]. by destruct p.
  - intros c ->. cbv zeta. cbn [heap].
    set (h1 := store l (mkConnCount (Some c) (count (heap p l))) (heap p)).
    destruct (f _ _) as [out p2]. cbn [chosen invoked].
    split; [done|].
    assert (Hh1 : h1 l = mkConnCount (Some c) (count (heap p l))).
    { subst h1. unfold store. by rewrite bool_decide_eq_true_2. }
    destruct (add_count_at l 1 h1) as [Hcount Hcc].
    rewrite Hcc, Hh1. cbn [cc].
    eexists. split; [reflexivity|]. cbn [conns heap].
    rewrite Hcount, Hcc, Hh1. cbn [cc count].
    split; [done|]. split; [done|]. split; [done|].
    intros l' Hne. unfold add_count, store. subst h1. unfold store.
    by rewrite !bool_decide_eq_false_2.
Qed.

End Dialing.

Lemma Do_first_undialed_witness :
  let refused (addr : string) : string + error := inr (Errorf "connection refused") in
  let r := Do refused ([("10.0.0.1:80", 0)] ++ ("10.0.0.2:80", 1) :: []) panicking pool2 in
  (∀ addr' l', (addr', l') ∈ [("10.0.0.1:80", 0)] → cc (heap pool2 l') ≠ None) ∧
  cc (heap pool2 1) = None ∧
  outcome r = Returned (Some (Errorf "connection refused")) ∧
  invoked r = None.
Proof.
  intros refused r.
  assert (H1 : ∀ addr' l', (addr', l') ∈ [("10.0.0.1:80", 0)] → cc (heap pool2 l') ≠ None).
  { intros addr' l' Hin. apply elem_of_cons in Hin as [Hin|Hin].
    - injection Hin as -> ->. discriminate.
    - by apply elem_of_nil in Hin. }
  assert (H2 : cc (heap pool2 1) = None) by reflexivity.
  split; [exact H1|]. split; [exact H2|].
  destruct (Do_first_undialed refused [("10.0.0.1:80", 0)] "10.0.0.2:80" 1 [] panicking pool2
              H1 H2) as [Hfail _].
  destruct (Hfail (Errorf "connection refused") eq_refl) as (Hout & Hinv & _).
  split; [exact Hout | exact Hinv].
Defined.

Section Endpoints.

Context {ClientConn : Type}.

Implicit Types (h : nat → connCount (ClientConn := ClientConn)).
Implicit Types (p : Pool (ClientConn := ClientConn)).
Implicit Types (b : Building (ClientConn := ClientConn)).

Lemma foldl_bind {A B C} (f : C → B → C) (g : A → list B) (c : C) (l : list A) :
  foldl f c (l ≫= g) = foldl (λ c x, foldl f c (g x)) c l.
Proof.
  revert c. induction l as [|x l IH]; intros c; [reflexivity|].
  rewrite bind_cons, foldl_app. apply IH.
Qed.

Lemma foldl_same {A C} (f g : C → A → C) (c : C) (l : list A) :
  (∀ c x, f c x = g c x) → foldl f c l = foldl g c l.
Proof.
  intros Hfg. revert c. induction l as [|x l IH]; intros c; [reflexivity|].
  cbn. by rewrite Hfg, IH.
Qed.

(** The three nested loops of [updateAddresses] go through [endpoint_addrs]. *)
Lemma updateAddresses_fold endpoints p next :
  updateAddresses endpoints p next =
  let b := foldl (updateAddresses_addr (conns p)) (mkBuilding ∅ (heap p) next)
             (endpoint_addrs endpoints) in
  (mkPool (addresses b) (objects b), next_free b).
Proof.
  unfold updateAddresses, endpoint_addrs. cbv zeta. rewrite foldl_bind.
  f_equal; [f_equal|]; f_equal.
  all: apply foldl_same; intros b subset; rewrite foldl_bind.
  all: apply foldl_same; intros b' address; rewrite foldl_bind.
  all: apply foldl_same; intros b'' port; reflexivity.
Qed.

Lemma building_ok_fold old h0 next seen :
  building_ok old h0 next seen
    (foldl (updateAddresses_addr old) (mkBuilding ∅ h0 next) seen).
Proof.
  induction seen as [|addr seen IH] using rev_ind.
  - unfold building_ok. cbn [foldl addresses objects next_free].
    split; [by rewrite dom_empty_L|]. split; [by intros ? ? ?|].
    split; [done|]. split; [intros l Hl; lia | done].
  - rewrite foldl_app. cbn [foldl].
    set (b := foldl _ _ seen) in *.
    destruct IH as (Hdom & Hmap & Hold & Hnew & Hnext).
    unfold updateAddresses_addr.
    destruct (old !! addr) as [cc0|] eqn:Hlook.
    + split; [|split; [|split; [|split]]]; cbn [addresses objects next_free]; try done.
      * rewrite dom_insert_L, Hdom, list_to_set_app_L. set_solver.
      * intros a0 l0. destruct (decide (a0 = addr)) as [->|Hne].
        -- rewrite lookup_insert_eq. intros [= <-]. by left.
        -- rewrite lookup_insert_ne by done. apply Hmap.
    + split; [|split; [|split; [|split]]]; cbn [addresses objects next_free].
      * rewrite dom_insert_L, Hdom, list_to_set_app_L. set_solver.
      * intros a0 l0. destruct (decide (a0 = addr)) as [->|Hne].
        -- rewrite lookup_insert_eq. intros [= <-]. right. split; [done|lia].
        -- rewrite lookup_insert_ne by done. intros Hl0.
           destruct (Hmap a0 l0 Hl0) as [?|[? ?]]; [by left|]. right. split; [done|lia].
      * intros l Hl. unfold store. rewrite bool_decide_eq_false_2 by lia. by apply Hold.
      * intros l Hl. unfold store. case_bool_decide; [done|]. apply Hnew. lia.
      * lia.
Qed.

(** X23.  What an update of the endpoints keeps and what it replaces.  Let
    every pointer of the old map lie below [next], the first free location.
    After [updateAddresses] the map has exactly the addresses [ip:port] of
    the cross products of the subsets; an address that was in the map keeps
    its entry, the same object with its channel and count; an address that
    was not gets a freshly allocated entry without channel and with count 0;
    addresses that are no longer listed are dropped; and no object that
    existed before is modified, so a request in flight on a dropped entry
    still counts on the same object. *)
Theorem updateAddresses_spec endpoints p next :
  (∀ addr l, conns p !! addr = Some l → l < next) →
  let p' := (updateAddresses endpoints p next).1 in
  let next' := (updateAddresses endpoints p next).2 in
  dom (conns p') = list_to_set (endpoint_addrs endpoints) ∧
  (∀ addr l, addr ∈ endpoint_addrs endpoints → conns p !! addr = Some l →
     conns p' !! addr = Some l ∧ heap p' l = heap p l) ∧
  (∀ addr, addr ∈ endpoint_addrs endpoints → conns p !! addr = None →
     ∃ l, conns p' !! addr = Some l ∧ next ≤ l < next' ∧
          heap p' l = mkConnCount None 0) ∧
  (∀ addr, addr ∉ endpoint_addrs endpoints → conns p' !! addr = None) ∧
  (∀ l, l < next → heap p' l = heap p l).
Proof.
  intros Halloc p' next'. subst p' next'. rewrite updateAddresses_fold. cbv zeta.
  destruct (building_ok_fold (conns p) (heap p) next (endpoint_addrs endpoints))
    as (Hdom & Hmap & Hold & Hnew & Hnext).
  set (b := foldl _ _ _) in *. cbn [fst snd conns heap].
  assert (Hin : ∀ addr, addr ∈ endpoint_addrs endpoints → is_Some (addresses b !! addr)).
  { intros addr Haddr. apply elem_of_dom. rewrite Hdom. set_solver. }
  split; [exact Hdom|]. split; [|split; [|split; [|exact Hold]]].
  - intros addr l Haddr Hl. destruct (Hin addr Haddr) as [l' Hl'].
    destruct (Hmap addr l' Hl') as [Hsame|[Hnone _]]; [|congruence].
    assert (l' = l) as -> by congruence.
    split; [done|]. apply Hold. by eapply Halloc.
  - intros addr Haddr Hnone. destruct (Hin addr Haddr) as [l' Hl'].
    destruct (Hmap addr l' Hl') as [Hsame|[_ Hrange]]; [congruence|].
    exists l'. split; [done|]. split; [done|]. by apply Hnew.
  - intros addr Haddr. apply not_elem_of_dom. rewrite Hdom. set_solver.
Qed.

End Endpoints.

Lemma updateAddresses_spec_witness :
  let endpoints := [mkEndpointSubset ["10.0.0.1"; "10.0.0.3"] [80%Z]] in
  let p' := (updateAddresses endpoints pool2 2).1 in
  (∀ addr l, conns pool2 !! addr = Some l → l < 2) ∧
  "10.0.0.1:80" ∈ endpoint_addrs endpoints ∧
  conns pool2 !! "10.0.0.1:80" = Some 0 ∧
  conns p' !! "10.0.0.1:80" = Some 0 ∧
  heap p' 0 = heap pool2 0 ∧
  conns p' !! "10.0.0.2:80" = None.
Proof.
  intros endpoints p'.
  assert (H1 : ∀ addr l, conns pool2 !! addr = Some l → l < 2).
  { intros addr l. unfold pool2. cbn [conns].
    destruct (decide (addr = "10.0.0.1:80")) as [->|Hne1].
    - rewrite lookup_insert_eq. intros [= <-]. lia.
    - rewrite lookup_insert_ne by done.
      destruct (decide (addr = "10.0.0.2:80")) as [->|Hne2].
      + rewrite lookup_singleton_eq. intros [= <-]. lia.
      + by rewrite lookup_singleton_ne. }
  assert (H2 : "10.0.0.1:80" ∈ endpoint_addrs endpoints) by (vm_compute; apply list_elem_of_here).
  assert (H3 : conns pool2 !! "10.0.0.1:80" = Some 0) by (vm_compute; reflexivity).
  assert (H4 : "10.0.0.2:80" ∉ endpoint_addrs endpoints).
  { vm_compute. intros Hin.
    repeat (apply elem_of_cons in Hin as [Hin|Hin]; [discriminate Hin|]).
    by apply elem_of_nil in Hin. }
  split; [exact H1|]. split; [exact H2|]. split; [exact H3|].
  destruct (updateAddresses_spec endpoints pool2 2 H1) as (_ & Hkeep & _ & Hdrop & _).
  destruct (Hkeep _ _ H2 H3) as [Hsame Hobj].
  split; [exact Hsame|]. split; [exact Hobj|]. exact (Hdrop _ H4).
Defined.

Section InFlight.

Context {ClientConn : Type}.
Context (DialContext : string → ClientConn + error).
Context (ClientConn_Close : ClientConn → option error).

Implicit Types (h : nat → connCount (ClientConn := ClientConn)).
Implicit Types (p : Pool (ClientConn := ClientConn)).

(** The selected entry is one of the map. *)
Lemma select_from_range range conn h l :
  (select DialContext range conn h).1 = Ok (Some l) →
  conn = Some l ∨ ∃ addr, (addr, l) ∈ range.
Proof.
  revert conn. induction range as [|[addr mapConn] range IH]; intros conn.
  - cbn. intros [= ->]. by left.
  - cbn [select]. destruct (cc (h mapConn)).
    + intros Hsel. destruct (IH _ Hsel) as [Hconn|[addr0 Hin]].
      * destruct conn as [l0|].
        -- destruct (count (h mapConn) <? count (h l0))%Z.
           ++ injection Hconn as <-. right. exists addr. apply list_elem_of_here.
           ++ by left.
        -- injection Hconn as <-. right. exists addr. apply list_elem_of_here.
      * right. exists addr0. by apply list_elem_of_further.
    + destruct (DialContext addr); [|discriminate].
      cbn. intros [= <-]. right. exists addr. apply list_elem_of_here.
Qed.

(** X24.  A request in flight survives an update of the endpoints.  Let [f]
    run while the endpoint watch replaces the address map, possibly dropping
    the entry [Do] has chosen.  The deferred decrement still reaches the
    object that was incremented: after [Do] the count of the chosen entry is
    what it was before the call, [Do] ends as [f] ends, and the map is the
    one the update built. *)
Theorem Do_during_update range endpoints next out p :
  (∀ addr l, (addr, l) ∈ range → l < next) →
  let f := λ (c : option ClientConn) p1, (out, (updateAddresses endpoints p1 next).1) in
  let r := Do DialContext range f p in
  ∀ conn, chosen r = Some conn →
    (- 2 ^ 63 ≤ count (heap p conn) < 2 ^ 63 - 1)%Z →
    outcome r = out ∧
    count (heap (pool_after r) conn) = count (heap p conn) ∧
    dom (conns (pool_after r)) = list_to_set (endpoint_addrs endpoints).
Proof.
  intros Halloc f r. subst r. unfold Do.
  pose proof (select_count DialContext range None (heap p)) as Hcount.
  pose proof (select_from_range range None (heap p)) as Hfrom.
  destruct (select DialContext range None (heap p)) as [[[conn0|]|err] h] eqn:Hsel;
    cbn [fst snd] in *; [|intros conn [=]|intros conn [=]].
  cbv zeta. cbn [heap]. subst f. cbn beta.
  set (p1 := mkPool (conns p) (add_count conn0 1 h)).
  rewrite (updateAddresses_fold endpoints p1 next). cbv zeta. cbn [fst].
  destruct (building_ok_fold (conns p1) (heap p1) next (endpoint_addrs endpoints))
    as (Hdom & _ & Hold & _ & _).
  set (b := foldl _ _ _) in *.
  cbn [chosen outcome pool_after conns heap].
  intros conn [= <-] Hbounds.
  destruct (Hfrom conn0 eq_refl) as [?|[addr Hin]]; [done|].
  assert (Hlt : conn0 < next) by (by eapply Halloc).
  split; [done|]. split; [|exact Hdom].
  destruct (add_count_at conn0 (-1) (objects b)) as [-> _].
  rewrite (Hold conn0 Hlt). subst p1. cbn [heap].
  destruct (add_count_at conn0 1 h) as [-> _].
  rewrite Hcount. rewrite (AddInt64_exact _ 1) by lia.
  rewrite AddInt64_exact by lia. lia.
Qed.

Lemma omap_cons_eq {A B} (g : A → option B) (x : A) (l : list A) :
  omap g (x :: l) = match g x with Some y => y :: omap g l | None => omap g l end.
Proof. reflexivity. Qed.

(** X25.  [Close] closes every channel of the pool and reports the last
    failure.  A first call closes, in the order of the enumeration, the
    channel of every entry that has one, going on after a channel fails to
    close; it returns nil when none failed and otherwise the error of the
    last channel that failed.  Entries never dialed are skipped.  A call on a
    pool that has been closed already panics and closes nothing. *)
Theorem Close_spec range p :
  let r := Close ClientConn_Close range false p in
  closed r = omap (λ entry, cc (heap p entry.2)) range ∧
  close_outcome r = Returned (last (omap ClientConn_Close (closed r))) ∧
  (close_outcome r = Returned None ↔ ∀ c, c ∈ closed r → ClientConn_Close c = None) ∧
  done_after r = true ∧
  Close ClientConn_Close range (done_after r) p =
    mkCloseResult (Panicked "close of closed channel") true [].
Proof.
  intros r. subst r. unfold Close.
  set (step := λ '(retErr, cs) '(_, conn), _).
  assert (Hfold : ∀ range retErr cs,
            foldl step (retErr, cs) range =
            (match last (omap ClientConn_Close
                           (omap (λ entry, cc (heap p entry.2)) range)) with
             | Some e => Some e
             | None => retErr
             end,
             cs ++ omap (λ entry, cc (heap p entry.2)) range)).
  { clear. induction range as [|[addr conn] range IH]; intros retErr cs.
    - cbn. by rewrite app_nil_r.
    - cbn [foldl].
      assert (Hstep : step (retErr, cs) (addr, conn) =
                      match cc (heap p conn) with
                      | Some c =>
                          match ClientConn_Close c with
                          | Some err => (Some err, cs ++ [c])
                          | None => (retErr, cs ++ [c])
                          end
                      | None => (retErr, cs)
                      end) by reflexivity.
      rewrite Hstep. clear Hstep.
      rewrite (omap_cons_eq (λ entry : string * nat, cc (heap p entry.2))). cbn [snd].
      destruct (cc (heap p conn)) as [c|]; [|apply IH].
      rewrite (omap_cons_eq ClientConn_Close).
      destruct (ClientConn_Close c) as [err|] eqn:Hc; rewrite IH, <- app_assoc.
      + f_equal. set (rest := omap ClientConn_Close _).
        destruct rest as [|e l]; [done|].
        rewrite !last_cons. by destruct (last l).
      + reflexivity. }
  rewrite (Hfold range None []). cbn [app closed close_outcome done_after].
  set (cs := omap (λ entry, cc (heap p entry.2)) range).
  split; [done|]. split; [by destruct (last _)|]. split; [|done].
  assert (Hlast : last (omap ClientConn_Close cs) = None ↔
                  ∀ c, c ∈ cs → ClientConn_Close c = None).
  { clear. induction cs as [|c cs IH]; [split; [by intros _ ? ?%elem_of_nil | done]|].
    rewrite (omap_cons_eq ClientConn_Close). destruct (ClientConn_Close c) as [err|] eqn:Hc.
    - split.
      + intros Hl. exfalso.
        destruct (omap ClientConn_Close cs) as [|e l]; [done|].
        rewrite !last_cons in Hl. by destruct (last l).
      + intros Hall. specialize (Hall c (list_elem_of_here _ _)). congruence.
    - rewrite IH. split.
      + intros Hall c' [->|Hin]%elem_of_cons; [done | by apply Hall].
      + intros Hall c' Hin. apply Hall. by apply list_elem_of_further. }
  rewrite <- Hlast. destruct (last (omap ClientConn_Close cs)); split; congruence.
Qed.

End InFlight.

Lemma Do_during_update_witness :
  let range := [("10.0.0.1:80", 0); ("10.0.0.2:80", 1)] in
  let endpoints := [mkEndpointSubset ["10.0.0.3"] [80%Z]] in
  let r := Do dial range
             (λ _ p1, (Panicked "worker crashed", (updateAddresses endpoints p1 2).1))
             pool2 in
  (∀ addr l, (addr, l) ∈ range → l < 2) ∧
  chosen r = Some 1 ∧
  (- 2 ^ 63 ≤ count (heap pool2 1) < 2 ^ 63 - 1)%Z ∧
  outcome r = Panicked "worker crashed" ∧
  count (heap (pool_after r) 1) = count (heap pool2 1) ∧
  dom (conns (pool_after r)) = list_to_set (endpoint_addrs endpoints).
Proof.
  intros range endpoints r.
  assert (H1 : ∀ addr l, (addr, l) ∈ range → l < 2).
  { intros addr l Hin. subst range.
    apply elem_of_cons in Hin as [[= _ ->]|Hin]; [lia|].
    apply elem_of_cons in Hin as [[= _ ->]|Hin]; [lia|].
    by apply elem_of_nil in Hin. }
  assert (H2 : chosen r = Some 1) by (vm_compute; reflexivity).
  assert (H3 : (- 2 ^ 63 ≤ count (heap pool2 1) < 2 ^ 63 - 1)%Z) by (change (count (heap pool2 1)) with 0%Z; lia).
  split; [exact H1|]. split; [exact H2|]. split; [exact H3|].
  exact (Do_during_update dial range endpoints 2 (Panicked "worker crashed") pool2
           H1 1 H2 H3).
Defined.

End PoolExtra.

(** ** Further properties of the pipeline master *)

Module MasterExtra.
Import Master.

Section WithPipelines.

Context {Input PipelineInput : Type}.
Context (translatePipelineInputs : list PipelineInput → option Input).

Lemma watch_loop_result events k :
  watch_loop translatePipelineInputs None events k =
  (Some (default (Errorf "pipelineWatcher closed unexpectedly")
           (head (omap event_failure events))), k).
Proof.
  induction events as [|event events IH]; [reflexivity|].
  cbn [watch_loop]. unfold omap. cbn [list_omap]. unfold event_failure at 1.
  destruct (Err_ event); [reflexivity|].
  destruct (Type_ event); [|exact IH|exact IH].
  destruct (Unmarshal event) as [[name info]|e]; [exact IH|reflexivity].
Qed.

(** X26.  An attempt of [master] always ends with an error and never
    touches the worker controllers, whatever events the watch delivers.  The
    error is the one of [WatchByIndex] if it failed; otherwise that of the
    first event that carries an error or is a Put that cannot be decoded;
    otherwise, once the watch channel is closed, [pipelineWatcher closed
    unexpectedly]. *)
Theorem master_attempt_always_fails events err k :
  master_attempt translatePipelineInputs (events, err) k =
  (Some match err with
        | Some e => e
        | None =>
            default (Errorf "pipelineWatcher closed unexpectedly")
              (head (omap event_failure events))
        end, k).
Proof.
  unfold master_attempt. destruct err as [e|]; [reflexivity|].
  apply watch_loop_result.
Qed.

End WithPipelines.

End MasterExtra.
